(** * extend-vps-exp: the VPS renewal script (main.mjs)

    A shallow embedding of the renewal script and the properties its
    specification states about it.

    - [JS]      : JavaScript strings as sequences of UTF-16 code units and
                  the string primitives the script uses.
    - [Regex]   : the backtracking matcher behind [String.prototype.match]
                  for the fragment of regular expressions the script uses.
    - [JSDate]  : the calendar arithmetic of the built-in [Date] object.
    - top level : [formatChineseDate], [getNextRenewAvailableDate],
                  [getExpirationDate], the CAPTCHA loop, the workflow inside
                  [try], the [catch] and [finally] blocks. *)

From Stdlib Require Import ZArith NArith Lia Bool Ascii String.
From stdpp Require Import base list gmap.

#[local] Open Scope N_scope.

(* ===================================================================== *)
(** ** JavaScript strings *)
(* ===================================================================== *)

Module JS.

(** A JavaScript string is a sequence of 16-bit code units. *)
Abbreviation jsstring := (list N).

(** Decoding of the UTF-8 bytes of a literal of this file into code points. *)
Fixpoint utf8_decode (bs : list N) : list N :=
  match bs with
  | [] => []
  | b0 :: r0 =>
    if b0 <? 0x80 then b0 :: utf8_decode r0
    else match r0 with
    | [] => []
    | b1 :: r1 =>
      if b0 <? 0xE0 then ((b0 mod 32) * 64 + b1 mod 64) :: utf8_decode r1
      else match r1 with
      | [] => []
      | b2 :: r2 =>
        if b0 <? 0xF0
        then ((b0 mod 16) * 4096 + (b1 mod 64) * 64 + b2 mod 64) :: utf8_decode r2
        else match r2 with
        | [] => []
        | b3 :: r3 =>
          ((b0 mod 8) * 262144 + (b1 mod 64) * 4096 + (b2 mod 64) * 64 + b3 mod 64)
            :: utf8_decode r3
        end
      end
    end
  end.

(** A code point as one code unit, or as a surrogate pair above the BMP. *)
Definition utf16_units (cp : N) : list N :=
  if cp <? 0x10000 then [cp]
  else [0xD800 + (cp - 0x10000) / 1024; 0xDC00 + (cp - 0x10000) mod 1024].

Fixpoint bytes_of (s : string) : list N :=
  match s with
  | EmptyString => []
  | String a r => N_of_ascii a :: bytes_of r
  end.

(** [utf16 "..."] is the JavaScript string a source literal denotes. *)
Definition utf16 (s : string) : jsstring :=
  concat (map utf16_units (utf8_decode (bytes_of s))).

Definition str_eqb (a b : jsstring) : bool := bool_decide (a = b).

(** Truthiness of a string: only the empty string is falsy. *)
Definition truthy (s : jsstring) : bool :=
  match s with [] => false | _ => true end.

(** [a || b] on strings. *)
Definition or_else (a b : jsstring) : jsstring := if truthy a then a else b.

(** [s.padStart(n, c)] with a one-unit filler [c]. *)
Definition padStart (n : nat) (c : N) (s : jsstring) : jsstring :=
  repeat c (n - length s) ++ s.

Definition is_digit (c : N) : bool := (48 <=? c) && (c <=? 57).

Definition is_digits (s : jsstring) : Prop :=
  Forall (fun c => is_digit c = true) s.

(** White space and line terminators: the class [\s], also what [trim]
    strips. *)
Definition is_space (c : N) : bool :=
  ((9 <=? c) && (c <=? 13)) || (c =? 32) || (c =? 0xA0) || (c =? 0x1680)
  || ((0x2000 <=? c) && (c <=? 0x200A)) || (c =? 0x2028) || (c =? 0x2029)
  || (c =? 0x202F) || (c =? 0x205F) || (c =? 0x3000) || (c =? 0xFEFF).

Fixpoint trimStart (s : jsstring) : jsstring :=
  match s with
  | c :: r => if is_space c then trimStart r else s
  | [] => []
  end.

Definition trim (s : jsstring) : jsstring :=
  rev (trimStart (rev (trimStart s))).

(** [s.replace(/\s/g, '')]. *)
Definition remove_spaces (s : jsstring) : jsstring :=
  filter (fun c => is_space c = false) s.

Fixpoint strip_prefix (p s : jsstring) : option jsstring :=
  match p with
  | [] => Some s
  | a :: p' =>
    match s with
    | b :: s' => if a =? b then strip_prefix p' s' else None
    | [] => None
    end
  end.

(** [s.includes(p)]. *)
Fixpoint includes (s p : jsstring) : bool :=
  match strip_prefix p s with
  | Some _ => true
  | None => match s with [] => false | _ :: s' => includes s' p end
  end.

(** [Number(s)] for a string of decimal digits. *)
Definition Number (s : jsstring) : Z :=
  fold_left (fun acc c => (10 * acc + (Z.of_N c - 48))%Z) s 0%Z.

Fixpoint digits_fuel (fuel : nat) (n : N) (acc : jsstring) : jsstring :=
  match fuel with
  | O => acc
  | S f =>
    let acc' := (48 + n mod 10) :: acc in
    if n <? 10 then acc' else digits_fuel f (n / 10) acc'
  end.

(** [String(n)] for an integer [n]. *)
Definition String_ (z : Z) : jsstring :=
  let n := Z.abs_N z in
  let ds := digits_fuel (S (N.to_nat (N.log2 n))) n [] in
  if (z <? 0)%Z then 45 :: ds else ds.

End JS.
Export JS.

(* ===================================================================== *)
(** ** Regular expressions *)
(* ===================================================================== *)

Module Regex.

(** Character classes of the patterns in the script. *)
Inductive cls : Type :=
| Digit                 (* \d *)
| Space                 (* \s *)
| Char (c : N).

Definition in_cls (k : cls) (c : N) : bool :=
  match k with
  | Digit => is_digit c
  | Space => is_space c
  | Char x => x =? c
  end.

(** The pattern fragment: one unit of a class, a literal, a greedy bounded
    repetition [k{lo,hi}] of a class, concatenation, a capturing group. *)
Inductive re : Type :=
| Atom (k : cls)
| Str (l : jsstring)
| Rep (lo hi : nat) (k : cls)
| Cat (r1 r2 : re)
| Grp (r : re).

Section Exec.
Context {A : Type}.

(** A continuation receives the rest of the input and the captures so
    far; [None] makes the matcher backtrack. *)
Definition kont : Type := jsstring -> list jsstring -> option A.

(** The optional part of a greedy repetition: one more unit first, the
    continuation on the shorter match when that fails. *)
Fixpoint rep_opt (k : cls) (extra : nat) (s : jsstring)
    (caps : list jsstring) (K : kont) : option A :=
  match extra with
  | O => K s caps
  | S e =>
    match s with
    | c :: s' =>
      if in_cls k c then
        match rep_opt k e s' caps K with
        | Some r => Some r
        | None => K s caps
        end
      else K s caps
    | [] => K s caps
    end
  end.

Fixpoint rep_req (k : cls) (lo extra : nat) (s : jsstring)
    (caps : list jsstring) (K : kont) : option A :=
  match lo with
  | O => rep_opt k extra s caps K
  | S lo' =>
    match s with
    | c :: s' => if in_cls k c then rep_req k lo' extra s' caps K else None
    | [] => None
    end
  end.

Fixpoint exec (r : re) (s : jsstring) (caps : list jsstring) (K : kont)
    : option A :=
  match r with
  | Atom k =>
    match s with
    | c :: s' => if in_cls k c then K s' caps else None
    | [] => None
    end
  | Str l =>
    match strip_prefix l s with
    | Some s' => K s' caps
    | None => None
    end
  | Rep lo hi k => rep_req k lo (hi - lo) s caps K
  | Cat r1 r2 => exec r1 s caps (fun s' caps' => exec r2 s' caps' K)
  | Grp r1 =>
    exec r1 s caps
      (fun s' caps' => K s' (caps' ++ [take (length s - length s') s]))
  end.
End Exec.

(** A match anchored at the start of [s]: the matched text and the
    captures. *)
Definition match_at (r : re) (s : jsstring) : option (jsstring * list jsstring) :=
  exec r s [] (fun s' caps => Some (take (length s - length s') s, caps)).

(** [s.match(r)] for a pattern without the [g] flag: the leftmost match.
    [None] is JavaScript's [null]. *)
Fixpoint re_match (r : re) (s : jsstring) : option (jsstring * list jsstring) :=
  match match_at r s with
  | Some m => Some m
  | None =>
    match s with
    | [] => None
    | _ :: s' => re_match r s'
    end
  end.

(** [m[i]] for [i >= 1]. *)
Definition group (i : nat) (caps : list jsstring) : jsstring :=
  nth (i - 1) caps [].

End Regex.
Export Regex.

(* ===================================================================== *)
(** ** Date helpers of main.mjs *)
(* ===================================================================== *)

Definition c_nian : N := 0x5E74.   (* 年 *)
Definition c_yue : N := 0x6708.    (* 月 *)
Definition c_ri : N := 0x65E5.     (* 日 *)
Definition c_zero : N := 48.       (* '0' *)
Definition s_unknown : jsstring := utf16 "未知".

(** [/(\d{4})年(\d{1,2})月(\d{1,2})日/] *)
Definition re_date_loose : re :=
  Cat (Grp (Rep 4 4 Digit)) (Cat (Atom (Char c_nian))
  (Cat (Grp (Rep 1 2 Digit)) (Cat (Atom (Char c_yue))
  (Cat (Grp (Rep 1 2 Digit)) (Atom (Char c_ri)))))).

(** [/(\d{4})年(\d{2})月(\d{2})日/] *)
Definition re_date_padded : re :=
  Cat (Grp (Rep 4 4 Digit)) (Cat (Atom (Char c_nian))
  (Cat (Grp (Rep 2 2 Digit)) (Cat (Atom (Char c_yue))
  (Cat (Grp (Rep 2 2 Digit)) (Atom (Char c_ri)))))).

(** main.mjs 10-15. *)
Definition formatChineseDate (dateStr : jsstring) : jsstring :=
  match re_match re_date_loose dateStr with
  | None => or_else dateStr s_unknown
  | Some (_, m) =>
    let y := group 1 m in
    let mo := group 2 m in
    let d := group 3 m in
    y ++ [c_nian] ++ padStart 2 c_zero mo ++ [c_yue] ++ padStart 2 c_zero d ++ [c_ri]
  end.

(* ===================================================================== *)
(** ** The built-in Date object *)
(* ===================================================================== *)

(** A [Date] is its time value, the milliseconds since the epoch in UTC;
    [new Date(y, m, d)], [setDate] and the getters work in the local time
    of the host, whose time zone is a parameter.  The names are those of the
    abstract operations of the language standard.  The dates built here lie
    within four-digit years, far inside the range of time values, so
    [TimeClip] leaves them as they are. *)
Module JSDate.
#[local] Open Scope Z_scope.

(** The time zone of the host: [LocalTZA z t true] is the offset of local
    time from UTC, in milliseconds, at the UTC time [t];
    [LocalTZA z t false] is the offset at which the local time [t] is read,
    for a local time that a transition skips the offset before the
    transition. *)
Record Zone : Type := { LocalTZA : Z -> bool -> Z }.

Definition fixed_zone (offset : Z) : Zone := {| LocalTZA := fun _ _ => offset |}.

Definition utc : Zone := fixed_zone 0.

(** A zone without transitions. *)
Definition fixed_offset (z : Zone) : Prop :=
  exists offset, forall t isUTC, LocalTZA z t isUTC = offset.

Definition msPerDay : Z := 86400000.
Definition Day (t : Z) : Z := t / msPerDay.
Definition TimeWithinDay (t : Z) : Z := t mod msPerDay.
Definition MakeDate (day time : Z) : Z := day * msPerDay + time.
Definition LocalTime (z : Zone) (t : Z) : Z := t + LocalTZA z t true.
Definition UTC (z : Zone) (t : Z) : Z := t - LocalTZA z t false.

(** The local day number of a time value. *)
Definition local_day (z : Zone) (t : Z) : Z := Day (LocalTime z t).

Definition leap (y : Z) : bool :=
  ((y mod 4 =? 0) && negb (y mod 100 =? 0)) || (y mod 400 =? 0).

Definition DaysInYear (y : Z) : Z := if leap y then 366 else 365.

Definition DayFromYear (y : Z) : Z :=
  365 * (y - 1970) + (y - 1969) / 4 - (y - 1901) / 100 + (y - 1601) / 400.

(** The largest [y] with [DayFromYear y <= day]: an estimate from the mean
    length of a year, corrected by one where needed. *)
Definition YearFromDay (day : Z) : Z :=
  let y0 := 1970 + (400 * day) / 146097 in
  if day <? DayFromYear y0 then y0 - 1
  else if DayFromYear (y0 + 1) <=? day then y0 + 1
  else y0.

Definition DayWithinYear (day : Z) : Z := day - DayFromYear (YearFromDay day).

Definition InLeapYear (day : Z) : Z :=
  if leap (YearFromDay day) then 1 else 0.

Definition MonthFromDay (day : Z) : Z :=
  let dw := DayWithinYear day in
  let l := InLeapYear day in
  if dw <? 31 then 0
  else if dw <? 59 + l then 1
  else if dw <? 90 + l then 2
  else if dw <? 120 + l then 3
  else if dw <? 151 + l then 4
  else if dw <? 181 + l then 5
  else if dw <? 212 + l then 6
  else if dw <? 243 + l then 7
  else if dw <? 273 + l then 8
  else if dw <? 304 + l then 9
  else if dw <? 334 + l then 10
  else 11.

Definition DateFromDay (day : Z) : Z :=
  let dw := DayWithinYear day in
  let l := InLeapYear day in
  match MonthFromDay day with
  | 0 => dw + 1
  | 1 => dw - 30
  | 2 => dw - 58 - l
  | 3 => dw - 89 - l
  | 4 => dw - 119 - l
  | 5 => dw - 150 - l
  | 6 => dw - 180 - l
  | 7 => dw - 211 - l
  | 8 => dw - 242 - l
  | 9 => dw - 272 - l
  | 10 => dw - 303 - l
  | _ => dw - 333 - l
  end.

(** Days before the first of month [mn] (0-based) within a year. *)
Definition days_before_month (lp : bool) (mn : Z) : Z :=
  let l := if lp then 1 else 0 in
  match mn with
  | 0 => 0
  | 1 => 31
  | 2 => 59 + l
  | 3 => 90 + l
  | 4 => 120 + l
  | 5 => 151 + l
  | 6 => 181 + l
  | 7 => 212 + l
  | 8 => 243 + l
  | 9 => 273 + l
  | 10 => 304 + l
  | _ => 334 + l
  end.

Definition MakeDay (year month date : Z) : Z :=
  let ym := year + month / 12 in
  let mn := month mod 12 in
  DayFromYear ym + days_before_month (leap ym) mn + date - 1.

(** [new Date(y, m, d)]: local midnight of that day; a year from 0 to 99
    means 1900 + year. *)
Definition new_Date (z : Zone) (y m d : Z) : Z :=
  let yr := if (0 <=? y) && (y <=? 99) then 1900 + y else y in
  UTC z (MakeDate (MakeDay yr m d) 0).

(** The getters, of the local day number of the date. *)
Definition getFullYear (day : Z) : Z := YearFromDay day.
Definition getMonth (day : Z) : Z := MonthFromDay day.
Definition getDate (day : Z) : Z := DateFromDay day.

(** [dt.setDate(d)]: the day of the month is replaced in local time, the
    time within the day is kept. *)
Definition setDate (z : Zone) (t d : Z) : Z :=
  let lt := LocalTime z t in
  UTC z (MakeDate (MakeDay (YearFromDay (Day lt)) (MonthFromDay (Day lt)) d)
           (TimeWithinDay lt)).

End JSDate.

(** main.mjs 20-27. *)
Definition getNextRenewAvailableDate (z : JSDate.Zone) (chineseDate : jsstring)
    : jsstring :=
  match re_match re_date_padded chineseDate with
  | None => s_unknown
  | Some (_, m) =>
    let y := group 1 m in
    let mo := group 2 m in
    let d := group 3 m in
    let dt := JSDate.new_Date z (Number y) (Number mo - 1) (Number d) in
    let dt :=
      JSDate.setDate z dt (JSDate.getDate (JSDate.local_day z dt) - 1) in
    let day := JSDate.local_day z dt in
    String_ (JSDate.getFullYear day) ++ [c_nian]
      ++ padStart 2 c_zero (String_ (JSDate.getMonth day + 1)) ++ [c_yue]
      ++ padStart 2 c_zero (String_ (JSDate.getDate day)) ++ [c_ri]
  end.


(* ===================================================================== *)
(** ** The script and its collaborators *)
(* ===================================================================== *)

(** The browser page, the recognition service, the recorder, the WebDAV
    store and the chat service are external collaborators.  Every request
    the script makes to one of them is an [Event]; an [Env] decides, for
    the [n]-th request of a run, whether it is rejected (the awaited promise
    rejects, with an error message) and what it answers otherwise. *)
Inductive Event : Type :=
| Goto (url : jsstring)
| Fill (selector text : jsstring)
| Click (selector : jsstring)
| WaitForNavigation
| WaitForSelector (selector : jsstring)
| Sleep (ms : Z)
| ReadThTd                          (* page.evaluate in getExpirationDate *)
| QueryCaptchaImg                   (* page.$ of the inline image *)
| ReadImgSrc                        (* captchaImg.evaluate(img => img.src) *)
| Recognize (base64 : jsstring)     (* POST to the recognition endpoint *)
| Screenshot (path : jsstring)
| InjectAutoSubmit                  (* page.evaluate(setInterval ...) *)
| Reload
| ReadBodyText                      (* document.body.innerText *)
| ReadContent                       (* page.content() *)
| RecorderStop
| BrowserClose
| WebdavPut (url : jsstring)
| TelegramPost (text : jsstring).

Record Env : Type := {
  EMAIL : jsstring;
  PASSWORD : jsstring;
  TG_BOT_TOKEN : jsstring;
  TG_CHAT_ID : jsstring;
  WEBDAV_URL : jsstring;
  WEBDAV_USERNAME : jsstring;
  WEBDAV_PASSWORD : jsstring;
  WEBDAV_SAVE_PATH : jsstring;
  (** [Some msg]: the request is rejected with [Error(msg)]. *)
  rejects : nat -> Event -> option jsstring;
  (** the label/value pairs of the table on the page *)
  th_td : nat -> list (jsstring * jsstring);
  (** the inline image found on the page ([None] is [null]), as its src *)
  captcha_img : nat -> option jsstring;
  (** the text the recognition service answers *)
  recognized : nat -> jsstring;
  body_text : nat -> jsstring;
  content : nat -> jsstring;
  (** whether the recorder left recording.webm on disk *)
  recording_exists : nat -> bool;
  (** [res.ok] and the status line of the WebDAV response *)
  response_ok : nat -> bool;
  response_status : nat -> jsstring;
  (** what getBeijingTimeString() returns at that moment *)
  beijing_time : nat -> jsstring;
  (** the image a screenshot of the CAPTCHA element holds *)
  screenshot_png : nat -> jsstring;
  (** the time zone of the host *)
  zone : JSDate.Zone
}.

(** The files of the working directory as the script's process leaves
    them (those it writes with [fs.writeFileSync] and the screenshots it has
    the browser write), the requests made so far, the number of interactions
    so far, and the script's module-level variables.  recording.webm, which
    the recorder writes on its own, is not part of [fs]: whether it is on
    disk is asked of the environment. *)
Record State : Type := {
  fs : gmap jsstring jsstring;
  trace : list Event;
  now : nat;
  lastExpireDate : jsstring;
  infoMessage : jsstring;
  scriptErrorMessage : jsstring
}.

Inductive result (A : Type) : Type :=
| Ok (a : A)
| Throw (message : jsstring).
Arguments Ok {A} a.
Arguments Throw {A} message.

Definition M (A : Type) : Type := State -> State * result A.

Definition ret {A} (a : A) : M A := fun st => (st, Ok a).

Definition throw {A} (message : jsstring) : M A := fun st => (st, Throw message).

Definition bind {A B} (m : M A) (k : A -> M B) : M B :=
  fun st =>
    match m st with
    | (st', Ok a) => k a st'
    | (st', Throw e) => (st', Throw e)
    end.

Declare Scope script_scope.
Delimit Scope script_scope with script.
Notation "x <- m ;; k" := (bind m (fun x => k))
  (at level 100, m at next level, right associativity) : script_scope.
Notation "m ;; k" := (bind m (fun _ => k))
  (at level 100, right associativity) : script_scope.
#[local] Open Scope script_scope.

(** [try { m } catch (e) { ... }] as a value: the outcome of [m]. *)
Definition try_ {A} (m : M A) : M (result A) :=
  fun st => let (st', r) := m st in (st', Ok r).

Definition tick_event (e : Event) (st : State) : State :=
  {| fs := fs st; trace := trace st ++ [e]; now := S (now st);
     lastExpireDate := lastExpireDate st; infoMessage := infoMessage st;
     scriptErrorMessage := scriptErrorMessage st |}.

Definition tick (st : State) : State :=
  {| fs := fs st; trace := trace st; now := S (now st);
     lastExpireDate := lastExpireDate st; infoMessage := infoMessage st;
     scriptErrorMessage := scriptErrorMessage st |}.

Definition set_lastExpireDate (v : jsstring) : M unit := fun st =>
  ({| fs := fs st; trace := trace st; now := now st;
      lastExpireDate := v; infoMessage := infoMessage st;
      scriptErrorMessage := scriptErrorMessage st |}, Ok tt).

Definition set_infoMessage (v : jsstring) : M unit := fun st =>
  ({| fs := fs st; trace := trace st; now := now st;
      lastExpireDate := lastExpireDate st; infoMessage := v;
      scriptErrorMessage := scriptErrorMessage st |}, Ok tt).

Definition set_scriptErrorMessage (v : jsstring) : M unit := fun st =>
  ({| fs := fs st; trace := trace st; now := now st;
      lastExpireDate := lastExpireDate st; infoMessage := infoMessage st;
      scriptErrorMessage := v |}, Ok tt).

(** [fs.writeFileSync(path, data)] *)
Definition writeFileSync (path data : jsstring) : M unit := fun st =>
  ({| fs := <[path := data]> (fs st); trace := trace st; now := now st;
      lastExpireDate := lastExpireDate st; infoMessage := infoMessage st;
      scriptErrorMessage := scriptErrorMessage st |}, Ok tt).

Definition get {A} (f : State -> A) : M A := fun st => (st, Ok (f st)).

(** Constants of the script. *)
Definition dq : jsstring := [34].          (* a double quote *)
Definition nl : jsstring := [10].          (* \n *)
Definition bt : jsstring := [96].          (* a backtick *)
Definition expireDateFile : jsstring := utf16 "expire.txt".
Definition maxCaptchaTries : nat := 3.
Definition login_url : jsstring :=
  utf16 "https://secure.xserver.ne.jp/xapanel/login/xserver/".
Definition panel_url : jsstring :=
  utf16 "https://secure.xserver.ne.jp/xapanel/xvps/index".
Definition sel_captcha_input : jsstring :=
  utf16 "[placeholder=" ++ dq ++ utf16 "上の画像的数字を入力" ++ dq ++ utf16 "]".
Definition sel_continue : jsstring := utf16 "text=無料VPSの利用を継続する".
Definition too_early_marker : jsstring :=
  utf16 "利用期限の1日前から更新手続きが可能です".
Definition captcha_fatal : jsstring := utf16 "验证码识别失败：尝试多次未成功".
Definition date_missing_fatal : jsstring :=
  utf16 "无法找到 VPS 到期日。续期后未能定位到期日，脚本可能需要更新。".

(** [/\d{4}年\d{1,2}月\d{1,2}日/] *)
Definition re_date_plain : re :=
  Cat (Rep 4 4 Digit) (Cat (Atom (Char c_nian))
  (Cat (Rep 1 2 Digit) (Cat (Atom (Char c_yue))
  (Cat (Rep 1 2 Digit) (Atom (Char c_ri)))))).

(** [/(\d{4}年\d{1,2}月\d{1,2}日)以降にお試しください/] *)
Definition re_available_from : re :=
  Cat (Grp re_date_plain) (Str (utf16 "以降にお試しください")).

(** The loop of getExpirationDate over the label/value pairs
    (main.mjs 118-125). *)
Fixpoint find_expiration (thTdList : list (jsstring * jsstring)) : jsstring :=
  match thTdList with
  | [] => []
  | (th, td) :: rest =>
    if str_eqb th (utf16 "利用期限") then
      let tdStr := remove_spaces td in
      match re_match re_date_plain tdStr with
      | Some (m0, _) => m0
      | None => td
      end
    else find_expiration rest
  end.

(** The four messages (main.mjs 279, 301-306, 311, 321). *)
Definition notYetMessage (renewAvailableDate currentExpireDate time : jsstring)
    : jsstring :=
  utf16 "🗓️ 未到续费时间" ++ nl ++ nl ++ utf16 "网站提示需要到期前一天才能操作。" ++ nl
  ++ utf16 "可续期日期: " ++ bt ++ or_else renewAvailableDate s_unknown ++ bt ++ nl
  ++ utf16 "当前到期日: " ++ bt ++ or_else currentExpireDate s_unknown ++ bt
  ++ nl ++ nl ++ utf16 "北京时间: " ++ time.

Definition successMessage (newExpireDate nextRenewDate time : jsstring)
    : jsstring :=
  utf16 "🎉 VPS 续费成功！" ++ nl ++ nl
  ++ utf16 "- 新到期日: " ++ bt ++ or_else newExpireDate (utf16 "无") ++ bt ++ nl
  ++ utf16 "- 下次可续期日期: " ++ bt ++ nextRenewDate ++ bt ++ nl ++ nl
  ++ utf16 "北京时间: " ++ time.

Definition failMessage (newExpireDate time : jsstring) : jsstring :=
  utf16 "⚠️ VPS 续费失败或未执行！" ++ nl ++ nl
  ++ utf16 "到期日未发生变化，当前仍为: " ++ bt ++ newExpireDate ++ bt ++ nl
  ++ utf16 "请检查录屏或日志确认续期流程是否正常。" ++ nl ++ nl
  ++ utf16 "北京时间: " ++ time.

Definition errorMessage (message time : jsstring) : jsstring :=
  utf16 "🚨 **VPS 续期脚本执行出错** 🚨" ++ nl ++ nl
  ++ utf16 "错误信息: " ++ bt ++ message ++ bt ++ nl ++ nl
  ++ utf16 "北京时间: " ++ time.

(** The three-way test of main.mjs 300-316 on the persisted value and the
    freshly read, formatted date. *)
Inductive Classification : Type := CSuccess | CUnchanged | CFatal.

Definition classify (lastExpireDate newExpireDate : jsstring) : Classification :=
  if truthy newExpireDate
     && negb (str_eqb newExpireDate (formatChineseDate lastExpireDate))
  then CSuccess
  else if truthy newExpireDate then CUnchanged
  else CFatal.

(** The same test in the earlier version of the script, which compares the
    raw strings (161-172 there). *)
Module Legacy.
Definition classify (lastExpireDate newExpireDate : jsstring) : Classification :=
  if truthy newExpireDate && negb (str_eqb newExpireDate lastExpireDate)
  then CSuccess
  else if truthy newExpireDate then CUnchanged
  else CFatal.
End Legacy.

(** How a run ends: the branch of the workflow that set [infoMessage], or
    the [catch] block. *)
Inductive Outcome : Type := Success | Unchanged | NotYetEligible | Error.

(** Exit of one iteration of the CAPTCHA loop: [break] (always with
    [solved = true]) or on to the next iteration. *)
Inductive Ctl : Type := Break | Continue.

Record Run : Type := {
  final : State;
  outcome : Outcome;
  (** [Throw] when the [finally] block itself was cut short by a rejected
      request. *)
  completion : result unit
}.

(** Module-level initialisation (main.mjs 168-171), for the files found on
    disk.  The launch of the browser, the proxy settings and the start of
    the recording (140-166) come before the [try] statement; a run of the
    model starts where browser, page and recorder are at hand. *)
Definition initial (files : gmap jsstring jsstring) : State :=
  {| fs := files; trace := []; now := 0%nat;
     lastExpireDate := []; infoMessage := []; scriptErrorMessage := [] |}.

(** [s.replace(/\/$/, '')] *)
Definition strip_trailing_slash (s : jsstring) : jsstring :=
  match rev s with
  | 47 :: r => rev r
  | _ => s
  end.

(** [s.replace(/[\s:]/g, '-')] *)
Definition dash_separators (s : jsstring) : jsstring :=
  map (fun c => if is_space c || (c =? 58) then 45 else c) s.

Section Script.
Variable env : Env.

(** An awaited request to a collaborator. *)
Definition call {A} (e : Event) (answer : nat -> A) : M A := fun st =>
  match rejects env (now st) e with
  | Some message => (tick_event e st, Throw message)
  | None => (tick_event e st, Ok (answer (now st)))
  end.

Definition call_ (e : Event) : M unit := call e (fun _ => tt).

(** [await setTimeout(ms)] never rejects. *)
Definition sleep (ms : Z) : M unit := fun st => (tick_event (Sleep ms) st, Ok tt).

Definition getBeijingTimeString : M jsstring := fun st =>
  (tick st, Ok (beijing_time env (now st))).

(** [await Promise.all([e1, e2])]: both requests are made, a rejection
    of either rejects the whole. *)
Definition all2 (e1 e2 : Event) : M unit := fun st =>
  let st' := tick_event e2 (tick_event e1 st) in
  match rejects env (now st) e1, rejects env (S (now st)) e2 with
  | Some message, _ => (st', Throw message)
  | None, Some message => (st', Throw message)
  | None, None => (st', Ok tt)
  end.

(** main.mjs 32-56. *)
Definition sendTelegramMessage (message : jsstring) : M unit :=
  if negb (truthy (TG_BOT_TOKEN env)) || negb (truthy (TG_CHAT_ID env))
  then ret tt
  else
    _ <- try_ (call_ (TelegramPost message));;
    ret tt.

(** main.mjs 62-95.  The status line stands for
    [`${res.status} ${res.statusText}`]. *)
Definition uploadToWebDAV (localFile remoteFile : jsstring) : M jsstring :=
  if negb (truthy (WEBDAV_URL env)) || negb (truthy (WEBDAV_USERNAME env))
     || negb (truthy (WEBDAV_PASSWORD env))
  then ret []
  else
    let remoteDir := strip_trailing_slash (WEBDAV_SAVE_PATH env) in
    let fullRemotePath :=
      if truthy remoteDir then remoteDir ++ utf16 "/" ++ remoteFile
      else remoteFile in
    let url := strip_trailing_slash (WEBDAV_URL env) ++ utf16 "/" ++ fullRemotePath in
    r <- try_ (
           res <- call (WebdavPut url)
                    (fun t => (response_ok env t, response_status env t));;
           if fst res
           then ret (utf16 "✅ 录屏已成功上传到 WebDAV。" ++ nl ++ utf16 "路径: "
                     ++ bt ++ fullRemotePath ++ bt)
           else throw (utf16 "Upload failed: " ++ snd res));;
    match r with
    | Ok message => ret message
    | Throw message => ret (utf16 "❌ WebDAV 上传失败: " ++ bt ++ message ++ bt)
    end.

(** main.mjs 100-130. *)
Definition getExpirationDate : M jsstring :=
  r <- try_ (call ReadThTd (th_td env));;
  match r with
  | Ok thTdList => ret (find_expiration thTdList)
  | Throw _ => ret []
  end.

(** *** The CAPTCHA loop (main.mjs 207-268) *)

(** [await captchaImg.screenshot({ path })]: when the request is not
    rejected, the image has been written to [path]. *)
Definition screenshot (path : jsstring) : M unit :=
  data <- call (Screenshot path) (screenshot_png env);;
  writeFileSync path data.

(** 229-230 and 235-236: screenshot of the failed attempt, [continue]. *)
Definition failed_attempt (attempt : nat) : M Ctl :=
  screenshot (utf16 "captcha_failed_" ++ String_ (Z.of_nat attempt) ++ utf16 ".png");;
  ret Continue.

(** 251-254: [Promise.allSettled] of the wait for navigation and the
    click; it never rejects, [nav.status] says whether the wait
    succeeded. *)
Definition settle_submit : M bool := fun st =>
  (tick_event (Click sel_continue) (tick_event WaitForNavigation st),
   Ok (match rejects env (now st) WaitForNavigation with
       | None => true
       | Some _ => false
       end)).

(** 239-263: fill the code in, submit, reload when no navigation came. *)
Definition submit_code (code : jsstring) : M Ctl :=
  call_ (Fill sel_captcha_input code);;
  call_ InjectAutoSubmit;;
  fulfilled <- settle_submit;;
  if fulfilled then ret Break
  else call_ Reload;; ret Continue.

(** 227-239: what follows the recognition request, for its outcome. *)
Definition after_recognition (attempt : nat) (r : result jsstring) : M Ctl :=
  match r with
  | Throw _ => failed_attempt attempt
  | Ok code =>
    if negb (truthy code) || (length code <? 4)%nat
    then failed_attempt attempt
    else submit_code code
  end.

(** 212-263: one iteration. *)
Definition captcha_attempt (attempt : nat) : M Ctl :=
  captchaImg <- call QueryCaptchaImg (captcha_img env);;
  match captchaImg with
  | None =>
    html <- call ReadContent (content env);;
    writeFileSync (utf16 "no_captcha.html") html;;
    ret Break
  | Some src =>
    base64 <- call ReadImgSrc (fun _ => src);;
    r <- try_ (call (Recognize base64) (recognized env));;
    after_recognition attempt r
  end.

(** [for (let attempt = ...; attempt <= maxCaptchaTries; attempt++)] with
    [remaining] iterations left; the result is [solved]. *)
Fixpoint captcha_loop (remaining attempt : nat) : M bool :=
  match remaining with
  | O => ret false
  | S n =>
    c <- captcha_attempt attempt;;
    match c with
    | Break => ret true
    | Continue => captcha_loop n (S attempt)
    end
  end.

(** 208-268. *)
Definition solve_captcha : M unit :=
  solved <- captcha_loop maxCaptchaTries 1;;
  if solved then ret tt else throw captcha_fatal.

(** *** The workflow inside [try] (main.mjs 174-317) *)

(** 174-176: the persisted date, when expire.txt exists. *)
Definition read_persisted : M unit :=
  files <- get fs;;
  match files !! expireDateFile with
  | Some data => set_lastExpireDate (trim data)
  | None => ret tt
  end.

(** 178-205: log in, open the contract page, read the current
    expiration date, start the renewal. *)
Definition open_renewal : M jsstring :=
  call_ (Goto login_url);;
  call_ (Fill (utf16 "#memberid") (EMAIL env));;
  call_ (Fill (utf16 "#user_password") (PASSWORD env));;
  all2 WaitForNavigation (Click (utf16 "text=ログインする"));;
  call_ (Goto panel_url);;
  call_ (Click (utf16 ".contract__menuIcon"));;
  call_ (Click (utf16 "text=契約情報"));;
  call_ WaitForNavigation;;
  call_ (WaitForSelector (utf16 "th"));;
  sleep 5000;;
  currentExpireDateRaw <- getExpirationDate;;
  call_ (Click (utf16 "text=更新する"));;
  sleep 3000;;
  call_ (Click (utf16 "text=引き続き無料VPSの利用を継続する"));;
  call_ WaitForNavigation;;
  ret (formatChineseDate currentExpireDateRaw).

(** 275-281. *)
Definition not_yet_eligible (bodyText currentExpireDate : jsstring) : M Outcome :=
  let renewAvailableDate :=
    match re_match re_available_from bodyText with
    | Some (_, m) => formatChineseDate (group 1 m)
    | None => []
    end in
  time <- getBeijingTimeString;;
  set_infoMessage (notYetMessage renewAvailableDate currentExpireDate time);;
  ret NotYetEligible.

(** 300-316. *)
Definition record_outcome (newExpireDate : jsstring) : M Outcome :=
  let nextRenewDate := getNextRenewAvailableDate (zone env) newExpireDate in
  last <- get lastExpireDate;;
  match classify last newExpireDate with
  | CSuccess =>
    time <- getBeijingTimeString;;
    set_infoMessage (successMessage newExpireDate nextRenewDate time);;
    writeFileSync expireDateFile newExpireDate;;
    ret Success
  | CUnchanged =>
    time <- getBeijingTimeString;;
    set_infoMessage (failMessage newExpireDate time);;
    ret Unchanged
  | CFatal => throw date_missing_fatal
  end.

(** 283-316. *)
Definition confirm_renewal : M Outcome :=
  call_ (Click sel_continue);;
  call_ WaitForNavigation;;
  call_ (Goto panel_url);;
  call_ (Click (utf16 ".contract__menuIcon"));;
  call_ (Click (utf16 "text=契約情報"));;
  call_ WaitForNavigation;;
  call_ (WaitForSelector (utf16 "th"));;
  sleep 3000;;
  newExpireDateRaw <- getExpirationDate;;
  record_outcome (formatChineseDate newExpireDateRaw).

(** 270-317. *)
Definition after_captcha (currentExpireDate : jsstring) : M Outcome :=
  bodyText <- call ReadBodyText (body_text env);;
  if includes bodyText too_early_marker
  then not_yet_eligible bodyText currentExpireDate
  else confirm_renewal.

Definition workflow : M Outcome :=
  read_persisted;;
  currentExpireDate <- open_renewal;;
  solve_captcha;;
  after_captcha currentExpireDate.

(** 319-321. *)
Definition catch_block (message : jsstring) : M Outcome :=
  time <- getBeijingTimeString;;
  set_scriptErrorMessage (errorMessage message time);;
  ret Error.

(** 338-350. *)
Definition finalNotification (scriptErrorMessage infoMessage webdavMessage : jsstring)
    : jsstring :=
  let with_upload (m : jsstring) :=
    if truthy webdavMessage
    then m ++ nl ++ nl ++ utf16 "---" ++ nl ++ webdavMessage
    else m in
  if truthy scriptErrorMessage then with_upload scriptErrorMessage
  else if truthy infoMessage then with_upload infoMessage
  else if truthy webdavMessage then webdavMessage
  else [].

(** [fs.existsSync(recordingPath)]: the recording is the recorder's
    file, not one of the script's. *)
Definition recording_on_disk : M bool := fun st =>
  (tick st, Ok (recording_exists env (now st))).

(** 326-354: close the browser, upload the recording, notify. *)
Definition close_and_notify : M unit :=
  call_ BrowserClose;;
  recorded <- recording_on_disk;;
  webdavMessage <-
    (if recorded : bool then
       time <- getBeijingTimeString;;
       uploadToWebDAV (utf16 "recording.webm")
         (utf16 "vps-renewal_" ++ dash_separators time ++ utf16 ".webm")
     else ret []);;
  err <- get scriptErrorMessage;;
  info <- get infoMessage;;
  let notification := finalNotification err info webdavMessage in
  if truthy notification then sendTelegramMessage notification else ret tt.

(** 322-355: the [finally] block. *)
Definition cleanup : M unit :=
  sleep 5000;;
  call_ RecorderStop;;
  close_and_notify.

(** [try { workflow } catch (e) { ... } finally { cleanup }]. *)
Definition main (st : State) : Run :=
  let (st1, r) := workflow st in
  let (st2, o) :=
    match r with
    | Ok o => (st1, o)
    | Throw message => (fst (catch_block message st1), Error)
    end in
  let (st3, c) := cleanup st2 in
  {| final := st3; outcome := o; completion := c |}.

End Script.

(* ===================================================================== *)
(** ** The calendar, as the specification reads it *)
(* ===================================================================== *)

Module Calendar.
#[local] Open Scope Z_scope.

Definition days_in_month (y m : Z) : Z :=
  match m with
  | 1 | 3 | 5 | 7 | 8 | 10 | 12 => 31
  | 4 | 6 | 9 | 11 => 30
  | 2 => if JSDate.leap y then 29 else 28
  | _ => 0
  end.

Definition valid_date (y m d : Z) : Prop :=
  1 <= m <= 12 /\ 1 <= d <= days_in_month y m.

(** The calendar day immediately before year [y], month [m], day [d]. *)
Definition prev_day (y m d : Z) : Z * Z * Z :=
  if 1 <? d then (y, m, d - 1)
  else if 1 <? m then (y, m - 1, days_in_month y (m - 1))
  else (y - 1, 12, 31).

(** The zero-padded string YYYY年MM月DD日 of a date. *)
Definition chinese_date (y m d : Z) : jsstring :=
  padStart 4 c_zero (String_ y) ++ [c_nian]
  ++ padStart 2 c_zero (String_ m) ++ [c_yue]
  ++ padStart 2 c_zero (String_ d) ++ [c_ri].

(** Checks used to establish, by evaluation over the whole range, how
    four-digit years and months and days print and parse. *)
Definition year_digits_ok (y : Z) : bool :=
  match String_ y with
  | [a; b; c; d] =>
    is_digit a && is_digit b && is_digit c && is_digit d
    && (Number [a; b; c; d] =? y)
  | _ => false
  end.

Definition two_digits_ok (n : Z) : bool :=
  match padStart 2 c_zero (String_ n) with
  | [a; b] => is_digit a && is_digit b && (Number [a; b] =? n)
  | _ => false
  end.

End Calendar.

(* ===================================================================== *)
(** ** Observations on runs *)
(* ===================================================================== *)

(** Kinds of requests. *)
Definition is_recognize (e : Event) : bool :=
  match e with Recognize _ => true | _ => false end.

Definition is_captcha_probe (e : Event) : bool :=
  match e with QueryCaptchaImg => true | _ => false end.

Definition is_captcha_fill (e : Event) : bool :=
  match e with Fill sel _ => str_eqb sel sel_captcha_input | _ => false end.

Definition is_continue_click (e : Event) : bool :=
  match e with Click sel => str_eqb sel sel_continue | _ => false end.

Definition is_recorder_stop (e : Event) : bool :=
  match e with RecorderStop => true | _ => false end.

Definition is_telegram_post (e : Event) : bool :=
  match e with TelegramPost _ => true | _ => false end.

Definition count (p : Event -> bool) (evs : list Event) : nat :=
  length (List.filter p evs).

(** The requests of a computation, appended to the trace, all satisfy [P]. *)
Definition extends (P : Event -> Prop) (st st' : State) : Prop :=
  exists evs, trace st' = trace st ++ evs /\ Forall P evs.

(** expire.txt is as before. *)
Definition file_kept (st st' : State) : Prop :=
  fs st' !! expireDateFile = fs st !! expireDateFile.

(** The variables set from expire.txt and by [catch] are as before. *)
Definition vars_kept (st st' : State) : Prop :=
  lastExpireDate st' = lastExpireDate st
  /\ scriptErrorMessage st' = scriptErrorMessage st.

(** No file has disappeared. *)
Definition grows (st st' : State) : Prop :=
  forall path, is_Some (fs st !! path) -> is_Some (fs st' !! path).

(** A code the CAPTCHA input may be filled with. *)
Definition plausible_fill (e : Event) : Prop :=
  match e with
  | Fill sel code => sel = sel_captcha_input -> code <> [] /\ (4 <= length code)%nat
  | _ => True
  end.

(** Requests that only the CAPTCHA loop makes. *)
Definition outside_captcha (e : Event) : Prop :=
  is_recognize e = false /\ is_captcha_fill e = false /\ is_captcha_probe e = false.

(** Requests that only the [finally] block makes. *)
Definition before_cleanup (e : Event) : Prop :=
  is_recorder_stop e = false /\ is_telegram_post e = false.

(** The persisted last-known expiration date, as the script reads it. *)
Definition persisted (files : gmap jsstring jsstring) : jsstring :=
  match files !! expireDateFile with
  | Some data => trim data
  | None => []
  end.

Definition post {A} (m : M A) (Q : State -> State -> result A -> Prop) : Prop :=
  forall st, Q st (fst (m st)) (snd (m st)).

Definition preserves {A} (R : State -> State -> Prop) (m : M A) : Prop :=
  forall st, R st (fst (m st)).

(** The requests of [m] include at most [n] of kind [p]. *)
Definition at_most {A} (p : Event -> bool) (n : nat) (m : M A) : Prop :=
  forall st, exists evs,
    trace (fst (m st)) = trace st ++ evs /\ (count p evs <= n)%nat.

(** A relation on states that the steps of the script respect: requests
    in [P], writes to files in [W], and, when [V] holds, assignments to
    [lastExpireDate] and [scriptErrorMessage]. *)
Class Frame (R : State -> State -> Prop) (P : Event -> Prop)
    (W : jsstring -> Prop) (V : Prop) : Prop := {
  frame_refl : forall st, R st st;
  frame_trans : forall a b c, R a b -> R b c -> R a c;
  frame_event : forall e st, P e -> R st (tick_event e st);
  frame_tick : forall st, R st (tick st);
  frame_info : forall v st, R st (fst (set_infoMessage v st));
  frame_write : forall path data st, W path -> R st (fst (writeFileSync path data st));
  frame_last : forall v st, V -> R st (fst (set_lastExpireDate v st));
  frame_error : forall v st, V -> R st (fst (set_scriptErrorMessage v st))
}.
#[global] Hint Mode Frame ! - - - : typeclass_instances.

(** expire.txt is as before unless the workflow ends in [Success]. *)
Definition written_only_on_success (st st' : State) (r : result Outcome) : Prop :=
  r <> Ok Success -> file_kept st st'.

(** [Success] and [Unchanged] are verdicts of [classify] on the value of
    [lastExpireDate] and some freshly read date; [Success] leaves that date
    in expire.txt. *)
Definition classified (st st' : State) (r : result Outcome) : Prop :=
  match r with
  | Ok Success =>
    exists fresh, classify (lastExpireDate st) fresh = CSuccess
                  /\ fs st' !! expireDateFile = Some fresh
  | Ok Unchanged => exists fresh, classify (lastExpireDate st) fresh = CUnchanged
  | _ => True
  end.

(* ===================================================================== *)
(** ** Scenarios *)
(* ===================================================================== *)

(** An environment with the chat service configured, no WebDAV store, a
    recording on disk and a fixed clock; the page behaviour is given. *)
Definition scenario
    (rej : nat -> Event -> option jsstring)
    (rows : nat -> list (jsstring * jsstring))
    (img : nat -> option jsstring)
    (code : nat -> jsstring)
    (body : nat -> jsstring) : Env :=
  {| EMAIL := utf16 "user@example.com";
     PASSWORD := utf16 "secret";
     TG_BOT_TOKEN := utf16 "123:abc";
     TG_CHAT_ID := utf16 "42";
     WEBDAV_URL := [];
     WEBDAV_USERNAME := [];
     WEBDAV_PASSWORD := [];
     WEBDAV_SAVE_PATH := [];
     rejects := rej;
     th_td := rows;
     captcha_img := img;
     recognized := code;
     body_text := body;
     content := fun _ => utf16 "<html></html>";
     recording_exists := fun _ => true;
     response_ok := fun _ => true;
     response_status := fun _ => utf16 "201 Created";
     screenshot_png := fun _ => utf16 "PNG";
     zone := JSDate.utc;
     beijing_time := fun _ => utf16 "2025-08-06 09:00" |}.

Definition no_rejection : nat -> Event -> option jsstring := fun _ _ => None.

(** The zone of Pacific/Apia around the end of 2011: ten hours behind UTC
    until the end of 29 December, fourteen hours ahead of it from the start
    of 31 December; 30 December was skipped.  The transition is at
    2011-12-30T10:00:00Z. *)
Definition apia_2011 : JSDate.Zone :=
  {| JSDate.LocalTZA := fun t isUTC =>
       if isUTC : bool
       then if (t <? 1325239200000)%Z then (-36000000)%Z else 50400000%Z
       else if (t <? 1325289600000)%Z then (-36000000)%Z else 50400000%Z |}.

(** The page shows [利用期限: 2025年08月07日], no CAPTCHA, no "too early"
    notice; expire.txt holds 2025-07-07. *)
Definition env_renewed : Env :=
  scenario no_rejection
    (fun _ => [(utf16 "契約状況", utf16 "利用中"); (utf16 "利用期限", utf16 "2025年08月07日")])
    (fun _ => None) (fun _ => []) (fun _ => utf16 "更新手続きが完了しました").

Definition files_0707 : gmap jsstring jsstring :=
  {[ expireDateFile := utf16 "2025-07-07" ]}.

Definition page_rows : list (jsstring * jsstring) :=
  [(utf16 "契約状況", utf16 "利用中"); (utf16 "利用期限", utf16 "2025年09月07日")].

Definition captcha_src : jsstring := utf16 "data:image/jpeg;base64,/9j/4AAQSkZJRg==".

(** A CAPTCHA image is on the page at every probe and the recognition
    service answers the empty string every time. *)
Definition env_unrecognized : Env :=
  scenario no_rejection (fun _ => page_rows) (fun _ => Some captcha_src)
    (fun _ => []) (fun _ => utf16 "画像認証").

(** The page after the renewal was started says that it is too early and
    names the first eligible day. *)
Definition too_early_text : jsstring :=
  too_early_marker ++ utf16 "。2025年09月06日以降にお試しください。".

(** No CAPTCHA, then the "too early" page. *)
Definition env_too_early : Env :=
  scenario no_rejection (fun _ => page_rows) (fun _ => None)
    (fun _ => []) (fun _ => too_early_text).

(** A CAPTCHA image is on the page, the service recognizes 123456, the
    submission navigates, and the page reached says that it is too early. *)
Definition env_too_early_after_captcha : Env :=
  scenario no_rejection (fun _ => page_rows) (fun _ => Some captcha_src)
    (fun _ => utf16 "123456") (fun _ => too_early_text).

(* ===================================================================== *)
(** ** Dates as the page shows them *)
(* ===================================================================== *)

(** A date written without padding, e.g. 2025年8月7日. *)
Definition unpadded_date (y m d : Z) : jsstring :=
  String_ y ++ [c_nian] ++ String_ m ++ [c_yue] ++ String_ d ++ [c_ri].

(** Check, by evaluation over the range, of how a number below 100 prints
    and parses. *)
Definition short_number_ok (n : Z) : bool :=
  match String_ n with
  | [a] => is_digit a && (Number [c_zero; a] =? n)%Z
  | [a; b] => is_digit a && is_digit b && (Number [a; b] =? n)%Z
  | _ => false
  end.

(** The label of the row that holds the expiration date. *)
Definition label_expiration : jsstring := utf16 "利用期限".

(** Whether the chat and the WebDAV store are configured, as
    [sendTelegramMessage] and [uploadToWebDAV] test it. *)
Definition chat_configured (env : Env) : bool :=
  truthy (TG_BOT_TOKEN env) && truthy (TG_CHAT_ID env).

Definition webdav_configured (env : Env) : bool :=
  truthy (WEBDAV_URL env) && truthy (WEBDAV_USERNAME env)
  && truthy (WEBDAV_PASSWORD env).

(** [infoMessage] is as before. *)
Definition info_kept (st st' : State) : Prop := infoMessage st' = infoMessage st.

(** No constraint on the states. *)
Definition anything (st st' : State) : Prop := True.

(** A workflow that returns has set [infoMessage], and it returns one of
    the three outcomes of its branches. *)
Definition message_set (st st' : State) (r : result Outcome) : Prop :=
  match r with
  | Ok o => o <> Error /\ infoMessage st' <> []
  | Throw _ => True
  end.

(** A relation on states that requests and the reading of the clock
    respect. *)
Class Steady (R : State -> State -> Prop) : Prop := {
  steady_refl : forall st, R st st;
  steady_trans : forall a b c, R a b -> R b c -> R a c;
  steady_event : forall e st, R st (tick_event e st);
  steady_tick : forall st, R st (tick st)
}.

(** The files a run may write in [fs]: expire.txt, the page saved when no
    CAPTCHA is found, and the screenshots of failed attempts. *)
Definition written_by_run (path : jsstring) : Prop :=
  path = expireDateFile \/ path = utf16 "no_captcha.html"
  \/ exists attempt : nat,
       path = utf16 "captcha_failed_" ++ String_ (Z.of_nat attempt) ++ utf16 ".png".

(** The other files are as before. *)
Definition others_kept (st st' : State) : Prop :=
  forall path, ~ written_by_run path -> fs st' !! path = fs st !! path.

(** Where a run navigates, what it types and where. *)
Definition expected_input (env : Env) (e : Event) : Prop :=
  match e with
  | Goto url => url = login_url \/ url = panel_url
  | Fill sel text =>
    (sel = utf16 "#memberid" /\ text = EMAIL env)
    \/ (sel = utf16 "#user_password" /\ text = PASSWORD env)
    \/ sel = sel_captcha_input
  | _ => True
  end.

(** The requests of one round of the CAPTCHA loop that ends with the
    screenshot of the failed attempt. *)
Definition failed_round (src : jsstring) (attempt : nat) : list Event :=
  [QueryCaptchaImg; ReadImgSrc; Recognize src;
   Screenshot (utf16 "captcha_failed_" ++ String_ (Z.of_nat attempt) ++ utf16 ".png")].

(** The scenario of a renewal, with a WebDAV store configured with
    trailing slashes. *)
Definition env_webdav : Env :=
  {| EMAIL := EMAIL env_renewed; PASSWORD := PASSWORD env_renewed;
     TG_BOT_TOKEN := TG_BOT_TOKEN env_renewed; TG_CHAT_ID := TG_CHAT_ID env_renewed;
     WEBDAV_URL := utf16 "https://dav.example.com/remote.php/";
     WEBDAV_USERNAME := utf16 "u"; WEBDAV_PASSWORD := utf16 "p";
     WEBDAV_SAVE_PATH := utf16 "vps/";
     rejects := rejects env_renewed; th_td := th_td env_renewed;
     captcha_img := captcha_img env_renewed; recognized := recognized env_renewed;
     body_text := body_text env_renewed; content := content env_renewed;
     recording_exists := recording_exists env_renewed;
     response_ok := response_ok env_renewed;
     response_status := response_status env_renewed;
     beijing_time := beijing_time env_renewed;
     screenshot_png := screenshot_png env_renewed;
     zone := zone env_renewed |}.

(* ===================================================================== *)
(** ** The time shown in messages *)
(* ===================================================================== *)

(** main.mjs 133-136, as a function of [Date.now()] (milliseconds since
    the epoch) and of the offset of the host's time zone (milliseconds,
    taken to be fixed): the fields are read with the getters of local time,
    [getFullYear], [getMonth], [getDate], [getHours] and [getMinutes], from
    a [Date] that is eight hours ahead of the current time. *)
Module Clock.
#[local] Open Scope Z_scope.

Definition msPerDay : Z := 86400000.
Definition msPerHour : Z := 3600000.
Definition msPerMinute : Z := 60000.

Definition Day (t : Z) : Z := t / msPerDay.
Definition HourFromTime (t : Z) : Z := (t / msPerHour) mod 24.
Definition MinFromTime (t : Z) : Z := (t / msPerMinute) mod 60.

(** The local time value of [new Date(Date.now() + 8 * 60 * 60 * 1000)]. *)
Definition shifted_local_time (now tza : Z) : Z := now + 8 * 60 * 60 * 1000 + tza.

Definition two (n : Z) : jsstring := padStart 2 c_zero (String_ n).

Definition getBeijingTimeString (now tza : Z) : jsstring :=
  let t := shifted_local_time now tza in
  String_ (JSDate.getFullYear (Day t)) ++ utf16 "-"
  ++ two (JSDate.getMonth (Day t) + 1) ++ utf16 "-"
  ++ two (JSDate.getDate (Day t)) ++ utf16 " "
  ++ two (HourFromTime t) ++ utf16 ":"
  ++ two (MinFromTime t).

(** The name under which the recording is uploaded (main.mjs 332-333). *)
Definition remoteFileName (now tza : Z) : jsstring :=
  utf16 "vps-renewal_" ++ dash_separators (getBeijingTimeString now tza) ++ utf16 ".webm".

End Clock.

(* ===================================================================== *)
(** ** The earlier version of the script *)
(* ===================================================================== *)

(** src/unnamed/part_000: the workflow before the CAPTCHA loop and the
    formatting of dates were added.  [sendTelegramMessage], [uploadToWebDAV]
    and the composition of the final notification are the same functions
    there (9-33, 39-72, 193-210) and are shared with main.mjs. *)
Module Earlier.

(** [/\d{4}年\d{2}月\d{2}日/] *)
Definition re_date_two : re :=
  Cat (Rep 4 4 Digit) (Cat (Atom (Char c_nian))
  (Cat (Rep 2 2 Digit) (Cat (Atom (Char c_yue))
  (Cat (Rep 2 2 Digit) (Atom (Char c_ri)))))).

(** The function evaluated in the page by getExpirationDate (80-92), over
    the header cells in document order: the text of each and, when it has
    one, the text of the element that follows it. *)
Fixpoint find_expiration (ths : list (jsstring * option jsstring)) : jsstring :=
  match ths with
  | [] => []
  | (th, next) :: rest =>
    if str_eqb (trim th) (utf16 "利用期限") then
      match next with
      | Some td =>
        match re_match re_date_two td with
        | Some (m0, _) => trim m0
        | None => trim td
        end
      | None => find_expiration rest
      end
    else find_expiration rest
  end.

(** [s.replace('_', ' ')]: the first underscore only. *)
Fixpoint space_for_underscore (s : jsstring) : jsstring :=
  match s with
  | [] => []
  | c :: r => if (c =? 95)%N then 32%N :: r else c :: space_for_underscore r
  end.

(** The messages that differ from those of main.mjs (149, 162). *)
Definition notYetMessage (currentExpireDate time : jsstring) : jsstring :=
  utf16 "🗓️ 未到续费时间" ++ nl ++ nl ++ utf16 "网站提示需要到期前一天才能操作。" ++ nl
  ++ utf16 "当前到期日: " ++ bt ++ or_else currentExpireDate (utf16 "无法获取") ++ bt ++ nl
  ++ utf16 "脚本将安全退出。" ++ nl ++ nl ++ utf16 "北京时间: " ++ time.

Definition successMessage (newExpireDate lastExpireDate time : jsstring) : jsstring :=
  utf16 "🎉 VPS 续费成功！" ++ nl ++ nl
  ++ utf16 "- 新到期日: " ++ bt ++ newExpireDate ++ bt ++ nl
  ++ utf16 "- 上次到期日: " ++ bt ++ or_else lastExpireDate (utf16 "首次检测") ++ bt
  ++ nl ++ nl ++ utf16 "北京时间: " ++ time.

Section Script.
Variable env : Env.
(** What the page answers to the evaluation of getExpirationDate. *)
Variable th_next : nat -> list (jsstring * option jsstring).

(** 77-97. *)
Definition getExpirationDate : M jsstring :=
  r <- try_ (call env ReadThTd (fun t => find_expiration (th_next t)));;
  match r with
  | Ok date => ret date
  | Throw _ => ret []
  end.

(** [getBeijingTimeString().replace('_', ' ')] *)
Definition message_time : M jsstring :=
  time <- getBeijingTimeString env;;
  ret (space_for_underscore time).

(** 125-142: log in, open the panel, start the renewal. *)
Definition open_renewal : M unit :=
  call_ env (Goto login_url);;
  call_ env (Fill (utf16 "#memberid") (EMAIL env));;
  call_ env (Fill (utf16 "#user_password") (PASSWORD env));;
  all2 env WaitForNavigation (Click (utf16 "text=ログインする"));;
  call_ env (Goto panel_url);;
  call_ env (Click (utf16 ".contract__menuIcon"));;
  call_ env (Click (utf16 "text=契約情報"));;
  call_ env (Click (utf16 "text=更新する"));;
  call_ env (Click (utf16 "text=引き続き無料VPSの利用を継続する"));;
  call_ env WaitForNavigation.

(** 147-151. *)
Definition not_yet_eligible : M Outcome :=
  currentExpireDate <- getExpirationDate;;
  time <- message_time;;
  set_infoMessage (notYetMessage currentExpireDate time);;
  ret NotYetEligible.

(** 161-172. *)
Definition record_outcome (newExpireDate : jsstring) : M Outcome :=
  last <- get lastExpireDate;;
  match Legacy.classify last newExpireDate with
  | CSuccess =>
    time <- message_time;;
    set_infoMessage (successMessage newExpireDate last time);;
    writeFileSync expireDateFile newExpireDate;;
    ret Success
  | CUnchanged =>
    time <- message_time;;
    set_infoMessage (failMessage newExpireDate time);;
    ret Unchanged
  | CFatal => throw date_missing_fatal
  end.

(** 153-172. *)
Definition confirm_renewal : M Outcome :=
  call_ env (Click sel_continue);;
  call_ env WaitForNavigation;;
  newExpireDate <- getExpirationDate;;
  record_outcome newExpireDate.

(** 121-173. *)
Definition workflow : M Outcome :=
  read_persisted;;
  open_renewal;;
  notYetTimeMessage <-
    call env ReadBodyText (fun t => includes (body_text env t) too_early_marker);;
  if notYetTimeMessage : bool then not_yet_eligible else confirm_renewal.

(** 175-177. *)
Definition catch_block (message : jsstring) : M Outcome :=
  time <- message_time;;
  set_scriptErrorMessage (errorMessage message time);;
  ret Error.

(** 182-210. *)
Definition close_and_notify : M unit :=
  call_ env BrowserClose;;
  recorded <- recording_on_disk env;;
  webdavMessage <-
    (if recorded : bool then
       timestamp <- getBeijingTimeString env;;
       uploadToWebDAV env (utf16 "recording.webm")
         (utf16 "vps-renewal_" ++ timestamp ++ utf16 ".webm")
     else ret []);;
  err <- get scriptErrorMessage;;
  info <- get infoMessage;;
  let notification := finalNotification err info webdavMessage in
  if truthy notification then sendTelegramMessage env notification else ret tt.

(** 178-211. *)
Definition cleanup : M unit :=
  sleep 5000;;
  call_ env RecorderStop;;
  close_and_notify.

(** [try { workflow } catch (e) { ... } finally { cleanup }]. *)
Definition main (st : State) : Run :=
  let (st1, r) := workflow st in
  let (st2, o) :=
    match r with
    | Ok o => (st1, o)
    | Throw message => (fst (catch_block message st1), Error)
    end in
  let (st3, c) := cleanup st2 in
  {| final := st3; outcome := o; completion := c |}.

End Script.
End Earlier.

(** The final confirmation is clicked only on the branch that does not end
    as not yet eligible. *)
Definition unconfirmed (st st' : State) (r : result Outcome) : Prop :=
  r = Ok NotYetEligible -> extends (fun e => is_continue_click e = false) st st'.

(** In the earlier script [Success] and [Unchanged] are verdicts of the
    comparison of the raw strings. *)
Definition earlier_classified (st st' : State) (r : result Outcome) : Prop :=
  match r with
  | Ok Success =>
    exists fresh, Legacy.classify (lastExpireDate st) fresh = CSuccess
                  /\ fs st' !! expireDateFile = Some fresh
  | Ok Unchanged =>
    exists fresh, Legacy.classify (lastExpireDate st) fresh = CUnchanged
  | _ => True
  end.

(** A page whose expiration date follows its label, and nothing else. *)
Definition th_next_0907 : nat -> list (jsstring * option jsstring) :=
  fun _ => [(utf16 "利用期限", Some (utf16 "2025年09月07日"))].

(** A page without header cells. *)
Definition th_next_none : nat -> list (jsstring * option jsstring) := fun _ => [].

(** Neither of the two verdicts of the comparison. *)
Definition not_a_verdict (st st' : State) (r : result Outcome) : Prop :=
  r <> Ok Success /\ r <> Ok Unchanged.

(* ===================================================================== *)
(** ** The path through the final confirmation *)
(* ===================================================================== *)

(** The requests between the marker check and the reading of the new
    date (main.mjs 284-292). *)
Definition confirm_requests : list Event :=
  [Click sel_continue; WaitForNavigation; Goto panel_url;
   Click (utf16 ".contract__menuIcon"); Click (utf16 "text=契約情報");
   WaitForNavigation; WaitForSelector (utf16 "th")].

(** None of the requests, made one after the other from time [t] on, is
    rejected. *)
Fixpoint accepted (env : Env) (t : nat) (requests : list Event) : Prop :=
  match requests with
  | [] => True
  | e :: rest => rejects env t e = None /\ accepted env (S t) rest
  end.

Definition after_requests (requests : list Event) (st : State) : State :=
  fold_left (fun s e => tick_event e s) requests st.

(** The state in which the date is read after the confirmation, for the
    state in which the confirmation is clicked. *)
Definition before_final_read (st : State) : State :=
  tick_event (Sleep 3000) (after_requests confirm_requests st).

(** What [getExpirationDate] returns when it is called in state [st]. *)
Definition date_read (env : Env) (st : State) : jsstring :=
  match rejects env (now st) ReadThTd with
  | Some _ => []
  | None => find_expiration (th_td env (now st))
  end.

(** The renewal is confirmed and the page then shows no expiration date;
    expire.txt holds 2025-07-07. *)
Definition env_no_date : Env :=
  scenario no_rejection (fun _ => []) (fun _ => None) (fun _ => [])
    (fun _ => utf16 "更新手続きが完了しました").

(** The requests of the [finally] block. *)
Definition is_cleanup_request (e : Event) : bool :=
  match e with
  | Sleep _ | RecorderStop | BrowserClose | WebdavPut _ | TelegramPost _ => true
  | _ => false
  end.

(** No CAPTCHA image is on the page, and the reading of the page content
    for no_captcha.html is rejected. *)
Definition content_rejected : nat -> Event -> option jsstring :=
  fun _ e =>
    match e with
    | ReadContent => Some (utf16 "Execution context was destroyed")
    | _ => None
    end.

Definition env_content_rejected : Env :=
  scenario content_rejected (fun _ => page_rows) (fun _ => None) (fun _ => [])
    (fun _ => utf16 "更新手続きが完了しました").

(** 331-335: the upload of the recording when it is on disk, with the
    status it returns, the empty string otherwise. *)
Definition upload_recording (env : Env) : M jsstring :=
  recorded <- recording_on_disk env;;
  if recorded : bool then
    time <- getBeijingTimeString env;;
    uploadToWebDAV env (utf16 "recording.webm")
      (utf16 "vps-renewal_" ++ dash_separators time ++ utf16 ".webm")
  else ret [].

(* ===================================================================== *)
(** * Properties *)
(* ===================================================================== *)

(** ** Strings and patterns *)

Lemma truthy_nonempty (s : jsstring) : truthy s = true <-> s <> [].
Proof. destruct s; cbn; split; intros; congruence. Qed.

Lemma str_eqb_eq (a b : jsstring) : str_eqb a b = true <-> a = b.
Proof. unfold str_eqb. apply bool_decide_eq_true. Qed.

Lemma str_eqb_neq (a b : jsstring) : str_eqb a b = false <-> a <> b.
Proof. unfold str_eqb. apply bool_decide_eq_false. Qed.

Lemma padStart_full n c (s : jsstring) : (n <= length s)%nat -> padStart n c s = s.
Proof.
  intros H. unfold padStart. replace (n - length s)%nat with 0%nat by lia. reflexivity.
Qed.

Lemma is_digit_zero : is_digit c_zero = true.
Proof. reflexivity. Qed.

(** Reduction of the matcher on an input whose head is known, and case
    analysis on the next code unit where it is not. *)
Ltac exec_simpl := cbn [exec rep_req rep_opt in_cls Nat.sub].

Ltac exec_simpl_in H := cbn [exec rep_req rep_opt in_cls Nat.sub] in H.

Ltac step_match H :=
  match type of H with
  | context [match ?s with [] => _ | _ :: _ => _ end] => is_var s; destruct s
  | context [if is_digit ?c then _ else _] => destruct (is_digit c) eqn:?
  | context [if (?a =? ?b) then _ else _] => destruct (N.eqb_spec a b)
  end.

Ltac no_digit_separator :=
  try match goal with
      | E : is_digit ?c = true |- _ =>
          first [ unify c c_nian | unify c c_yue | unify c c_ri ];
          vm_compute in E; discriminate E
      end.

Ltac invert_match H :=
  exec_simpl_in H;
  repeat (step_match H; exec_simpl_in H; try discriminate H);
  subst; no_digit_separator;
  cbn in H; injection H as <- <-;
  rewrite ?Nat.sub_succ_l, ?Nat.sub_diag by lia; cbn [take]; rewrite ?take_0.

Ltac run_match :=
  repeat (exec_simpl;
          repeat match goal with
                 | E : is_digit ?c = true |- context [is_digit ?c] => rewrite E
                 end;
          rewrite ?N.eqb_refl);
  cbn [length app Nat.sub];
  rewrite ?Nat.sub_succ_l, ?Nat.sub_diag by lia; cbn [take]; rewrite ?take_0.

(** A match of the date pattern of [formatChineseDate] has three groups:
    four digits, then one or two, then one or two. *)
Lemma match_at_loose_shape s m0 caps :
  match_at re_date_loose s = Some (m0, caps) ->
  exists y mo d,
    caps = [y; mo; d]
    /\ length y = 4%nat /\ is_digits y
    /\ (length mo = 1 \/ length mo = 2)%nat /\ is_digits mo
    /\ (length d = 1 \/ length d = 2)%nat /\ is_digits d.
Proof.
  unfold match_at, re_date_loose, is_digits. intros H.
  invert_match H.
  all: do 3 eexists; repeat split; try reflexivity; eauto 10.
  all: repeat constructor; assumption.
Qed.

Lemma re_match_loose_shape s m0 caps :
  re_match re_date_loose s = Some (m0, caps) ->
  exists y mo d,
    caps = [y; mo; d]
    /\ length y = 4%nat /\ is_digits y
    /\ (length mo = 1 \/ length mo = 2)%nat /\ is_digits mo
    /\ (length d = 1 \/ length d = 2)%nat /\ is_digits d.
Proof.
  induction s as [|c s IH]; cbn [re_match];
    destruct (match_at re_date_loose _) as [[m1 caps1]|] eqn:E; intros H.
  - injection H as <- <-. eapply match_at_loose_shape; eassumption.
  - discriminate H.
  - injection H as <- <-. eapply match_at_loose_shape; eassumption.
  - auto.
Qed.

(** A zero-padded date matches the pattern at its first code unit. *)
Lemma match_at_loose_padded a b c d e f g h rest :
  is_digit a = true -> is_digit b = true -> is_digit c = true ->
  is_digit d = true -> is_digit e = true -> is_digit f = true ->
  is_digit g = true -> is_digit h = true ->
  match_at re_date_loose
    (a :: b :: c :: d :: c_nian :: e :: f :: c_yue :: g :: h :: c_ri :: rest)
  = Some ([a; b; c; d; c_nian; e; f; c_yue; g; h; c_ri],
          [[a; b; c; d]; [e; f]; [g; h]]).
Proof.
  intros. unfold match_at, re_date_loose. run_match. reflexivity.
Qed.

Lemma match_at_padded_padded a b c d e f g h rest :
  is_digit a = true -> is_digit b = true -> is_digit c = true ->
  is_digit d = true -> is_digit e = true -> is_digit f = true ->
  is_digit g = true -> is_digit h = true ->
  match_at re_date_padded
    (a :: b :: c :: d :: c_nian :: e :: f :: c_yue :: g :: h :: c_ri :: rest)
  = Some ([a; b; c; d; c_nian; e; f; c_yue; g; h; c_ri],
          [[a; b; c; d]; [e; f]; [g; h]]).
Proof.
  intros. unfold match_at, re_date_padded. run_match. reflexivity.
Qed.

(** ** Normalisation *)

Lemma formatChineseDate_matched d m0 caps :
  re_match re_date_loose d = Some (m0, caps) ->
  exists a b c e f g h i,
    formatChineseDate d = [a; b; c; e; c_nian; f; g; c_yue; h; i; c_ri]
    /\ is_digit a = true /\ is_digit b = true /\ is_digit c = true
    /\ is_digit e = true /\ is_digit f = true /\ is_digit g = true
    /\ is_digit h = true /\ is_digit i = true.
Proof.
  intros H. unfold formatChineseDate. rewrite H.
  destruct (re_match_loose_shape _ _ _ H)
    as (y & mo & dd & -> & Ly & Dy & Lmo & Dmo & Ld & Dd).
  cbn [group Nat.sub nth].
  destruct y as [|a [|b [|c [|e [|? ?]]]]]; try discriminate Ly.
  unfold is_digits in *.
  repeat match goal with
         | H : Forall _ (_ :: _) |- _ => apply Forall_cons_1 in H; destruct H
         end.
  destruct Lmo as [Lmo|Lmo]; destruct Ld as [Ld|Ld];
    destruct mo as [|f [|g [|? ?]]]; try discriminate Lmo;
    destruct dd as [|h [|i [|? ?]]]; try discriminate Ld;
    repeat match goal with
           | H : Forall _ (_ :: _) |- _ => apply Forall_cons_1 in H; destruct H
           end;
    cbn; do 8 eexists; (split; [reflexivity|]); auto 10 using is_digit_zero.
Qed.

Lemma formatChineseDate_fixed a b c e f g h i :
  is_digit a = true -> is_digit b = true -> is_digit c = true ->
  is_digit e = true -> is_digit f = true -> is_digit g = true ->
  is_digit h = true -> is_digit i = true ->
  formatChineseDate [a; b; c; e; c_nian; f; g; c_yue; h; i; c_ri]
  = [a; b; c; e; c_nian; f; g; c_yue; h; i; c_ri].
Proof.
  intros. unfold formatChineseDate. cbn [re_match].
  rewrite match_at_loose_padded by assumption. reflexivity.
Qed.

Lemma formatChineseDate_unmatched d :
  re_match re_date_loose d = None -> formatChineseDate d = or_else d s_unknown.
Proof. intros H. unfold formatChineseDate. rewrite H. reflexivity. Qed.

(** The formatted date is never the empty string. *)
Lemma formatChineseDate_nonempty d : formatChineseDate d <> [].
Proof.
  destruct (re_match re_date_loose d) as [[m0 caps]|] eqn:E.
  - destruct (formatChineseDate_matched _ _ _ E) as (a&b&c&e&f&g&h&i&->&_). discriminate.
  - rewrite (formatChineseDate_unmatched d E).
    destruct d; cbn; discriminate.
Qed.

(** Formatting is idempotent on every string, matching or not. *)
Lemma formatChineseDate_twice_any d :
  formatChineseDate (formatChineseDate d) = formatChineseDate d.
Proof.
  destruct (re_match re_date_loose d) as [[m0 caps]|] eqn:E.
  - destruct (formatChineseDate_matched _ _ _ E)
      as (a&b&c&e&f&g&h&i&->&?&?&?&?&?&?&?&?).
    now apply formatChineseDate_fixed.
  - rewrite (formatChineseDate_unmatched d E).
    destruct d as [|x d'].
    + vm_compute. reflexivity.
    + change (or_else (x :: d') s_unknown) with (x :: d').
      now rewrite (formatChineseDate_unmatched _ E).
Qed.

(** C7. For every date string in which the year/month/day pattern of
    [formatChineseDate] occurs, formatting twice gives the same string as
    formatting once. *)
Theorem formatChineseDate_idempotent (d : jsstring) :
  is_Some (re_match re_date_loose d) ->
  formatChineseDate (formatChineseDate d) = formatChineseDate d.
Proof.
  intros [[m0 caps] E].
  destruct (formatChineseDate_matched _ _ _ E)
    as (a&b&c&e&f&g&h&i&->&?&?&?&?&?&?&?&?).
  now apply formatChineseDate_fixed.
Qed.

Lemma formatChineseDate_idempotent_witness :
  is_Some (re_match re_date_loose (utf16 "2025年7月7日"))
  /\ formatChineseDate (formatChineseDate (utf16 "2025年7月7日"))
     = formatChineseDate (utf16 "2025年7月7日").
Proof.
  assert (H : is_Some (re_match re_date_loose (utf16 "2025年7月7日")))
    by (vm_compute; eauto).
  split; [exact H | exact (formatChineseDate_idempotent _ H)].
Defined.


(** ** Calendar arithmetic of [Date] *)

Section DateArithmetic.
Import JSDate Calendar.
#[local] Open Scope Z_scope.

Ltac zdiv := Z.div_mod_to_equations; lia.

Lemma DayFromYear_bounds y :
  146097 * (y - 1970) - 700 <= 400 * DayFromYear y <= 146097 * (y - 1970) + 700.
Proof. unfold DayFromYear. zdiv. Qed.

(** [YearFromDay] is the largest year that starts on or before the day. *)
Lemma YearFromDay_spec day :
  DayFromYear (YearFromDay day) <= day < DayFromYear (YearFromDay day + 1).
Proof.
  unfold YearFromDay.
  set (y0 := 1970 + 400 * day / 146097).
  pose proof (DayFromYear_bounds (y0 - 1)).
  pose proof (DayFromYear_bounds (y0 + 1 + 1)).
  assert (146097 * (y0 - 1970) <= 400 * day < 146097 * (y0 - 1970) + 146097)
    by (subst y0; zdiv).
  destruct (Z.ltb_spec day (DayFromYear y0)).
  - replace (y0 - 1 + 1) with y0 by lia. lia.
  - destruct (Z.leb_spec (DayFromYear (y0 + 1)) day); lia.
Qed.

Lemma DayFromYear_mono a b : a <= b -> DayFromYear a <= DayFromYear b.
Proof. unfold DayFromYear. zdiv. Qed.

Lemma DayFromYear_succ y : DayFromYear (y + 1) = DayFromYear y + DaysInYear y.
Proof.
  unfold DayFromYear, DaysInYear, leap.
  repeat match goal with
         | |- context [(?a =? ?b)] => destruct (Z.eqb_spec a b)
         end; cbn [andb orb negb]; zdiv.
Qed.

Lemma YearFromDay_unique y day :
  DayFromYear y <= day < DayFromYear (y + 1) -> YearFromDay day = y.
Proof.
  intros H. pose proof (YearFromDay_spec day) as S.
  destruct (Z.lt_trichotomy (YearFromDay day) y) as [L|[E|G]]; [|exact E|].
  - pose proof (DayFromYear_mono (YearFromDay day + 1) y). lia.
  - pose proof (DayFromYear_mono (y + 1) (YearFromDay day)). lia.
Qed.

Lemma month_cases m : 1 <= m <= 12 ->
  m = 1 \/ m = 2 \/ m = 3 \/ m = 4 \/ m = 5 \/ m = 6 \/ m = 7 \/ m = 8
  \/ m = 9 \/ m = 10 \/ m = 11 \/ m = 12.
Proof. lia. Qed.

(** Evaluation of the closed arithmetic left by a case analysis on the
    month. *)
Ltac eval_closed t :=
  let v := eval vm_compute in t in change t with v in *.

Ltac month_arith :=
  repeat match goal with
         | |- context [Z.pos ?a - Z.pos ?b] => eval_closed (Z.pos a - Z.pos b)
         | |- context [Z.pos ?a / 12] => eval_closed (Z.pos a / 12)
         | |- context [0 / 12] => eval_closed (0 / 12)
         | |- context [Z.pos ?a mod 12] => eval_closed (Z.pos a mod 12)
         | |- context [0 mod 12] => eval_closed (0 mod 12)
         end;
  cbn [days_before_month days_in_month] in *.

Ltac each_month H :=
  destruct (month_cases _ H) as
    [->|[->|[->|[->|[->|[->|[->|[->|[->|[->|[->| ->]]]]]]]]]]];
  month_arith.

Lemma MakeDay_valid y m d :
  valid_date y m d ->
  MakeDay y (m - 1) d = DayFromYear y + days_before_month (leap y) (m - 1) + d - 1
  /\ 0 <= days_before_month (leap y) (m - 1) + d - 1 < DaysInYear y.
Proof.
  intros [Hm Hd]. unfold MakeDay, DaysInYear.
  each_month Hm; rewrite ?Z.add_0_r; destruct (leap y); lia.
Qed.

(** Reading back the fields of a valid date. *)
Lemma Date_fields y m d :
  valid_date y m d ->
  let t := MakeDay y (m - 1) d in
  YearFromDay t = y /\ MonthFromDay t = m - 1 /\ DateFromDay t = d.
Proof.
  intros V. destruct (MakeDay_valid y m d V) as [E B]. cbn zeta.
  assert (Y : YearFromDay (MakeDay y (m - 1) d) = y).
  { apply YearFromDay_unique. rewrite DayFromYear_succ. lia. }
  assert (W : DayWithinYear (MakeDay y (m - 1) d)
              = days_before_month (leap y) (m - 1) + d - 1).
  { unfold DayWithinYear. rewrite Y. lia. }
  assert (M : MonthFromDay (MakeDay y (m - 1) d) = m - 1).
  { unfold MonthFromDay, InLeapYear. rewrite W, Y.
    destruct V as [Hm Hd]. clear E B W Y.
    each_month Hm; destruct (leap y);
      repeat match goal with
             | |- context [if ?a <? ?b then _ else _] => destruct (Z.ltb_spec a b)
             end; lia. }
  split; [exact Y|]. split; [exact M|].
  unfold DateFromDay, InLeapYear. rewrite M, W, Y.
  destruct V as [Hm Hd]. clear E B W Y M.
  each_month Hm; destruct (leap y); lia.
Qed.

Lemma leap_DaysInYear y : DaysInYear y = if leap y then 366 else 365.
Proof. reflexivity. Qed.

(** The day before a valid date is a valid date, one day earlier. *)
Lemma prev_day_valid y m d :
  valid_date y m d ->
  let '(y', m', d') := prev_day y m d in
  valid_date y' m' d' /\ MakeDay y' (m' - 1) d' = MakeDay y (m - 1) d - 1.
Proof.
  intros V. unfold prev_day.
  destruct (Z.ltb_spec 1 d) as [Hd|Hd].
  - assert (V' : valid_date y m (d - 1)) by (destruct V; split; lia).
    split; [exact V'|].
    destruct (MakeDay_valid _ _ _ V) as [-> _].
    destruct (MakeDay_valid _ _ _ V') as [-> _]. lia.
  - destruct (Z.ltb_spec 1 m) as [Hm|Hm].
    + assert (V' : valid_date y (m - 1) (days_in_month y (m - 1))).
      { destruct V as [Hm' _]. split; [lia|].
        each_month Hm'; try lia; destruct (leap y); lia. }
      split; [exact V'|].
      destruct (MakeDay_valid _ _ _ V) as [-> _].
      destruct (MakeDay_valid _ _ _ V') as [-> _].
      destruct V as [Hm' Hd'].
      each_month Hm'; try lia; destruct (leap y); lia.
    + assert (V' : valid_date (y - 1) 12 31) by (split; cbn [days_in_month]; lia).
      split; [exact V'|].
      destruct (MakeDay_valid _ _ _ V) as [-> _].
      destruct (MakeDay_valid _ _ _ V') as [-> _].
      destruct V as [Hm' Hd'].
      assert (m = 1) as -> by lia. assert (d = 1) as -> by lia.
      pose proof (DayFromYear_succ (y - 1)) as S.
      replace (y - 1 + 1) with y in S by lia.
      rewrite S, leap_DaysInYear. month_arith.
      destruct (leap (y - 1)); destruct (leap y); lia.
Qed.

(** The day of the month before, set on a valid date, is the day before. *)
Lemma MakeDay_yesterday y m d :
  valid_date y m d ->
  let day := MakeDay y (m - 1) d in
  MakeDay (YearFromDay day) (MonthFromDay day) (DateFromDay day - 1) = day - 1.
Proof.
  intros V. cbn zeta.
  destruct (Date_fields y m d V) as (-> & -> & ->).
  unfold MakeDay. lia.
Qed.

Lemma Day_midnight day : Day (MakeDate day 0) = day.
Proof. unfold Day, MakeDate, msPerDay. zdiv. Qed.

Lemma TimeWithinDay_midnight day : TimeWithinDay (MakeDate day 0) = 0.
Proof. unfold TimeWithinDay, MakeDate, msPerDay. zdiv. Qed.

(** In a zone without transitions every local time is the local time of
    the instant it is read as. *)
Lemma LocalTime_UTC z t : fixed_offset z -> LocalTime z (UTC z t) = t.
Proof. intros [c H]. unfold LocalTime, UTC. rewrite !H. lia. Qed.

(** [dt.setDate(dt.getDate() - 1)] on the local midnight of a valid date,
    in a zone without transitions, is the local midnight of the day
    before. *)
Lemma setDate_yesterday z y m d :
  fixed_offset z -> valid_date y m d ->
  let t := UTC z (MakeDate (MakeDay y (m - 1) d) 0) in
  setDate z t (getDate (local_day z t) - 1)
  = UTC z (MakeDate (MakeDay y (m - 1) d - 1) 0).
Proof.
  intros F V. cbn zeta. unfold setDate, getDate, local_day.
  rewrite (LocalTime_UTC z _ F), Day_midnight, TimeWithinDay_midnight.
  now rewrite (MakeDay_yesterday y m d V).
Qed.

Lemma Date_yesterday z y m d :
  fixed_offset z -> 100 <= y -> valid_date y m d ->
  let t := new_Date z y (m - 1) d in
  let t' := setDate z t (getDate (local_day z t) - 1) in
  let day := local_day z t' in
  (getFullYear day, getMonth day + 1, getDate day) = prev_day y m d.
Proof.
  intros F Hy V. cbn zeta. unfold new_Date.
  replace ((0 <=? y) && (y <=? 99)) with false
    by (symmetry; apply andb_false_iff; right; apply Z.leb_gt; lia).
  rewrite (setDate_yesterday z y m d F V).
  unfold local_day. rewrite (LocalTime_UTC z _ F), Day_midnight.
  pose proof (prev_day_valid y m d V) as P.
  destruct (prev_day y m d) as [[y' m'] d']. destruct P as [V' <-].
  unfold getFullYear, getMonth, getDate.
  destruct (Date_fields y' m' d' V') as (-> & -> & ->).
  f_equal. f_equal. lia.
Qed.

End DateArithmetic.

(** ** The day before the expiration date *)

Section NextRenew.
Import JSDate Calendar.
#[local] Open Scope Z_scope.

Lemma range_forallb (f : Z -> bool) (lo len : Z) :
  forallb f (map Z.of_nat (seq (Z.to_nat lo) (Z.to_nat len))) = true ->
  forall z, 0 <= lo -> lo <= z < lo + len -> f z = true.
Proof.
  intros H z Hlo Hz. rewrite forallb_forall in H. apply H.
  apply in_map_iff. exists (Z.to_nat z). split; [lia|].
  apply in_seq. lia.
Qed.

Lemma year_digits_checked :
  forallb year_digits_ok (map Z.of_nat (seq (Z.to_nat 1000) (Z.to_nat 9000))) = true.
Proof. vm_compute. reflexivity. Qed.

Lemma two_digits_checked :
  forallb two_digits_ok (map Z.of_nat (seq (Z.to_nat 1) (Z.to_nat 31))) = true.
Proof. vm_compute. reflexivity. Qed.

Lemma year_digits y :
  1000 <= y <= 9999 ->
  exists a b c d,
    String_ y = [a; b; c; d] /\ Number [a; b; c; d] = y
    /\ is_digit a = true /\ is_digit b = true
    /\ is_digit c = true /\ is_digit d = true.
Proof.
  intros H.
  assert (K : year_digits_ok y = true)
    by (apply (range_forallb _ 1000 9000 year_digits_checked); lia).
  unfold year_digits_ok in K.
  destruct (String_ y) as [|a [|b [|c [|d [|? ?]]]]]; try discriminate K.
  rewrite !andb_true_iff in K. destruct K as [[[[? ?] ?] ?] K].
  apply Z.eqb_eq in K. exists a, b, c, d. repeat split; assumption || reflexivity.
Qed.

Lemma two_digits n :
  1 <= n <= 31 ->
  exists a b,
    padStart 2 c_zero (String_ n) = [a; b] /\ Number [a; b] = n
    /\ is_digit a = true /\ is_digit b = true.
Proof.
  intros H.
  assert (K : two_digits_ok n = true)
    by (apply (range_forallb _ 1 31 two_digits_checked); lia).
  unfold two_digits_ok in K.
  destruct (padStart 2 c_zero (String_ n)) as [|a [|b [|? ?]]]; try discriminate K.
  rewrite !andb_true_iff in K. destruct K as [[? ?] K].
  apply Z.eqb_eq in K. exists a, b. repeat split; assumption || reflexivity.
Qed.

Lemma valid_date_bounds y m d : valid_date y m d -> 1 <= m <= 12 /\ 1 <= d <= 31.
Proof.
  intros [Hm Hd]. split; [exact Hm|].
  destruct (month_cases _ Hm) as
    [->|[->|[->|[->|[->|[->|[->|[->|[->|[->|[->| ->]]]]]]]]]]];
    cbn [days_in_month] in Hd; try lia; destruct (leap y); lia.
Qed.

Lemma prev_day_year y m d :
  let '(y', _, _) := prev_day y m d in y - 1 <= y' <= y.
Proof.
  unfold prev_day. destruct (1 <? d); [lia|]. destruct (1 <? m); lia.
Qed.

(** The printed form of a date with a four-digit year. *)
Lemma chinese_date_digits y m d :
  1000 <= y <= 9999 -> valid_date y m d ->
  exists a b c e f g h i,
    chinese_date y m d = [a; b; c; e; c_nian; f; g; c_yue; h; i; c_ri]
    /\ String_ y = [a; b; c; e]
    /\ padStart 2 c_zero (String_ m) = [f; g]
    /\ padStart 2 c_zero (String_ d) = [h; i]
    /\ Number [a; b; c; e] = y /\ Number [f; g] = m /\ Number [h; i] = d
    /\ is_digit a = true /\ is_digit b = true /\ is_digit c = true
    /\ is_digit e = true /\ is_digit f = true /\ is_digit g = true
    /\ is_digit h = true /\ is_digit i = true.
Proof.
  intros Hy V. destruct (valid_date_bounds _ _ _ V) as [Hm Hd].
  destruct (year_digits y Hy) as (a & b & c & e & Ey & Ny & ? & ? & ? & ?).
  destruct (two_digits m ltac:(lia)) as (f & g & Em & Nm & ? & ?).
  destruct (two_digits d Hd) as (h & i & Ed & Nd & ? & ?).
  exists a, b, c, e, f, g, h, i.
  unfold chinese_date. rewrite Em, Ed, Ey. repeat split; auto.
Qed.

Lemma getNextRenewAvailableDate_valid z y m d :
  fixed_offset z -> 1001 <= y <= 9999 -> valid_date y m d ->
  getNextRenewAvailableDate z (chinese_date y m d)
  = let '(y', m', d') := prev_day y m d in chinese_date y' m' d'.
Proof.
  intros F Hy V.
  destruct (chinese_date_digits y m d ltac:(lia) V)
    as (a&b&c&e&f&g&h&i& -> & _ & _ & _ & Ny & Nm & Nd & ?&?&?&?&?&?&?&?).
  unfold getNextRenewAvailableDate. cbn [re_match].
  rewrite match_at_padded_padded by assumption.
  cbn [group nth Nat.sub]. rewrite Ny, Nm, Nd.
  pose proof (Date_yesterday z y m d F ltac:(lia) V) as D. cbn zeta in D.
  pose proof (prev_day_valid y m d V) as PV.
  pose proof (prev_day_year y m d) as PY.
  destruct (prev_day y m d) as [[y' m'] d']. destruct PV as [V' _].
  injection D as -> -> ->.
  destruct (chinese_date_digits y' m' d' ltac:(lia) V')
    as (a'&b'&c'&e'&f'&g'&h'&i'& -> & -> & -> & -> & _).
  reflexivity.
Qed.


End NextRenew.

(** ** Reasoning about the script *)

#[global] Instance extends_frame P : Frame (extends P) P (fun _ => True) True.
Proof.
  assert (N : forall st st', trace st' = trace st -> extends P st st')
    by (intros st st' E; exists []; rewrite app_nil_r; auto).
  split; auto.
  - intros a b c (e1 & E1 & F1) (e2 & E2 & F2). exists (e1 ++ e2).
    rewrite E2, E1, app_assoc. split; [reflexivity | now apply Forall_app].
  - intros e st H. exists [e]. cbn. auto.
Qed.

#[global] Instance file_kept_frame :
  Frame file_kept (fun _ => True) (fun path => path <> expireDateFile) True.
Proof.
  split; unfold file_kept; try (intros; reflexivity).
  - intros a b c -> ->. reflexivity.
  - intros path data st H. cbn [fst writeFileSync fs].
    apply lookup_insert_ne. exact H.
Qed.

#[global] Instance vars_kept_frame : Frame vars_kept (fun _ => True) (fun _ => True) False.
Proof.
  split; unfold vars_kept; try (intros; split; reflexivity); try contradiction.
  intros a b c [-> ->] [-> ->]. auto.
Qed.

#[global] Instance grows_frame : Frame grows (fun _ => True) (fun _ => True) True.
Proof.
  split; unfold grows; try (intros; assumption).
  - auto.
  - intros path data st _ k H. cbn [fst writeFileSync fs].
    destruct (decide (path = k)) as [->|N].
    + rewrite lookup_insert_eq. eauto.
    + rewrite lookup_insert_ne by exact N. exact H.
Qed.

Section Frames.
Context {R : State -> State -> Prop} {P : Event -> Prop}
        {W : jsstring -> Prop} {V : Prop}.
Context {F : Frame R P W V}.
Variable env : Env.

Lemma preserves_ret {A} (a : A) : preserves R (ret a).
Proof. intros st. apply frame_refl. Qed.

Lemma preserves_throw {A} message : preserves R (@throw A message).
Proof. intros st. apply frame_refl. Qed.

Lemma preserves_get {A} (f : State -> A) : preserves R (get f).
Proof. intros st. apply frame_refl. Qed.

Lemma preserves_bind {A B} (m : M A) (k : A -> M B) :
  preserves R m -> (forall a, preserves R (k a)) -> preserves R (bind m k).
Proof.
  intros Hm Hk st. unfold bind. specialize (Hm st).
  destruct (m st) as [st' [a|e]]; cbn in Hm.
  - eapply frame_trans; [exact Hm | apply Hk].
  - exact Hm.
Qed.

Lemma preserves_try {A} (m : M A) : preserves R m -> preserves R (try_ m).
Proof.
  intros Hm st. unfold try_. specialize (Hm st). now destruct (m st).
Qed.

Lemma preserves_call {A} e (answer : nat -> A) :
  P e -> preserves R (call env e answer).
Proof.
  intros H st. unfold call. destruct (rejects env (now st) e); now apply frame_event.
Qed.

Lemma preserves_call_ e : P e -> preserves R (call_ env e).
Proof. apply preserves_call. Qed.

Lemma preserves_sleep ms : P (Sleep ms) -> preserves R (sleep ms).
Proof. intros H st. now apply frame_event. Qed.

Lemma preserves_time : preserves R (getBeijingTimeString env).
Proof. intros st. apply frame_tick. Qed.

Lemma preserves_all2 e1 e2 : P e1 -> P e2 -> preserves R (all2 env e1 e2).
Proof.
  intros H1 H2 st. unfold all2.
  assert (R st (tick_event e2 (tick_event e1 st)))
    by (eapply frame_trans; now apply frame_event).
  destruct (rejects env (now st) e1); [assumption|].
  now destruct (rejects env (S (now st)) e2).
Qed.

Lemma preserves_settle :
  P WaitForNavigation -> P (Click sel_continue) -> preserves R (settle_submit env).
Proof.
  intros H1 H2 st. unfold settle_submit. cbn [fst].
  eapply frame_trans; now apply frame_event.
Qed.

Lemma preserves_info v : preserves R (set_infoMessage v).
Proof. intros st. apply frame_info. Qed.

Lemma preserves_write path data : W path -> preserves R (writeFileSync path data).
Proof. intros H st. now apply frame_write. Qed.

Lemma preserves_last v : V -> preserves R (set_lastExpireDate v).
Proof. intros H st. now apply frame_last. Qed.

Lemma preserves_error v : V -> preserves R (set_scriptErrorMessage v).
Proof. intros H st. now apply frame_error. Qed.

Lemma preserves_recorded : preserves R (recording_on_disk env).
Proof. intros st. apply frame_tick. Qed.

(** The loop respects what each of its iterations respects. *)
Lemma preserves_captcha_loop remaining attempt :
  (forall a, preserves R (captcha_attempt env a)) ->
  preserves R (captcha_loop env remaining attempt).
Proof.
  intros H. revert attempt.
  induction remaining as [|n IH]; intros attempt; cbn [captcha_loop].
  - apply preserves_ret.
  - apply preserves_bind; [apply H|]. intros [|]; [apply preserves_ret | apply IH].
Qed.

(** [try], [catch] and [finally] respect what their blocks respect. *)
Lemma preserves_main :
  preserves R (workflow env) ->
  (forall message, preserves R (catch_block env message)) ->
  preserves R (cleanup env) ->
  forall st, R st (final (main env st)).
Proof.
  intros Hw Hc Hf st. unfold main. specialize (Hw st).
  destruct (workflow env st) as [st1 [o|message]]; cbn [fst] in Hw.
  - specialize (Hf st1). destruct (cleanup env st1) as [st3 c]. cbn in *.
    eapply frame_trans; eassumption.
  - specialize (Hc message st1).
    destruct (catch_block env message st1) as [st2 r2]. cbn [fst] in *.
    specialize (Hf st2). destruct (cleanup env st2) as [st3 c]. cbn in *.
    eapply frame_trans; [eassumption|]. eapply frame_trans; eassumption.
Qed.
End Frames.

Create HintDb script.
#[global] Hint Unfold read_persisted close_and_notify open_renewal solve_captcha after_captcha workflow
  not_yet_eligible confirm_renewal record_outcome catch_block cleanup
  captcha_attempt after_recognition submit_code failed_attempt
  getExpirationDate sendTelegramMessage uploadToWebDAV : script.

(** One step of a proof that a computation respects a frame: the rule of
    its head construct, or a case analysis on what it branches on.  What
    remains is that each request is in [P], each written file in [W]. *)
Ltac frame_step :=
  first
    [ apply preserves_captcha_loop; intros ?
    | apply preserves_bind; [|intros ?]
    | apply preserves_ret
    | apply preserves_throw
    | apply preserves_get
    | apply preserves_try
    | apply preserves_call_
    | apply preserves_call
    | apply preserves_sleep
    | apply preserves_time
    | apply preserves_all2
    | apply preserves_settle
    | apply preserves_info
    | apply preserves_write
    | apply preserves_last
    | apply preserves_error
    | apply preserves_recorded
    | match goal with
      | |- preserves _ (match ?x with _ => _ end) => destruct x eqn:?
      end
    | progress autounfold with script ].

Ltac frame := repeat frame_step.

(** Side conditions: a request of the wrong kind, a file other than
    expire.txt. *)
Ltac side :=
  try exact I;
  try (repeat split; reflexivity);
  try (repeat split; vm_compute; reflexivity);
  try (intros E; vm_compute in E; discriminate E).

(** *** Counting requests *)

Lemma count_app p a b : count p (a ++ b) = (count p a + count p b)%nat.
Proof. unfold count. now rewrite List.filter_app, length_app. Qed.

Lemma count_none p evs : Forall (fun e => p e = false) evs -> count p evs = 0%nat.
Proof.
  unfold count. induction 1 as [|e evs H _ IH]; cbn; [reflexivity|].
  now rewrite H.
Qed.

Lemma count_le_1 p e : (count p [e] <= 1)%nat.
Proof. unfold count. cbn. destruct (p e); cbn; lia. Qed.

Lemma main_eq env st :
  main env st =
  let wr := workflow env st in
  let st2 := match snd wr with
             | Ok _ => fst wr
             | Throw message => fst (catch_block env message (fst wr))
             end in
  {| final := fst (cleanup env st2);
     outcome := match snd wr with Ok o => o | Throw _ => Error end;
     completion := snd (cleanup env st2) |}.
Proof.
  unfold main. destruct (workflow env st) as [st1 [o|message]]; cbn [fst snd];
    destruct (cleanup env _); reflexivity.
Qed.

Section Counting.
Variable env : Env.
Variable p : Event -> bool.

Lemma at_most_none {A} n (m : M A) :
  preserves (extends (fun e => p e = false)) m -> at_most p n m.
Proof.
  intros H st. destruct (H st) as (evs & E & Fa). exists evs.
  split; [exact E|]. rewrite (count_none _ _ Fa). lia.
Qed.

Lemma at_most_bind {A B} n1 n2 (m : M A) (k : A -> M B) :
  at_most p n1 m -> (forall a, at_most p n2 (k a)) ->
  at_most p (n1 + n2) (bind m k).
Proof.
  intros Hm Hk st. unfold bind. destruct (Hm st) as (e1 & E1 & C1).
  destruct (m st) as [st' [a|e]]; cbn [fst] in *.
  - destruct (Hk a st') as (e2 & E2 & C2). exists (e1 ++ e2).
    rewrite E2, E1, app_assoc, count_app. split; [reflexivity | lia].
  - exists e1. split; [exact E1 | lia].
Qed.

Lemma at_most_before {A B} n (m : M A) (k : A -> M B) :
  preserves (extends (fun e => p e = false)) m ->
  (forall a, at_most p n (k a)) -> at_most p n (bind m k).
Proof.
  intros Hm Hk. change n with (0 + n)%nat.
  apply at_most_bind; [now apply at_most_none | exact Hk].
Qed.

Lemma at_most_after {A B} n (m : M A) (k : A -> M B) :
  at_most p n m ->
  (forall a, preserves (extends (fun e => p e = false)) (k a)) ->
  at_most p n (bind m k).
Proof.
  intros Hm Hk. replace n with (n + 0)%nat by lia.
  apply at_most_bind; [exact Hm | intros a; now apply at_most_none].
Qed.

Lemma at_most_try {A} n (m : M A) : at_most p n m -> at_most p n (try_ m).
Proof.
  intros Hm st. unfold try_. specialize (Hm st). now destruct (m st).
Qed.

Lemma at_most_call {A} e (answer : nat -> A) : at_most p 1 (call env e answer).
Proof.
  intros st. exists [e]. split; [|apply count_le_1].
  unfold call. now destruct (rejects env (now st) e).
Qed.

Lemma at_most_call_ e : at_most p 1 (call_ env e).
Proof. apply at_most_call. Qed.

Lemma at_most_captcha_loop remaining attempt :
  (forall a, at_most p 1 (captcha_attempt env a)) ->
  at_most p remaining (captcha_loop env remaining attempt).
Proof.
  intros H. revert attempt.
  induction remaining as [|n IH]; intros attempt; cbn [captcha_loop].
  - apply at_most_none, preserves_ret.
  - change (S n) with (1 + n)%nat. apply at_most_bind; [apply H|].
    intros [|]; [apply at_most_none, preserves_ret | apply IH].
Qed.

(** The requests of a whole run, when [catch] and [finally] make none of
    kind [p]. *)
Lemma count_main n :
  at_most p n (workflow env) ->
  (forall message, preserves (extends (fun e => p e = false)) (catch_block env message)) ->
  preserves (extends (fun e => p e = false)) (cleanup env) ->
  forall files, (count p (trace (final (main env (initial files)))) <= n)%nat.
Proof.
  intros Hw Hc Hf files. rewrite main_eq. cbn zeta. cbn [final].
  destruct (Hw (initial files)) as (e1 & E1 & C1). cbn [initial trace app] in E1.
  destruct (workflow env (initial files)) as [st1 [o|message]]; cbn [fst snd] in *.
  - destruct (Hf st1) as (e3 & E3 & F3).
    rewrite E3, E1, count_app, (count_none _ _ F3). lia.
  - destruct (Hc message st1) as (e2 & E2 & F2).
    destruct (Hf (fst (catch_block env message st1))) as (e3 & E3 & F3).
    rewrite E3, E2, E1, !count_app, (count_none _ _ F2), (count_none _ _ F3). lia.
Qed.
End Counting.

Ltac bound_step :=
  first
    [ apply at_most_none; solve [frame; side]
    | apply at_most_captcha_loop; intros ?
    | apply at_most_before; [solve [frame; side] | intros ?]
    | apply at_most_after; [ | intros ?; solve [frame; side] ]
    | apply at_most_try
    | apply at_most_call_
    | apply at_most_call
    | match goal with
      | |- at_most _ _ (match ?x with _ => _ end) => destruct x eqn:?
      end
    | progress autounfold with script ].

Ltac bound := repeat bound_step.

(** *** Results that depend on how the workflow ends *)

Section Posts.
Context {R : State -> State -> Prop} {B : Type}.
Variable Q : State -> State -> result B -> Prop.
Hypothesis Q_after : forall st st' st'' r, R st st' -> Q st' st'' r -> Q st st'' r.
Hypothesis Q_throw : forall st st' e, R st st' -> Q st st' (Throw e).

Lemma post_bind {A} (m : M A) (k : A -> M B) :
  preserves R m -> (forall a, post (k a) Q) -> post (bind m k) Q.
Proof.
  intros Hm Hk st. unfold bind. specialize (Hm st).
  destruct (m st) as [st' [a|e]]; cbn [fst snd] in *.
  - eapply Q_after; [exact Hm | apply Hk].
  - now apply Q_throw.
Qed.
End Posts.

(** A step through a sequence whose prefix respects the frame of [Q]. *)
Ltac post_step Ha Ht :=
  lazymatch goal with
  | |- post (bind _ _) _ =>
      apply (post_bind _ Ha Ht); [solve [frame; side] | intros ?]
  end.

Section Phases.
Variable env : Env.

Lemma read_persisted_eq st :
  read_persisted st =
  ({| fs := fs st; trace := trace st; now := now st;
      lastExpireDate := match fs st !! expireDateFile with
                        | Some data => trim data
                        | None => lastExpireDate st
                        end;
      infoMessage := infoMessage st;
      scriptErrorMessage := scriptErrorMessage st |}, Ok tt).
Proof.
  unfold read_persisted, bind, get. destruct (fs st !! expireDateFile); [reflexivity|].
  now destruct st.
Qed.

Lemma record_outcome_eq newExpireDate st :
  record_outcome env newExpireDate st =
  match classify (lastExpireDate st) newExpireDate with
  | CSuccess =>
    ({| fs := <[expireDateFile := newExpireDate]> (fs st);
        trace := trace st; now := S (now st);
        lastExpireDate := lastExpireDate st;
        infoMessage := successMessage newExpireDate
                         (getNextRenewAvailableDate (zone env) newExpireDate)
                         (beijing_time env (now st));
        scriptErrorMessage := scriptErrorMessage st |}, Ok Success)
  | CUnchanged =>
    ({| fs := fs st; trace := trace st; now := S (now st);
        lastExpireDate := lastExpireDate st;
        infoMessage := failMessage newExpireDate (beijing_time env (now st));
        scriptErrorMessage := scriptErrorMessage st |}, Ok Unchanged)
  | CFatal => (st, Throw date_missing_fatal)
  end.
Proof.
  unfold record_outcome, bind, get.
  destruct (classify (lastExpireDate st) newExpireDate); reflexivity.
Qed.

Lemma not_yet_eligible_eq bodyText currentExpireDate st :
  not_yet_eligible env bodyText currentExpireDate st =
  ({| fs := fs st; trace := trace st; now := S (now st);
      lastExpireDate := lastExpireDate st;
      infoMessage :=
        notYetMessage
          match re_match re_available_from bodyText with
          | Some (_, m) => formatChineseDate (group 1 m)
          | None => []
          end
          currentExpireDate (beijing_time env (now st));
      scriptErrorMessage := scriptErrorMessage st |}, Ok NotYetEligible).
Proof. reflexivity. Qed.

(** **** Requests of the phases *)

Lemma workflow_before_cleanup : preserves (extends before_cleanup) (workflow env).
Proof. frame; side. Qed.

Lemma catch_before_cleanup message :
  preserves (extends before_cleanup) (catch_block env message).
Proof. frame; side. Qed.

Lemma attempt_recognizes_once a : at_most is_recognize 1 (captcha_attempt env a).
Proof. bound. Qed.

Lemma attempt_fills_once a : at_most is_captcha_fill 1 (captcha_attempt env a).
Proof. bound. Qed.

Lemma attempt_probes_once a : at_most is_captcha_probe 1 (captcha_attempt env a).
Proof. bound. Qed.

Lemma cleanup_file_kept : preserves file_kept (cleanup env).
Proof. frame; side. Qed.

Lemma catch_file_kept message : preserves file_kept (catch_block env message).
Proof. frame; side. Qed.

Lemma cleanup_grows : preserves grows (cleanup env).
Proof. frame; side. Qed.

Lemma catch_grows message : preserves grows (catch_block env message).
Proof. frame; side. Qed.

Lemma workflow_grows : preserves grows (workflow env).
Proof. frame; side. Qed.

Lemma cleanup_vars_kept : preserves vars_kept (cleanup env).
Proof. frame; side. Qed.

(** **** How the workflow ends *)

Lemma written_only_on_success_after st st' st'' r :
  file_kept st st' -> written_only_on_success st' st'' r ->
  written_only_on_success st st'' r.
Proof. unfold written_only_on_success, file_kept. intros E H N. rewrite (H N). exact E. Qed.

Lemma written_only_on_success_throw st st' e :
  file_kept st st' -> written_only_on_success st st' (Throw e).
Proof. intros E _. exact E. Qed.

Lemma record_outcome_written newExpireDate :
  post (record_outcome env newExpireDate) written_only_on_success.
Proof.
  intros st. rewrite record_outcome_eq. unfold written_only_on_success, file_kept.
  destruct (classify (lastExpireDate st) newExpireDate); cbn [fst snd fs];
    congruence.
Qed.

Lemma workflow_written : post (workflow env) written_only_on_success.
Proof.
  pose proof written_only_on_success_after as Ha.
  pose proof written_only_on_success_throw as Ht.
  unfold workflow, after_captcha.
  repeat post_step Ha Ht.
  match goal with |- post (if ?b then _ else _) _ => destruct b end.
  - intros st _. revert st.
    match goal with
    | |- forall st, file_kept st (fst (?m st)) => change (preserves file_kept m)
    end.
    frame; side.
  - unfold confirm_renewal. repeat post_step Ha Ht.
    apply record_outcome_written.
Qed.

Lemma classified_after st st' st'' r :
  vars_kept st st' -> classified st' st'' r -> classified st st'' r.
Proof.
  unfold classified, vars_kept. intros [E _].
  destruct r as [[| | |]|]; rewrite ?E; auto.
Qed.

Lemma classified_throw st st' e : vars_kept st st' -> classified st st' (Throw e).
Proof. intros _. exact I. Qed.

Lemma record_outcome_classified newExpireDate :
  post (record_outcome env newExpireDate) classified.
Proof.
  intros st. rewrite record_outcome_eq. unfold classified.
  destruct (classify (lastExpireDate st) newExpireDate) eqn:E; cbn [fst snd fs].
  - exists newExpireDate. split; [exact E | apply lookup_insert_eq].
  - exists newExpireDate. exact E.
  - exact I.
Qed.

(** The part of the workflow after expire.txt has been read. *)
Lemma renewal_classified :
  post (currentExpireDate <- open_renewal env;;
        solve_captcha env;;
        after_captcha env currentExpireDate)%script classified.
Proof.
  pose proof classified_after as Ha. pose proof classified_throw as Ht.
  unfold after_captcha.
  repeat post_step Ha Ht.
  match goal with |- post (if ?b then _ else _) _ => destruct b end.
  - intros st. exact I.
  - unfold confirm_renewal. repeat post_step Ha Ht.
    apply record_outcome_classified.
Qed.

Lemma workflow_eq st :
  workflow env st =
  (currentExpireDate <- open_renewal env;;
   solve_captcha env;;
   after_captcha env currentExpireDate)%script (fst (read_persisted st)).
Proof. unfold workflow. unfold bind at 1. now rewrite read_persisted_eq. Qed.

Lemma workflow_classified files :
  let wr := workflow env (initial files) in
  match snd wr with
  | Ok Success =>
    exists fresh, classify (persisted files) fresh = CSuccess
                  /\ fs (fst wr) !! expireDateFile = Some fresh
  | Ok Unchanged => exists fresh, classify (persisted files) fresh = CUnchanged
  | _ => True
  end.
Proof.
  cbn zeta. rewrite workflow_eq, read_persisted_eq. cbn [fst].
  exact (renewal_classified _).
Qed.
End Phases.

(** ** The outcome of a run *)

Lemma classify_success last fresh :
  classify last fresh = CSuccess <-> fresh <> [] /\ fresh <> formatChineseDate last.
Proof.
  unfold classify. rewrite <- truthy_nonempty, <- str_eqb_neq.
  destruct (truthy fresh), (str_eqb fresh (formatChineseDate last)); cbn;
    intuition congruence.
Qed.

Lemma classify_unchanged last fresh :
  classify last fresh = CUnchanged <-> fresh <> [] /\ fresh = formatChineseDate last.
Proof.
  unfold classify. rewrite <- truthy_nonempty, <- str_eqb_eq.
  destruct (truthy fresh), (str_eqb fresh (formatChineseDate last)); cbn;
    intuition congruence.
Qed.

Lemma classify_fatal last fresh : classify last fresh = CFatal <-> fresh = [].
Proof.
  unfold classify. destruct fresh as [|c fresh]; cbn [truthy andb].
  - intuition congruence.
  - destruct (str_eqb _ _); cbn; intuition congruence.
Qed.

Lemma legacy_classify_spec last fresh :
  (Legacy.classify last fresh = CSuccess <-> fresh <> [] /\ fresh <> last)
  /\ (Legacy.classify last fresh = CUnchanged <-> fresh <> [] /\ fresh = last)
  /\ (Legacy.classify last fresh = CFatal <-> fresh = []).
Proof.
  unfold Legacy.classify.
  rewrite <- !truthy_nonempty, <- str_eqb_neq, <- str_eqb_eq.
  destruct fresh as [|c fresh]; cbn [truthy andb];
    [|destruct (str_eqb (c :: fresh) last)]; cbn; intuition congruence.
Qed.

Lemma main_outcome_classified env files :
  let r := main env (initial files) in
  (outcome r = Success ->
   exists fresh, classify (persisted files) fresh = CSuccess
                 /\ fs (final r) !! expireDateFile = Some fresh)
  /\ (outcome r = Unchanged ->
      exists fresh, classify (persisted files) fresh = CUnchanged).
Proof.
  cbn zeta. rewrite main_eq. cbn zeta. cbn [outcome final].
  pose proof (workflow_classified env files) as H. cbn zeta in H.
  destruct (workflow env (initial files)) as [st1 [o|message]]; cbn [fst snd] in *.
  - split; intros ->.
    + destruct H as (fresh & C & L). exists fresh. split; [exact C|].
      rewrite <- L. apply cleanup_file_kept.
    + exact H.
  - split; discriminate.
Qed.

(** ** The persisted file *)

Lemma main_file_kept env files :
  outcome (main env (initial files)) <> Success ->
  fs (final (main env (initial files))) !! expireDateFile = files !! expireDateFile.
Proof.
  rewrite main_eq. cbn zeta. cbn [outcome final].
  pose proof (workflow_written env (initial files)) as H.
  unfold written_only_on_success in H.
  destruct (workflow env (initial files)) as [st1 [o|message]]; cbn [fst snd] in *.
  - intros N. rewrite (cleanup_file_kept env st1). apply H. congruence.
  - intros _. rewrite (cleanup_file_kept env _), (catch_file_kept env message st1).
    apply H. discriminate.
Qed.

(** expire.txt is written only when the run ends in [Success]: after a
    run with any other outcome it holds what it held before (or is still
    absent), and no file that existed before the run is missing after it. *)
Lemma expire_file_kept_unless_success (env : Env)
    (files : gmap jsstring jsstring) :
  let r := main env (initial files) in
  (outcome r <> Success ->
   fs (final r) !! expireDateFile = files !! expireDateFile)
  /\ (forall path, is_Some (files !! path) -> is_Some (fs (final r) !! path)).
Proof.
  cbn zeta. split.
  - apply main_file_kept.
  - exact (preserves_main (R := grows) env (workflow_grows env)
             (catch_grows env) (cleanup_grows env) (initial files)).
Qed.

(** ** The cleanup phase *)

Section Cleanup.
Variable env : Env.

Lemma close_and_notify_no_stop :
  preserves (extends (fun e => is_recorder_stop e = false)) (close_and_notify env).
Proof. frame; side. Qed.

Lemma close_and_notify_posts_once : at_most is_telegram_post 1 (close_and_notify env).
Proof. bound. Qed.

(** The [finally] block stops the recorder first, once, and posts at
    most one message. *)
Lemma cleanup_trace st :
  exists evs,
    trace (fst (cleanup env st)) = trace st ++ Sleep 5000 :: RecorderStop :: evs
    /\ count is_recorder_stop evs = 0%nat
    /\ (count is_telegram_post evs <= 1)%nat.
Proof.
  unfold cleanup, bind, sleep, call_, call. cbn [tick_event now fst snd].
  destruct (rejects env (S (now st)) RecorderStop) as [message|].
  - exists []. cbn [fst trace tick_event]. rewrite <- app_assoc.
    split; [reflexivity|]. split; [reflexivity | cbn; lia].
  - set (st2 := tick_event RecorderStop (tick_event (Sleep 5000) st)).
    destruct (close_and_notify_no_stop st2) as (e1 & E1 & F1).
    destruct (close_and_notify_posts_once st2) as (e2 & E2 & C2).
    rewrite E1 in E2. apply app_inv_head in E2. subst e2.
    exists e1. rewrite E1. subst st2. cbn [trace tick_event].
    rewrite <- !app_assoc. cbn [app].
    split; [reflexivity|]. split; [now apply count_none | exact C2].
Qed.

Lemma before_cleanup_counts st st' :
  extends before_cleanup st st' ->
  exists evs, trace st' = trace st ++ evs
              /\ count is_recorder_stop evs = 0%nat
              /\ count is_telegram_post evs = 0%nat.
Proof.
  intros (evs & E & Fa). exists evs. split; [exact E|].
  split; apply count_none; eapply Forall_impl; try exact Fa; now intros e [? ?].
Qed.
End Cleanup.

(** C6. In every run, whatever the outcome, the [finally] block is entered
    exactly once: its first request, stopping the recorder, is made exactly
    once; and at most one message is posted to the chat. *)
Theorem cleanup_runs_once (env : Env) (files : gmap jsstring jsstring) :
  let r := main env (initial files) in
  count is_recorder_stop (trace (final r)) = 1%nat
  /\ (count is_telegram_post (trace (final r)) <= 1)%nat.
Proof.
  cbn zeta. rewrite main_eq. cbn zeta. cbn [final].
  assert (W : exists st2,
             extends before_cleanup (initial files) st2
             /\ match snd (workflow env (initial files)) with
                | Ok _ => fst (workflow env (initial files))
                | Throw message =>
                    fst (catch_block env message (fst (workflow env (initial files))))
                end = st2).
  { eexists. split; [|reflexivity].
    pose proof (workflow_before_cleanup env (initial files)) as H.
    destruct (workflow env (initial files)) as [st1 [o|message]]; cbn [fst snd] in *.
    - exact H.
    - eapply frame_trans; [exact H | apply catch_before_cleanup]. }
  destruct W as (st2 & X & ->).
  destruct (before_cleanup_counts _ _ X) as (e1 & E1 & S1 & T1).
  destruct (cleanup_trace env st2) as (e3 & E3 & S3 & T3).
  rewrite E3, E1. cbn [initial trace app].
  change (Sleep 5000 :: RecorderStop :: e3) with ([Sleep 5000; RecorderStop] ++ e3).
  rewrite !count_app, S1, T1, S3. cbn. lia.
Qed.

(** ** The CAPTCHA loop *)

Section Captcha.
Variable env : Env.

Lemma workflow_recognizes : at_most is_recognize 3 (workflow env).
Proof.
  pose proof (attempt_recognizes_once env). unfold workflow, solve_captcha. bound.
Qed.

Lemma workflow_fills : at_most is_captcha_fill 3 (workflow env).
Proof.
  pose proof (attempt_fills_once env). unfold workflow, solve_captcha. bound.
Qed.

Lemma workflow_probes : at_most is_captcha_probe 3 (workflow env).
Proof.
  pose proof (attempt_probes_once env). unfold workflow, solve_captcha. bound.
Qed.

Lemma catch_recognizes_not message :
  preserves (extends (fun e => is_recognize e = false)) (catch_block env message).
Proof. frame; side. Qed.

Lemma catch_fills_not message :
  preserves (extends (fun e => is_captcha_fill e = false)) (catch_block env message).
Proof. frame; side. Qed.

Lemma catch_probes_not message :
  preserves (extends (fun e => is_captcha_probe e = false)) (catch_block env message).
Proof. frame; side. Qed.

Lemma cleanup_recognizes_not :
  preserves (extends (fun e => is_recognize e = false)) (cleanup env).
Proof. frame; side. Qed.

Lemma cleanup_fills_not :
  preserves (extends (fun e => is_captcha_fill e = false)) (cleanup env).
Proof. frame; side. Qed.

Lemma cleanup_probes_not :
  preserves (extends (fun e => is_captcha_probe e = false)) (cleanup env).
Proof. frame; side. Qed.

(** An unsolved loop is a fatal error of the resolver. *)
Lemma solve_captcha_unsolved st :
  snd (captcha_loop env maxCaptchaTries 1 st) = Ok false ->
  solve_captcha env st = (fst (captcha_loop env maxCaptchaTries 1 st), Throw captcha_fatal).
Proof.
  intros H. unfold solve_captcha, bind.
  destruct (captcha_loop env maxCaptchaTries 1 st) as [st' r]. cbn [fst snd] in *.
  now subst r.
Qed.

(** A fatal error of the resolver ends the workflow where it stands. *)
Lemma workflow_captcha_fatal st currentExpireDate :
  snd (open_renewal env (fst (read_persisted st))) = Ok currentExpireDate ->
  snd (captcha_loop env maxCaptchaTries 1
         (fst (open_renewal env (fst (read_persisted st))))) = Ok false ->
  workflow env st =
  (fst (captcha_loop env maxCaptchaTries 1
          (fst (open_renewal env (fst (read_persisted st))))),
   Throw captcha_fatal).
Proof.
  intros Ho Hl. rewrite workflow_eq. unfold bind at 1.
  destruct (open_renewal env (fst (read_persisted st))) as [st1 r1].
  cbn [fst snd] in *. subst r1. unfold bind.
  now rewrite (solve_captcha_unsolved _ Hl).
Qed.

Lemma main_workflow_throws st st1 message :
  workflow env st = (st1, Throw message) ->
  outcome (main env st) = Error
  /\ scriptErrorMessage (final (main env st))
     = errorMessage message (beijing_time env (now st1))
  /\ trace (final (main env st))
     = trace (fst (cleanup env (fst (catch_block env message st1))))
  /\ trace (fst (catch_block env message st1)) = trace st1.
Proof.
  intros H. rewrite main_eq, H. cbn zeta. cbn [fst snd outcome final].
  split; [reflexivity|]. split; [|split; reflexivity].
  destruct (cleanup_vars_kept env (fst (catch_block env message st1))) as [_ ->].
  reflexivity.
Qed.
End Captcha.

(** C4. In every run the CAPTCHA loop probes for the image, asks for a
    recognition and fills a code in at most three times each.  When the
    loop ends unsolved, the resolver throws its fatal error; that error ends
    the workflow at once, and the run ends in [Error] with this error's
    message. *)
Theorem captcha_attempts_bounded (env : Env) (files : gmap jsstring jsstring)
    (currentExpireDate : jsstring) :
  let r := main env (initial files) in
  let st1 := fst (open_renewal env (fst (read_persisted (initial files)))) in
  let st2 := fst (captcha_loop env maxCaptchaTries 1 st1) in
  ((count is_captcha_probe (trace (final r)) <= 3)%nat
   /\ (count is_recognize (trace (final r)) <= 3)%nat
   /\ (count is_captcha_fill (trace (final r)) <= 3)%nat)
  /\ (snd (open_renewal env (fst (read_persisted (initial files))))
        = Ok currentExpireDate ->
      snd (captcha_loop env maxCaptchaTries 1 st1) = Ok false ->
      solve_captcha env st1 = (st2, Throw captcha_fatal)
      /\ workflow env (initial files) = (st2, Throw captcha_fatal)
      /\ outcome r = Error
      /\ scriptErrorMessage (final r)
         = errorMessage captcha_fatal (beijing_time env (now st2))).
Proof.
  cbn zeta. split.
  - split; [|split].
    + apply count_main;
        [apply workflow_probes | apply catch_probes_not | apply cleanup_probes_not].
    + apply count_main;
        [apply workflow_recognizes | apply catch_recognizes_not
        | apply cleanup_recognizes_not].
    + apply count_main;
        [apply workflow_fills | apply catch_fills_not | apply cleanup_fills_not].
  - intros Ho Hl.
    pose proof (workflow_captcha_fatal env _ _ Ho Hl) as Hw.
    destruct (main_workflow_throws env _ _ _ Hw) as (A & B & _).
    split; [now apply solve_captcha_unsolved|]. auto.
Qed.

Lemma captcha_attempts_bounded_witness :
  let env := env_unrecognized in
  let files : gmap jsstring jsstring := ∅ in
  let cur := utf16 "2025年09月07日" in
  let r := main env (initial files) in
  let st1 := fst (open_renewal env (fst (read_persisted (initial files)))) in
  (snd (open_renewal env (fst (read_persisted (initial files)))) = Ok cur
   /\ snd (captcha_loop env maxCaptchaTries 1 st1) = Ok false)
  /\ (count is_recognize (trace (final r)) <= 3)%nat
  /\ outcome r = Error.
Proof.
  cbn zeta.
  assert (Ho : snd (open_renewal env_unrecognized (fst (read_persisted (initial ∅))))
               = Ok (utf16 "2025年09月07日")) by (vm_compute; reflexivity).
  assert (Hl : snd (captcha_loop env_unrecognized maxCaptchaTries 1
                      (fst (open_renewal env_unrecognized
                              (fst (read_persisted (initial ∅)))))) = Ok false)
    by (vm_compute; reflexivity).
  destruct (captcha_attempts_bounded env_unrecognized ∅ (utf16 "2025年09月07日"))
    as ((_ & Hr & _) & Hf).
  destruct (Hf Ho Hl) as (_ & _ & He & _).
  split; [split; [exact Ho | exact Hl]|]. split; [exact Hr | exact He].
Defined.

Section ShortCodes.
Variable env : Env.

Lemma guard_plausible code :
  negb (truthy code) || (length code <? 4)%nat = false ->
  code <> [] /\ (4 <= length code)%nat.
Proof.
  intros H. apply orb_false_elim in H as [T L].
  apply negb_false_iff in T. apply Nat.ltb_ge in L.
  split; [now apply truthy_nonempty | exact L].
Qed.

Ltac fill_side :=
  side;
  try match goal with
      | H : negb (truthy ?c) || (length ?c <? 4)%nat = false |- _ =>
          intros _; exact (guard_plausible c H)
      end.

Lemma workflow_fills_plausible : preserves (extends plausible_fill) (workflow env).
Proof. frame; fill_side. Qed.

Lemma catch_fills_plausible message :
  preserves (extends plausible_fill) (catch_block env message).
Proof. frame; side. Qed.

Lemma cleanup_fills_plausible : preserves (extends plausible_fill) (cleanup env).
Proof. frame; side. Qed.

Lemma main_fills_plausible files code :
  In (Fill sel_captcha_input code) (trace (final (main env (initial files)))) ->
  code <> [] /\ (4 <= length code)%nat.
Proof.
  intros H.
  destruct (preserves_main (R := extends plausible_fill) env
              workflow_fills_plausible catch_fills_plausible
              cleanup_fills_plausible (initial files)) as (evs & E & Fa).
  rewrite E in H. cbn [initial trace app] in H.
  rewrite Forall_forall in Fa. apply list_elem_of_In in H.
  exact (Fa _ H eq_refl).
Qed.

Lemma failed_attempt_eq attempt st :
  failed_attempt env attempt st =
  let path := utf16 "captcha_failed_" ++ String_ (Z.of_nat attempt) ++ utf16 ".png" in
  match rejects env (now st) (Screenshot path) with
  | Some message => (tick_event (Screenshot path) st, Throw message)
  | None =>
    (fst (writeFileSync path (screenshot_png env (now st))
            (tick_event (Screenshot path) st)), Ok Continue)
  end.
Proof.
  unfold failed_attempt, screenshot, bind, call. cbn zeta.
  now destruct (rejects env (now st) _).
Qed.
End ShortCodes.

(** C5. A recognized code that is empty or shorter than four units is
    handled exactly as a failure of the recognition request: in both cases
    the attempt takes the screenshot named after the attempt, makes no
    other request (so neither fills nor submits), and goes on to the next
    iteration.  In every run, whatever is filled into the CAPTCHA input is
    non-empty and at least four units long. *)
Theorem short_code_is_failed_attempt (env : Env) (attempt : nat)
    (code message : jsstring) (st : State) :
  (length code < 4)%nat ->
  let shot := Screenshot (utf16 "captcha_failed_" ++ String_ (Z.of_nat attempt)
                          ++ utf16 ".png") in
  after_recognition env attempt (Ok code) st
    = after_recognition env attempt (Throw message) st
  /\ trace (fst (after_recognition env attempt (Ok code) st)) = trace st ++ [shot]
  /\ (rejects env (now st) shot = None ->
      snd (after_recognition env attempt (Ok code) st) = Ok Continue)
  /\ (forall files filled,
        In (Fill sel_captcha_input filled)
           (trace (final (main env (initial files)))) ->
        filled <> [] /\ (4 <= length filled)%nat).
Proof.
  intros Hlen. cbn zeta.
  assert (G : negb (truthy code) || (length code <? 4)%nat = true).
  { apply orb_true_iff. right. now apply Nat.ltb_lt. }
  unfold after_recognition. rewrite G, failed_attempt_eq. cbn zeta.
  split; [reflexivity|].
  split; [now destruct (rejects env (now st) _)|].
  split; [now intros ->|].
  apply main_fills_plausible.
Qed.

Lemma short_code_is_failed_attempt_witness :
  (length (utf16 "12") < 4)%nat
  /\ after_recognition env_unrecognized 2 (Ok (utf16 "12")) (initial ∅)
     = after_recognition env_unrecognized 2 (Throw (utf16 "ECONNRESET")) (initial ∅)
  /\ snd (after_recognition env_unrecognized 2 (Ok (utf16 "12")) (initial ∅))
     = Ok Continue.
Proof.
  assert (H : (length (utf16 "12") < 4)%nat) by (vm_compute; lia).
  destruct (short_code_is_failed_attempt env_unrecognized 2 (utf16 "12")
              (utf16 "ECONNRESET") (initial ∅) H) as (A & _ & B & _).
  split; [exact H|]. split; [exact A | exact (B eq_refl)].
Defined.

(** C9, as the script has it.  When the probe of an iteration finds no
    inline image, the page content is read for no_captcha.html.  When that
    reading is not rejected, the loop ends at once with [solved = true]: the
    only requests are the probe and the reading of the page, no further
    iteration runs, and the resolver returns without an error.  When it is
    rejected, the rejection is the resolver's error: the loop ends there
    and the resolver throws it. *)
Theorem no_captcha_solves_at_once (env : Env) (remaining attempt : nat)
    (st : State) :
  rejects env (now st) QueryCaptchaImg = None ->
  captcha_img env (now st) = None ->
  (rejects env (S (now st)) ReadContent = None ->
   let st' :=
     {| fs := <[utf16 "no_captcha.html" := content env (S (now st))]> (fs st);
        trace := trace st ++ [QueryCaptchaImg; ReadContent];
        now := S (S (now st));
        lastExpireDate := lastExpireDate st;
        infoMessage := infoMessage st;
        scriptErrorMessage := scriptErrorMessage st |} in
   captcha_loop env (S remaining) attempt st = (st', Ok true)
   /\ solve_captcha env st = (st', Ok tt))
  /\ (forall message,
        rejects env (S (now st)) ReadContent = Some message ->
        let st' := tick_event ReadContent (tick_event QueryCaptchaImg st) in
        captcha_loop env (S remaining) attempt st = (st', Throw message)
        /\ solve_captcha env st = (st', Throw message)).
Proof.
  intros Hq Hi.
  assert (L : forall n a b, captcha_loop env (S n) a st
                            = match captcha_attempt env b st with
                              | (s, Ok Break) => (s, Ok true)
                              | (s, Ok Continue) => captcha_loop env n (S a) s
                              | (s, Throw e) => (s, Throw e)
                              end).
  { intros n a b. cbn [captcha_loop]. unfold bind.
    replace (captcha_attempt env a st) with (captcha_attempt env b st)
      by (unfold captcha_attempt, bind, call; now rewrite Hq, Hi).
    destruct (captcha_attempt env b st) as [s [[|]|e]]; reflexivity. }
  split.
  - intros Hc. cbn zeta.
    assert (A : captcha_attempt env attempt st =
                ({| fs := <[utf16 "no_captcha.html" := content env (S (now st))]> (fs st);
                    trace := trace st ++ [QueryCaptchaImg; ReadContent];
                    now := S (S (now st));
                    lastExpireDate := lastExpireDate st;
                    infoMessage := infoMessage st;
                    scriptErrorMessage := scriptErrorMessage st |}, Ok Break)).
    { unfold captcha_attempt, bind, call. rewrite Hq, Hi.
      cbn [tick_event now]. rewrite Hc.
      unfold writeFileSync, ret. cbn [tick_event fs trace now lastExpireDate
                                      infoMessage scriptErrorMessage].
      now rewrite <- app_assoc. }
    split.
    + now rewrite (L remaining attempt attempt), A.
    + unfold solve_captcha, bind, maxCaptchaTries.
      now rewrite (L 2%nat 1%nat attempt), A.
  - intros message Hc. cbn zeta.
    assert (A : captcha_attempt env attempt st
                = (tick_event ReadContent (tick_event QueryCaptchaImg st),
                   Throw message)).
    { unfold captcha_attempt, bind, call. rewrite Hq, Hi.
      cbn [tick_event now]. now rewrite Hc. }
    split.
    + now rewrite (L remaining attempt attempt), A.
    + unfold solve_captcha, bind, maxCaptchaTries.
      now rewrite (L 2%nat 1%nat attempt), A.
Qed.

Lemma no_captcha_solves_at_once_witness :
  (rejects env_renewed 0 QueryCaptchaImg = None
   /\ captcha_img env_renewed 0 = None
   /\ rejects env_renewed 1 ReadContent = None)
  /\ snd (captcha_loop env_renewed 2 2 (initial ∅)) = Ok true
  /\ snd (solve_captcha env_renewed (initial ∅)) = Ok tt.
Proof.
  destruct (no_captcha_solves_at_once env_renewed 1 2 (initial ∅) eq_refl eq_refl)
    as [A _].
  destruct (A eq_refl) as [A1 A2].
  split; [repeat split|]. split; [now rewrite A1 | now rewrite A2].
Defined.

(** The claim as the specification states it fails: on an attempt that
    finds no image the resolver can raise an error, the rejection of the
    reading of the page content, and the run then ends in [Error]. *)
Lemma no_captcha_content_rejected_counterexample :
  let env := env_content_rejected in
  let st1 := fst (open_renewal env (fst (read_persisted (initial ∅)))) in
  rejects env (now st1) QueryCaptchaImg = None
  /\ captcha_img env (now st1) = None
  /\ snd (solve_captcha env st1) = Throw (utf16 "Execution context was destroyed")
  /\ outcome (main env (initial ∅)) = Error
  /\ ~ (captcha_img env (now st1) = None ->
        exists st', solve_captcha env st1 = (st', Ok tt)).
Proof.
  cbn zeta.
  assert (T : snd (solve_captcha env_content_rejected
                     (fst (open_renewal env_content_rejected
                             (fst (read_persisted (initial ∅))))))
              = Throw (utf16 "Execution context was destroyed"))
    by (vm_compute; reflexivity).
  split; [reflexivity|]. split; [reflexivity|]. split; [exact T|].
  split; [vm_compute; reflexivity|].
  intros H. destruct (H eq_refl) as [st' E]. rewrite E in T. discriminate T.
Qed.

(** ** The "too early" page *)

Section TooEarly.
Variable env : Env.

Lemma open_renewal_vars_kept : preserves vars_kept (open_renewal env).
Proof. frame; side. Qed.

Lemma solve_captcha_vars_kept : preserves vars_kept (solve_captcha env).
Proof. frame; side. Qed.

Lemma after_captcha_too_early currentExpireDate st :
  rejects env (now st) ReadBodyText = None ->
  includes (body_text env (now st)) too_early_marker = true ->
  after_captcha env currentExpireDate st =
  not_yet_eligible env (body_text env (now st)) currentExpireDate
    (tick_event ReadBodyText st).
Proof.
  intros Hr Hi. unfold after_captcha, bind, call. now rewrite Hr, Hi.
Qed.

Lemma main_workflow_returns st st1 o :
  workflow env st = (st1, Ok o) ->
  outcome (main env st) = o
  /\ scriptErrorMessage (final (main env st)) = scriptErrorMessage st1.
Proof.
  intros H. rewrite main_eq, H. cbn zeta. cbn [fst snd outcome final].
  split; [reflexivity|]. now destruct (cleanup_vars_kept env st1) as [_ ->].
Qed.
End TooEarly.

(** C2, as the script has it.  The workflow runs the CAPTCHA loop first and
    inspects the text of the page the loop leaves for the "too early"
    marker afterwards.  When the marker is there, the workflow makes no
    further request: it sets the not-yet-eligible message, which carries the
    eligible date extracted from the text (formatted) and the expiration
    date retained from before the renewal was started, and returns
    [NotYetEligible]; the run ends without an error message and with
    expire.txt untouched. *)
Theorem marker_checked_after_captcha (env : Env) (files : gmap jsstring jsstring)
    (currentExpireDate : jsstring) :
  let st0 := fst (read_persisted (initial files)) in
  let st1 := fst (open_renewal env st0) in
  let st2 := fst (solve_captcha env st1) in
  let bodyText := body_text env (now st2) in
  let renewAvailableDate :=
    match re_match re_available_from bodyText with
    | Some (_, m) => formatChineseDate (group 1 m)
    | None => []
    end in
  snd (open_renewal env st0) = Ok currentExpireDate ->
  snd (solve_captcha env st1) = Ok tt ->
  rejects env (now st2) ReadBodyText = None ->
  includes bodyText too_early_marker = true ->
  workflow env (initial files) =
    ({| fs := fs st2; trace := trace st2 ++ [ReadBodyText];
        now := S (S (now st2)); lastExpireDate := lastExpireDate st2;
        infoMessage := notYetMessage renewAvailableDate currentExpireDate
                         (beijing_time env (S (now st2)));
        scriptErrorMessage := scriptErrorMessage st2 |}, Ok NotYetEligible)
  /\ outcome (main env (initial files)) = NotYetEligible
  /\ scriptErrorMessage (final (main env (initial files))) = []
  /\ fs (final (main env (initial files))) !! expireDateFile
     = files !! expireDateFile.
Proof.
  cbn zeta. intros Ho Hs Hr Hi.
  match goal with |- ?lhs = ?rhs /\ _ => assert (W : lhs = rhs) end.
  { rewrite workflow_eq. unfold bind at 1.
    destruct (open_renewal env (fst (read_persisted (initial files)))) as [st1 r1].
    cbn [fst snd] in *. subst r1. unfold bind at 1.
    destruct (solve_captcha env st1) as [st2 r2]. cbn [fst snd] in *. subst r2.
    rewrite (after_captcha_too_early env _ _ Hr Hi), not_yet_eligible_eq.
    reflexivity. }
  split; [exact W|].
  destruct (main_workflow_returns env _ _ _ W) as [O E].
  split; [exact O|]. split.
  - rewrite E. cbn [scriptErrorMessage].
    destruct (solve_captcha_vars_kept env
                (fst (open_renewal env (fst (read_persisted (initial files))))))
      as [_ ->].
    destruct (open_renewal_vars_kept env (fst (read_persisted (initial files))))
      as [_ ->].
    now rewrite read_persisted_eq.
  - apply main_file_kept. rewrite O. discriminate.
Qed.

Lemma marker_checked_after_captcha_witness :
  let env := env_too_early_after_captcha in
  let files : gmap jsstring jsstring := ∅ in
  let st0 := fst (read_persisted (initial files)) in
  let st1 := fst (open_renewal env st0) in
  let st2 := fst (solve_captcha env st1) in
  (snd (open_renewal env st0) = Ok (utf16 "2025年09月07日")
   /\ snd (solve_captcha env st1) = Ok tt
   /\ rejects env (now st2) ReadBodyText = None
   /\ includes (body_text env (now st2)) too_early_marker = true)
  /\ outcome (main env (initial files)) = NotYetEligible
  /\ infoMessage (fst (workflow env (initial files)))
     = notYetMessage (utf16 "2025年09月06日") (utf16 "2025年09月07日")
         (utf16 "2025-08-06 09:00").
Proof.
  cbn zeta.
  assert (Ho : snd (open_renewal env_too_early_after_captcha
                      (fst (read_persisted (initial ∅))))
               = Ok (utf16 "2025年09月07日")) by (vm_compute; reflexivity).
  assert (Hs : snd (solve_captcha env_too_early_after_captcha
                      (fst (open_renewal env_too_early_after_captcha
                              (fst (read_persisted (initial ∅)))))) = Ok tt)
    by (vm_compute; reflexivity).
  assert (Hi : includes too_early_text too_early_marker = true)
    by (vm_compute; reflexivity).
  destruct (marker_checked_after_captcha env_too_early_after_captcha ∅
              (utf16 "2025年09月07日") Ho Hs eq_refl Hi) as (W & O & _).
  split; [repeat split; assumption|]. split; [exact O|].
  rewrite W. vm_compute. reflexivity.
Defined.

(** The claim as the specification states it fails: a run can end in
    [NotYetEligible] after the loop has recognized, filled in and submitted
    a code. *)
Lemma too_early_skips_captcha_counterexample :
  let r := main env_too_early_after_captcha (initial ∅) in
  ~ (outcome r = NotYetEligible ->
     count is_recognize (trace (final r)) = 0%nat
     /\ count is_captcha_fill (trace (final r)) = 0%nat
     /\ count is_continue_click (trace (final r)) = 0%nat).
Proof.
  cbn zeta. intros H.
  assert (O : outcome (main env_too_early_after_captcha (initial ∅)) = NotYetEligible)
    by (vm_compute; reflexivity).
  destruct (H O) as [A _]. vm_compute in A. discriminate A.
Qed.

(** ** The renewal scenario *)

(** C3, as the script has it.  With 2025-07-07 persisted and 2025年08月07日
    read after the renewal, formatting leaves the date in its zero-padded
    year/month/day form 2025年08月07日, the outcome is [Success], and
    expire.txt is overwritten with 2025年08月07日; so it is in the run of the
    scenario from login to cleanup. *)
Theorem scenario_renewed (env : Env) (st : State) :
  lastExpireDate st = utf16 "2025-07-07" ->
  let fresh := formatChineseDate (utf16 "2025年08月07日") in
  fresh = utf16 "2025年08月07日"
  /\ classify (lastExpireDate st) fresh = CSuccess
  /\ snd (record_outcome env fresh st) = Ok Success
  /\ fs (fst (record_outcome env fresh st)) !! expireDateFile
     = Some (utf16 "2025年08月07日")
  /\ (let r := main env_renewed (initial files_0707) in
      outcome r = Success
      /\ fs (final r) !! expireDateFile = Some (utf16 "2025年08月07日")).
Proof.
  intros Hl. cbn zeta.
  assert (F : formatChineseDate (utf16 "2025年08月07日") = utf16 "2025年08月07日")
    by (vm_compute; reflexivity).
  assert (C : classify (lastExpireDate st) (utf16 "2025年08月07日") = CSuccess)
    by (rewrite Hl; vm_compute; reflexivity).
  rewrite F, record_outcome_eq, C. cbn [fst snd fs].
  split; [reflexivity|]. split; [reflexivity|]. split; [reflexivity|].
  split; [apply lookup_insert_eq|].
  vm_compute. split; reflexivity.
Qed.

Lemma scenario_renewed_witness :
  let st := fst (read_persisted (initial files_0707)) in
  lastExpireDate st = utf16 "2025-07-07"
  /\ snd (record_outcome env_renewed (formatChineseDate (utf16 "2025年08月07日")) st)
     = Ok Success
  /\ fs (fst (record_outcome env_renewed
                (formatChineseDate (utf16 "2025年08月07日")) st)) !! expireDateFile
     = Some (utf16 "2025年08月07日").
Proof.
  cbn zeta.
  assert (H : lastExpireDate (fst (read_persisted (initial files_0707)))
              = utf16 "2025-07-07") by (vm_compute; reflexivity).
  destruct (scenario_renewed env_renewed _ H) as (_ & _ & A & B & _).
  split; [exact H|]. split; [exact A | exact B].
Defined.

(** The scenario as the specification states it fails: the formatted date
    and the content of expire.txt after the run are not 2025-08-07. *)
Lemma iso_date_in_file_counterexample :
  formatChineseDate (utf16 "2025年08月07日") <> utf16 "2025-08-07"
  /\ fs (final (main env_renewed (initial files_0707))) !! expireDateFile
     <> Some (utf16 "2025-08-07").
Proof. vm_compute. split; discriminate. Qed.

(** ** The next renewal date *)




(** It also fails where the host's zone skips the day before: in Apia
    30 December 2011 does not exist, and setting the day of the month to 30
    on 31 December leads back to 31 December. *)
Example next_renew_skipped_day :
  Calendar.valid_date 2011 12 31
  /\ getNextRenewAvailableDate apia_2011 (utf16 "2011年12月31日")
     = utf16 "2011年12月31日"
  /\ getNextRenewAvailableDate JSDate.utc (utf16 "2011年12月31日")
     = utf16 "2011年12月30日".
Proof.
  split; [vm_compute; intuition discriminate|].
  vm_compute. split; reflexivity.
Qed.

(** ** Examples *)

Example utf16_date_units :
  utf16 "年月日" = [c_nian; c_yue; c_ri] /\ utf16 "0" = [c_zero].
Proof. vm_compute. auto. Qed.

Example formatChineseDate_doc :
  formatChineseDate (utf16 "2025年7月7日") = utf16 "2025年07月07日".
Proof. vm_compute. reflexivity. Qed.

Example formatChineseDate_embedded :
  formatChineseDate (utf16 "期限: 2025年12月7日 まで") = utf16 "2025年12月07日".
Proof. vm_compute. reflexivity. Qed.

Example formatChineseDate_empty : formatChineseDate [] = utf16 "未知".
Proof. vm_compute. reflexivity. Qed.

Example formatChineseDate_other :
  formatChineseDate (utf16 "2025-07-07") = utf16 "2025-07-07".
Proof. vm_compute. reflexivity. Qed.

Example String_examples :
  String_ 2025 = utf16 "2025" /\ String_ 0 = utf16 "0" /\ String_ 7 = utf16 "7".
Proof. vm_compute. auto. Qed.

Example next_renew_march :
  getNextRenewAvailableDate JSDate.utc (utf16 "2025年03月01日") = utf16 "2025年02月28日".
Proof. vm_compute. reflexivity. Qed.

Example next_renew_new_year :
  getNextRenewAvailableDate JSDate.utc (utf16 "2025年01月01日") = utf16 "2024年12月31日".
Proof. vm_compute. reflexivity. Qed.

Example next_renew_leap_year :
  getNextRenewAvailableDate JSDate.utc (utf16 "2024年03月01日") = utf16 "2024年02月29日".
Proof. vm_compute. reflexivity. Qed.

Example next_renew_unpadded :
  getNextRenewAvailableDate JSDate.utc (utf16 "2025年7月7日") = utf16 "未知".
Proof. vm_compute. reflexivity. Qed.

Example next_renew_year_1000 :
  getNextRenewAvailableDate JSDate.utc (utf16 "1000年01月01日") = utf16 "999年12月31日".
Proof. vm_compute. reflexivity. Qed.

Example find_expiration_row :
  find_expiration [(utf16 "契約状況", utf16 "利用中");
                   (utf16 "利用期限", utf16 "2025年 8月 7日 まで")]
  = utf16 "2025年8月7日".
Proof. vm_compute. reflexivity. Qed.

Example available_from_match :
  re_match re_available_from too_early_text
  = Some (utf16 "2025年09月06日以降にお試しください", [utf16 "2025年09月06日"]).
Proof. vm_compute. reflexivity. Qed.

(** The four ways a run ends. *)
Example run_success :
  outcome (main env_renewed (initial files_0707)) = Success.
Proof. vm_compute. reflexivity. Qed.

Example run_unchanged :
  let files : gmap jsstring jsstring := {[ expireDateFile := utf16 "2025年08月07日" ]} in
  let r := main env_renewed (initial files) in
  outcome r = Unchanged
  /\ fs (final r) !! expireDateFile = Some (utf16 "2025年08月07日").
Proof. vm_compute. auto. Qed.

Example run_not_yet_eligible :
  outcome (main env_too_early (initial ∅)) = NotYetEligible.
Proof. vm_compute. reflexivity. Qed.

Example run_error :
  let r := main env_unrecognized (initial ∅) in
  outcome r = Error
  /\ scriptErrorMessage (final r)
     = errorMessage captcha_fatal (utf16 "2025-08-06 09:00")
  /\ count is_telegram_post (trace (final r)) = 1%nat.
Proof. vm_compute. auto. Qed.

(** An unreadable date after the renewal is formatted as 未知, which the
    three-way test takes for a date. *)
Example run_unreadable_date :
  let env := scenario no_rejection (fun _ => []) (fun _ => None) (fun _ => [])
               (fun _ => utf16 "更新手続きが完了しました") in
  let r := main env (initial files_0707) in
  outcome r = Success /\ fs (final r) !! expireDateFile = Some (utf16 "未知").
Proof. vm_compute. auto. Qed.

(* ===================================================================== *)
(** * Further properties of the script *)
(* ===================================================================== *)

(** ** Formatting of dates *)

Lemma is_digit_separators :
  is_digit c_nian = false /\ is_digit c_yue = false /\ is_digit c_ri = false.
Proof. vm_compute. auto. Qed.

Ltac run_match_sep :=
  repeat (exec_simpl;
          repeat match goal with
                 | E : is_digit ?c = true |- context [is_digit ?c] => rewrite E
                 end;
          rewrite ?N.eqb_refl,
            ?(proj1 is_digit_separators),
            ?(proj1 (proj2 is_digit_separators)),
            ?(proj2 (proj2 is_digit_separators)));
  cbn [length app Nat.sub];
  rewrite ?Nat.sub_succ_l, ?Nat.sub_diag by lia; cbn [take]; rewrite ?take_0.

(** The pattern of [formatChineseDate] on a date at the head of the input,
    for months and days of one or two digits. *)
Lemma match_at_loose_date y mo d rest :
  length y = 4%nat -> is_digits y ->
  (length mo = 1 \/ length mo = 2)%nat -> is_digits mo ->
  (length d = 1 \/ length d = 2)%nat -> is_digits d ->
  match_at re_date_loose (y ++ [c_nian] ++ mo ++ [c_yue] ++ d ++ [c_ri] ++ rest)
  = Some (y ++ [c_nian] ++ mo ++ [c_yue] ++ d ++ [c_ri], [y; mo; d]).
Proof.
  unfold is_digits. intros Ly Dy Lmo Dmo Ld Dd.
  destruct y as [|a [|b [|c [|e [|? ?]]]]]; try discriminate Ly.
  destruct Lmo as [Lmo|Lmo]; destruct Ld as [Ld|Ld];
    destruct mo as [|f [|g [|? ?]]]; try discriminate Lmo;
    destruct d as [|h [|i [|? ?]]]; try discriminate Ld;
    repeat match goal with
           | H : Forall _ (_ :: _) |- _ => apply Forall_cons_1 in H; destruct H
           end;
    unfold match_at, re_date_loose; cbn [app]; run_match_sep; reflexivity.
Qed.

Lemma short_number_checked :
  forallb short_number_ok (map Z.of_nat (seq (Z.to_nat 0) (Z.to_nat 100))) = true.
Proof. vm_compute. reflexivity. Qed.

Lemma short_number n :
  (0 <= n <= 99)%Z ->
  (length (String_ n) = 1 \/ length (String_ n) = 2)%nat
  /\ is_digits (String_ n)
  /\ is_digits (padStart 2 c_zero (String_ n))
  /\ length (padStart 2 c_zero (String_ n)) = 2%nat
  /\ Number (padStart 2 c_zero (String_ n)) = n.
Proof.
  intros H.
  assert (K : short_number_ok n = true)
    by (apply (range_forallb _ 0 100 short_number_checked); lia).
  unfold short_number_ok in K. unfold is_digits.
  destruct (String_ n) as [|a [|b [|? ?]]]; try discriminate K.
  - rewrite andb_true_iff in K. destruct K as [Da K]. apply Z.eqb_eq in K.
    cbn [length padStart Nat.sub repeat app].
    repeat split; auto; repeat constructor; auto.
  - rewrite !andb_true_iff in K. destruct K as [[Da Db] K]. apply Z.eqb_eq in K.
    cbn [length padStart Nat.sub repeat app].
    repeat split; auto; repeat constructor; auto.
Qed.

Lemma formatChineseDate_unpadded_eq y m d :
  (1000 <= y <= 9999)%Z -> (0 <= m <= 99)%Z -> (0 <= d <= 99)%Z ->
  formatChineseDate (unpadded_date y m d) = Calendar.chinese_date y m d.
Proof.
  intros Hy Hm Hd.
  destruct (year_digits y Hy) as (a & b & c & e & Ey & _ & Da & Db & Dc & De).
  destruct (short_number m Hm) as (Lm & Dm & _).
  destruct (short_number d Hd) as (Ld & Dd & _).
  assert (Dy : is_digits (String_ y))
    by (rewrite Ey; unfold is_digits; repeat constructor; assumption).
  assert (Ly : length (String_ y) = 4%nat) by now rewrite Ey.
  pose proof (match_at_loose_date _ _ _ [] Ly Dy Lm Dm Ld Dd) as M.
  rewrite !app_nil_r in M.
  unfold formatChineseDate, unpadded_date, Calendar.chinese_date.
  assert (R : re_match re_date_loose
                (String_ y ++ [c_nian] ++ String_ m ++ [c_yue] ++ String_ d ++ [c_ri])
              = Some (String_ y ++ [c_nian] ++ String_ m ++ [c_yue] ++ String_ d ++ [c_ri],
                      [String_ y; String_ m; String_ d])).
  { rewrite Ey in *. cbn [app re_match] in *. now rewrite M. }
  rewrite R. cbn [group nth Nat.sub].
  now rewrite (padStart_full 4 c_zero (String_ y)) by lia.
Qed.

(** X1. Whatever the input, [formatChineseDate] does not return the empty
    string; when the date pattern occurs in the input, the result is the
    eleven units YYYY年MM月DD日 of the first occurrence, whatever surrounds
    it, and the zero-padded pattern of [getNextRenewAvailableDate] matches
    the result from its first unit. *)
Theorem formatted_date_is_canonical (dateStr : jsstring) :
  formatChineseDate dateStr <> []
  /\ (is_Some (re_match re_date_loose dateStr) ->
      length (formatChineseDate dateStr) = 11%nat
      /\ exists caps, match_at re_date_padded (formatChineseDate dateStr)
                      = Some (formatChineseDate dateStr, caps)).
Proof.
  split; [apply formatChineseDate_nonempty|].
  intros [[m0 caps] E].
  destruct (formatChineseDate_matched _ _ _ E)
    as (a&b&c&e&f&g&h&i&->&?&?&?&?&?&?&?&?).
  split; [reflexivity|]. eexists. now apply match_at_padded_padded.
Qed.

Lemma formatted_date_is_canonical_witness :
  is_Some (re_match re_date_loose (utf16 "期限: 2025年8月7日 まで"))
  /\ length (formatChineseDate (utf16 "期限: 2025年8月7日 まで")) = 11%nat.
Proof.
  assert (H : is_Some (re_match re_date_loose (utf16 "期限: 2025年8月7日 まで")))
    by (vm_compute; eauto).
  split; [exact H|].
  exact (proj1 (proj2 (formatted_date_is_canonical _) H)).
Defined.

(** X2. A year of four digits followed by a month and a day written with
    one or two digits is formatted to the same date with month and day
    padded to two digits: the numbers are kept, only zeros are added. *)
Theorem formatChineseDate_pads (y m d : Z) :
  (1000 <= y <= 9999)%Z -> (0 <= m <= 99)%Z -> (0 <= d <= 99)%Z ->
  formatChineseDate (unpadded_date y m d) = Calendar.chinese_date y m d.
Proof. apply formatChineseDate_unpadded_eq. Qed.

Lemma formatChineseDate_pads_witness :
  ((1000 <= 2025 <= 9999)%Z /\ (0 <= 8 <= 99)%Z /\ (0 <= 7 <= 99)%Z)
  /\ formatChineseDate (utf16 "2025年8月7日") = utf16 "2025年08月07日".
Proof.
  assert (Hy : (1000 <= 2025 <= 9999)%Z) by lia.
  assert (Hm : (0 <= 8 <= 99)%Z) by lia.
  assert (Hd : (0 <= 7 <= 99)%Z) by lia.
  split; [auto|]. exact (formatChineseDate_pads 2025 8 7 Hy Hm Hd).
Defined.

(** X3. On a host whose time zone has no transitions, for a valid
    calendar date with a year from 1001 to 9999 written without padding, as
    the panel may show it, the date the success message names as next
    renewal date, [getNextRenewAvailableDate] of the formatted date, is the
    zero-padded day before. *)
Theorem next_renew_date_of_page_date (z : JSDate.Zone) (y m d : Z) :
  JSDate.fixed_offset z ->
  (1001 <= y <= 9999)%Z -> Calendar.valid_date y m d ->
  getNextRenewAvailableDate z (formatChineseDate (unpadded_date y m d))
  = let '(y', m', d') := Calendar.prev_day y m d in Calendar.chinese_date y' m' d'.
Proof.
  intros F Hy V. destruct (valid_date_bounds _ _ _ V) as [Hm Hd].
  rewrite formatChineseDate_unpadded_eq by lia.
  now apply getNextRenewAvailableDate_valid.
Qed.

Lemma next_renew_date_of_page_date_witness :
  (JSDate.fixed_offset (JSDate.fixed_zone 32400000)
   /\ (1001 <= 2025 <= 9999)%Z /\ Calendar.valid_date 2025 3 1)
  /\ getNextRenewAvailableDate (JSDate.fixed_zone 32400000)
       (formatChineseDate (unpadded_date 2025 3 1))
     = (let '(y', m', d') := Calendar.prev_day 2025 3 1 in
        Calendar.chinese_date y' m' d').
Proof.
  assert (Hz : JSDate.fixed_offset (JSDate.fixed_zone 32400000))
    by (exists 32400000%Z; reflexivity).
  assert (Hy : (1001 <= 2025 <= 9999)%Z) by lia.
  assert (Hv : Calendar.valid_date 2025 3 1) by (vm_compute; intuition discriminate).
  split; [auto|].
  exact (next_renew_date_of_page_date (JSDate.fixed_zone 32400000) 2025 3 1 Hz Hy Hv).
Defined.

(** X4. In main.mjs the date read after the renewal reaches the three-way
    test formatted, hence non-empty: the test never takes its last branch,
    the "date not found" error is never thrown, and a date that could not
    be read (the empty string, formatted to 未知) is recorded as [Success]
    or [Unchanged]. *)
Theorem date_not_found_is_never_thrown (env : Env) (newExpireDateRaw : jsstring)
    (st : State) :
  classify (lastExpireDate st) (formatChineseDate newExpireDateRaw) <> CFatal
  /\ (snd (record_outcome env (formatChineseDate newExpireDateRaw) st) = Ok Success
      \/ snd (record_outcome env (formatChineseDate newExpireDateRaw) st) = Ok Unchanged)
  /\ formatChineseDate [] = utf16 "未知".
Proof.
  assert (N : classify (lastExpireDate st) (formatChineseDate newExpireDateRaw) <> CFatal).
  { intros C. apply classify_fatal in C. now apply formatChineseDate_nonempty in C. }
  split; [exact N|]. split; [|vm_compute; reflexivity].
  rewrite record_outcome_eq.
  destruct (classify (lastExpireDate st) (formatChineseDate newExpireDateRaw));
    cbn [snd]; auto. contradiction.
Qed.

(** ** Reading the expiration date from the page *)

(** A match of the pattern of [getExpirationDate]: a year of four digits,
    a month and a day of one or two. *)
Lemma match_at_plain_shape s m0 caps :
  match_at re_date_plain s = Some (m0, caps) ->
  exists y mo d,
    m0 = y ++ [c_nian] ++ mo ++ [c_yue] ++ d ++ [c_ri]
    /\ length y = 4%nat /\ is_digits y
    /\ (length mo = 1 \/ length mo = 2)%nat /\ is_digits mo
    /\ (length d = 1 \/ length d = 2)%nat /\ is_digits d.
Proof.
  unfold match_at, re_date_plain, is_digits. intros H.
  invert_match H.
  all: match goal with
       | |- exists _ _ _,
             [?a; ?b; ?c; ?d; c_nian; ?e; ?f; c_yue; ?g; ?h; c_ri] = _ /\ _ =>
           exists [a; b; c; d], [e; f], [g; h]
       | |- exists _ _ _,
             [?a; ?b; ?c; ?d; c_nian; ?e; ?f; c_yue; ?g; c_ri] = _ /\ _ =>
           exists [a; b; c; d], [e; f], [g]
       | |- exists _ _ _,
             [?a; ?b; ?c; ?d; c_nian; ?e; c_yue; ?g; ?h; c_ri] = _ /\ _ =>
           exists [a; b; c; d], [e], [g; h]
       | |- exists _ _ _,
             [?a; ?b; ?c; ?d; c_nian; ?e; c_yue; ?g; c_ri] = _ /\ _ =>
           exists [a; b; c; d], [e], [g]
       end.
  all: repeat split; try reflexivity; auto; repeat constructor; assumption.
Qed.

Lemma re_match_plain_shape s m0 caps :
  re_match re_date_plain s = Some (m0, caps) ->
  exists y mo d,
    m0 = y ++ [c_nian] ++ mo ++ [c_yue] ++ d ++ [c_ri]
    /\ length y = 4%nat /\ is_digits y
    /\ (length mo = 1 \/ length mo = 2)%nat /\ is_digits mo
    /\ (length d = 1 \/ length d = 2)%nat /\ is_digits d.
Proof.
  induction s as [|c s IH]; cbn [re_match];
    destruct (match_at re_date_plain _) as [[m1 caps1]|] eqn:E; intros H.
  - injection H as <- <-. eapply match_at_plain_shape; eassumption.
  - discriminate H.
  - injection H as <- <-. eapply match_at_plain_shape; eassumption.
  - auto.
Qed.

Lemma formatChineseDate_of_date y mo d :
  length y = 4%nat -> is_digits y ->
  (length mo = 1 \/ length mo = 2)%nat -> is_digits mo ->
  (length d = 1 \/ length d = 2)%nat -> is_digits d ->
  formatChineseDate (y ++ [c_nian] ++ mo ++ [c_yue] ++ d ++ [c_ri])
  = y ++ [c_nian] ++ padStart 2 c_zero mo ++ [c_yue] ++ padStart 2 c_zero d ++ [c_ri].
Proof.
  intros Ly Dy Lmo Dmo Ld Dd.
  pose proof (match_at_loose_date y mo d [] Ly Dy Lmo Dmo Ld Dd) as M.
  rewrite !app_nil_r in M. unfold formatChineseDate.
  assert (R : re_match re_date_loose (y ++ [c_nian] ++ mo ++ [c_yue] ++ d ++ [c_ri])
              = Some (y ++ [c_nian] ++ mo ++ [c_yue] ++ d ++ [c_ri], [y; mo; d])).
  { destruct y as [|a y']; [discriminate Ly|]. cbn [app re_match] in *. now rewrite M. }
  now rewrite R.
Qed.

Lemma is_digit_not_space c : is_digit c = true -> is_space c = false.
Proof.
  unfold is_digit, is_space. intros H. apply andb_prop in H as [L U].
  apply N.leb_le in L. apply N.leb_le in U.
  repeat match goal with
         | |- context [(c =? ?k)] =>
             replace (c =? k) with false by (symmetry; apply N.eqb_neq; lia)
         end.
  replace (c <=? 13) with false by (symmetry; apply N.leb_gt; lia).
  replace (0x2000 <=? c) with false by (symmetry; apply N.leb_gt; lia).
  now rewrite andb_false_r.
Qed.

Lemma find_expiration_skips pre rows :
  Forall (fun row => fst row <> label_expiration) pre ->
  find_expiration (pre ++ rows) = find_expiration rows.
Proof.
  induction 1 as [|[th td] pre H _ IH]; [reflexivity|].
  cbn [app find_expiration fst] in *.
  apply str_eqb_neq in H. unfold label_expiration in H. now rewrite H.
Qed.

Lemma find_expiration_label td rest :
  find_expiration ((label_expiration, td) :: rest) =
  match re_match re_date_plain (remove_spaces td) with
  | Some (m0, _) => m0
  | None => td
  end.
Proof.
  cbn [find_expiration].
  assert (E : str_eqb label_expiration (utf16 "利用期限") = true)
    by now apply str_eqb_eq.
  now rewrite E.
Qed.

(** X5. [getExpirationDate] never rejects: it makes one request to the
    page and returns a string in every case, the empty string when that
    request is rejected and when no row of the table carries the label
    利用期限. *)
Theorem getExpirationDate_never_rejects (env : Env) (st : State) :
  fst (getExpirationDate env st) = tick_event ReadThTd st
  /\ (exists date, snd (getExpirationDate env st) = Ok date)
  /\ (rejects env (now st) ReadThTd <> None ->
      snd (getExpirationDate env st) = Ok [])
  /\ (Forall (fun row => fst row <> label_expiration) (th_td env (now st)) ->
      snd (getExpirationDate env st) = Ok []).
Proof.
  unfold getExpirationDate, bind, try_, call.
  destruct (rejects env (now st) ReadThTd) as [message|]; cbn [fst snd].
  - repeat split; eauto.
  - split; [reflexivity|]. split; [eauto|]. split; [congruence|].
    intros H. pose proof (find_expiration_skips _ [] H) as E.
    rewrite app_nil_r in E. now rewrite E.
Qed.

(** X6. The first row labelled 利用期限 decides what [getExpirationDate]
    extracts: rows before it with other labels and all rows after it play
    no part.  From that row it takes the first date of the cell text with
    white space removed, and the cell text as it is when there is none. *)
Theorem first_labelled_row_decides
    (pre post : list (jsstring * jsstring)) (td : jsstring) :
  Forall (fun row => fst row <> label_expiration) pre ->
  find_expiration (pre ++ (label_expiration, td) :: post)
  = match re_match re_date_plain (remove_spaces td) with
    | Some (m0, _) => m0
    | None => td
    end.
Proof.
  intros H. rewrite (find_expiration_skips _ _ H). apply find_expiration_label.
Qed.

Lemma first_labelled_row_decides_witness :
  Forall (fun row => fst row <> label_expiration) [(utf16 "契約状況", utf16 "利用中")]
  /\ find_expiration [(utf16 "契約状況", utf16 "利用中");
                      (label_expiration, utf16 "2025年 8月 7日 まで");
                      (label_expiration, utf16 "2030年1月1日")]
     = utf16 "2025年8月7日".
Proof.
  assert (H : Forall (fun row => fst row <> label_expiration)
                [(utf16 "契約状況", utf16 "利用中")]).
  { repeat constructor. cbn [fst]. intros E. vm_compute in E. discriminate E. }
  split; [exact H|].
  exact (first_labelled_row_decides _ [(label_expiration, utf16 "2030年1月1日")]
           (utf16 "2025年 8月 7日 まで") H).
Defined.

(** X7. When the cell of the 利用期限 row holds a date, what
    [getExpirationDate] extracts is that date alone: four digits, 年, one or
    two digits, 月, one or two digits, 日, with no white space; formatting
    it pads month and day to two digits and keeps the digits. *)
Theorem extracted_date_formats (td m0 : jsstring) (caps : list jsstring)
    (rest : list (jsstring * jsstring)) :
  re_match re_date_plain (remove_spaces td) = Some (m0, caps) ->
  find_expiration ((label_expiration, td) :: rest) = m0
  /\ Forall (fun c => is_space c = false) m0
  /\ exists y mo d,
       m0 = y ++ [c_nian] ++ mo ++ [c_yue] ++ d ++ [c_ri]
       /\ length y = 4%nat /\ is_digits y /\ is_digits mo /\ is_digits d
       /\ formatChineseDate m0
          = y ++ [c_nian] ++ padStart 2 c_zero mo ++ [c_yue]
              ++ padStart 2 c_zero d ++ [c_ri]
       /\ length (formatChineseDate m0) = 11%nat.
Proof.
  intros H. split; [now rewrite find_expiration_label, H|].
  destruct (re_match_plain_shape _ _ _ H)
    as (y & mo & d & -> & Ly & Dy & Lmo & Dmo & Ld & Dd).
  split.
  - unfold is_digits in *.
    repeat (apply Forall_app; split);
      try (eapply Forall_impl; [eassumption | apply is_digit_not_space]);
      repeat constructor.
  - exists y, mo, d.
    rewrite (formatChineseDate_of_date y mo d Ly Dy Lmo Dmo Ld Dd).
    repeat split; auto.
    rewrite !length_app, Ly. unfold padStart. rewrite !length_app, !repeat_length.
    cbn [length]. lia.
Qed.

Lemma extracted_date_formats_witness :
  re_match re_date_plain (remove_spaces (utf16 "2025年 8月 7日 まで"))
  = Some (utf16 "2025年8月7日", [])
  /\ find_expiration [(label_expiration, utf16 "2025年 8月 7日 まで")]
     = utf16 "2025年8月7日".
Proof.
  assert (H : re_match re_date_plain (remove_spaces (utf16 "2025年 8月 7日 まで"))
              = Some (utf16 "2025年8月7日", [])) by (vm_compute; reflexivity).
  split; [exact H|]. exact (proj1 (extracted_date_formats _ _ _ [] H)).
Defined.

(** ** Notification and upload *)

Lemma app_nonempty_l (a b : jsstring) : a <> [] -> a ++ b <> [].
Proof. destruct a; [congruence | discriminate]. Qed.

Lemma sendTelegramMessage_eq env message st :
  sendTelegramMessage env message st =
  (if chat_configured env then tick_event (TelegramPost message) st else st, Ok tt).
Proof.
  unfold sendTelegramMessage, chat_configured.
  destruct (truthy (TG_BOT_TOKEN env)), (truthy (TG_CHAT_ID env));
    cbn [negb orb andb]; try reflexivity.
  unfold bind, try_, call_, call.
  now destruct (rejects env (now st) (TelegramPost message)).
Qed.

(** X8. [sendTelegramMessage] never rejects.  Without a bot token or a
    chat id it does nothing; with both it makes exactly one request, which
    carries the message unchanged, and a failure of that request is
    swallowed. *)
Theorem sendTelegramMessage_is_best_effort (env : Env) (message : jsstring)
    (st : State) :
  snd (sendTelegramMessage env message st) = Ok tt
  /\ (TG_BOT_TOKEN env = [] \/ TG_CHAT_ID env = [] ->
      fst (sendTelegramMessage env message st) = st)
  /\ (TG_BOT_TOKEN env <> [] -> TG_CHAT_ID env <> [] ->
      fst (sendTelegramMessage env message st)
      = tick_event (TelegramPost message) st).
Proof.
  rewrite sendTelegramMessage_eq. unfold chat_configured. cbn [fst snd].
  split; [reflexivity|]. split.
  - intros [-> | ->]; cbn [truthy andb]; [reflexivity|].
    now rewrite andb_false_r.
  - intros Ht Hc. apply truthy_nonempty in Ht, Hc. now rewrite Ht, Hc.
Qed.

Lemma uploadToWebDAV_unconfigured env localFile remoteFile st :
  webdav_configured env = false ->
  uploadToWebDAV env localFile remoteFile st = (st, Ok []).
Proof.
  unfold webdav_configured, uploadToWebDAV. intros H.
  destruct (truthy (WEBDAV_URL env)), (truthy (WEBDAV_USERNAME env)),
    (truthy (WEBDAV_PASSWORD env)); cbn [negb orb andb] in H |- *;
    try discriminate H; reflexivity.
Qed.

Lemma uploadToWebDAV_configured env localFile remoteFile st :
  webdav_configured env = true ->
  exists url message,
    uploadToWebDAV env localFile remoteFile st
    = (tick_event (WebdavPut url) st, Ok message)
    /\ message <> [].
Proof.
  unfold webdav_configured, uploadToWebDAV. intros H.
  destruct (truthy (WEBDAV_URL env)), (truthy (WEBDAV_USERNAME env)),
    (truthy (WEBDAV_PASSWORD env)); cbn [andb] in H; try discriminate H.
  cbn [negb orb]. eexists.
  unfold bind, try_, call, ret, throw.
  destruct (rejects env (now st) _) as [message|]; cbn [fst snd].
  - eexists. split; [reflexivity|]. apply app_nonempty_l. vm_compute. discriminate.
  - destruct (response_ok env (now st)); eexists; (split; [reflexivity|]);
      apply app_nonempty_l; vm_compute; discriminate.
Qed.

(** X9. Called for a local file that exists, as the script calls it after
    [fs.existsSync], [uploadToWebDAV] never rejects.  When the URL, the user
    name or the password is missing it makes no request and returns the
    empty string; otherwise it makes exactly one PUT request and returns a
    non-empty status text, also when the request is rejected or answered
    with an error status.  So its result is empty exactly when WebDAV is not
    configured. *)
Theorem uploadToWebDAV_is_best_effort (env : Env) (localFile remoteFile : jsstring)
    (st : State) :
  (exists message, snd (uploadToWebDAV env localFile remoteFile st) = Ok message)
  /\ (webdav_configured env = false ->
      uploadToWebDAV env localFile remoteFile st = (st, Ok []))
  /\ (webdav_configured env = true ->
      exists url message,
        uploadToWebDAV env localFile remoteFile st
        = (tick_event (WebdavPut url) st, Ok message)
        /\ message <> []).
Proof.
  split; [|split].
  - destruct (webdav_configured env) eqn:E.
    + destruct (uploadToWebDAV_configured env localFile remoteFile st E)
        as (url & message & -> & _). eauto.
    + rewrite (uploadToWebDAV_unconfigured env localFile remoteFile st E). eauto.
  - apply uploadToWebDAV_unconfigured.
  - apply uploadToWebDAV_configured.
Qed.

Lemma uploadToWebDAV_is_best_effort_witness :
  webdav_configured env_renewed = false
  /\ uploadToWebDAV env_renewed (utf16 "recording.webm") (utf16 "a.webm") (initial ∅)
     = (initial ∅, Ok []).
Proof.
  assert (H : webdav_configured env_renewed = false) by reflexivity.
  split; [exact H|].
  exact (proj1 (proj2 (uploadToWebDAV_is_best_effort env_renewed
                         (utf16 "recording.webm") (utf16 "a.webm") (initial ∅))) H).
Defined.

Lemma finalNotification_empty err info web :
  finalNotification err info web = [] <-> err = [] /\ info = [] /\ web = [].
Proof.
  unfold finalNotification.
  destruct err as [|e err]; cbn [truthy].
  - destruct info as [|i info]; cbn [truthy].
    + destruct web; cbn [truthy]; intuition congruence.
    + destruct (truthy web); cbn [app]; intuition congruence.
  - destruct (truthy web); cbn [app]; intuition congruence.
Qed.

(** X10. The final notification is empty only when the error message, the
    info message and the upload status are all empty.  An error message
    takes precedence: the notification then starts with it and the info
    message is left out; without an error message it starts with the info
    message. *)
Theorem finalNotification_precedence (err info web : jsstring) :
  (finalNotification err info web = [] <-> err = [] /\ info = [] /\ web = [])
  /\ (err <> [] ->
      finalNotification err info web = finalNotification err [] web
      /\ exists rest, finalNotification err info web = err ++ rest)
  /\ (err = [] -> info <> [] ->
      exists rest, finalNotification err info web = info ++ rest).
Proof.
  split; [apply finalNotification_empty|]. unfold finalNotification. split.
  - intros H. apply truthy_nonempty in H. rewrite H. split; [reflexivity|].
    destruct (truthy web); [eauto | exists []; now rewrite app_nil_r].
  - intros -> H. apply truthy_nonempty in H. cbn [truthy]. rewrite H.
    destruct (truthy web); [eauto | exists []; now rewrite app_nil_r].
Qed.

Lemma finalNotification_precedence_witness :
  utf16 "error" <> []
  /\ finalNotification (utf16 "error") (utf16 "info") (utf16 "uploaded")
     = finalNotification (utf16 "error") [] (utf16 "uploaded").
Proof.
  assert (H : utf16 "error" <> []) by (vm_compute; discriminate).
  split; [exact H|].
  exact (proj1 (proj1 (proj2 (finalNotification_precedence (utf16 "error")
                                (utf16 "info") (utf16 "uploaded"))) H)).
Defined.

(** ** The messages of a run *)

#[global] Instance anything_frame : Frame anything (fun _ => True) (fun _ => True) True.
Proof. split; unfold anything; auto. Qed.

#[global] Instance info_kept_steady : Steady info_kept.
Proof.
  split; unfold info_kept; try (intros; reflexivity).
  intros a b c -> ->. reflexivity.
Qed.

Section SteadySteps.
Context {R : State -> State -> Prop} {S : Steady R}.
Variable env : Env.

Lemma steady_ret {A} (a : A) : preserves R (ret a).
Proof. intros st. apply steady_refl. Qed.

Lemma steady_throw {A} message : preserves R (@throw A message).
Proof. intros st. apply steady_refl. Qed.

Lemma steady_get {A} (f : State -> A) : preserves R (get f).
Proof. intros st. apply steady_refl. Qed.

Lemma steady_bind {A B} (m : M A) (k : A -> M B) :
  preserves R m -> (forall a, preserves R (k a)) -> preserves R (bind m k).
Proof.
  intros Hm Hk st. unfold bind. specialize (Hm st).
  destruct (m st) as [st' [a|e]]; cbn [fst] in *.
  - eapply steady_trans; [exact Hm | apply Hk].
  - exact Hm.
Qed.

Lemma steady_try {A} (m : M A) : preserves R m -> preserves R (try_ m).
Proof. intros Hm st. unfold try_. specialize (Hm st). now destruct (m st). Qed.

Lemma steady_call {A} e (answer : nat -> A) : preserves R (call env e answer).
Proof.
  intros st. unfold call. destruct (rejects env (now st) e); apply steady_event.
Qed.

Lemma steady_call_ e : preserves R (call_ env e).
Proof. apply steady_call. Qed.

Lemma steady_sleep ms : preserves R (sleep ms).
Proof. intros st. apply steady_event. Qed.

Lemma steady_time : preserves R (getBeijingTimeString env).
Proof. intros st. apply steady_tick. Qed.

Lemma steady_recorded : preserves R (recording_on_disk env).
Proof. intros st. apply steady_tick. Qed.
End SteadySteps.

Ltac steady_step :=
  first
    [ apply steady_bind; [|intros ?]
    | apply steady_ret
    | apply steady_throw
    | apply steady_get
    | apply steady_try
    | apply steady_call_
    | apply steady_call
    | apply steady_sleep
    | apply steady_time
    | apply steady_recorded
    | match goal with
      | |- preserves _ (match ?x with _ => _ end) => destruct x eqn:?
      end
    | progress autounfold with script ].

Ltac steady := repeat steady_step.

Lemma notYetMessage_nonempty a b c : notYetMessage a b c <> [].
Proof. unfold notYetMessage. apply app_nonempty_l. vm_compute. discriminate. Qed.

Lemma successMessage_nonempty a b c : successMessage a b c <> [].
Proof. unfold successMessage. apply app_nonempty_l. vm_compute. discriminate. Qed.

Lemma failMessage_nonempty a b : failMessage a b <> [].
Proof. unfold failMessage. apply app_nonempty_l. vm_compute. discriminate. Qed.

Lemma errorMessage_nonempty a b : errorMessage a b <> [].
Proof. unfold errorMessage. apply app_nonempty_l. vm_compute. discriminate. Qed.

Section Messages.
Variable env : Env.

Lemma cleanup_info_kept : preserves info_kept (cleanup env).
Proof. steady. Qed.

Lemma renewal_vars_kept :
  preserves vars_kept
    (currentExpireDate <- open_renewal env;;
     solve_captcha env;;
     after_captcha env currentExpireDate)%script.
Proof. frame; side. Qed.

Lemma message_set_after st st' st'' r :
  anything st st' -> message_set st' st'' r -> message_set st st'' r.
Proof. intros _ H. exact H. Qed.

Lemma message_set_throw st st' e : anything st st' -> message_set st st' (Throw e).
Proof. intros _. exact I. Qed.

Lemma workflow_message_set : post (workflow env) message_set.
Proof.
  pose proof message_set_after as Ha. pose proof message_set_throw as Ht.
  unfold workflow, after_captcha.
  repeat post_step Ha Ht.
  match goal with |- post (if ?b then _ else _) _ => destruct b end.
  - intros st. rewrite not_yet_eligible_eq. cbn [fst snd infoMessage message_set].
    split; [discriminate | apply notYetMessage_nonempty].
  - unfold confirm_renewal. repeat post_step Ha Ht.
    intros st. rewrite record_outcome_eq.
    destruct (classify _ _); cbn [fst snd infoMessage message_set];
      try exact I; (split; [discriminate|]).
    + apply successMessage_nonempty.
    + apply failMessage_nonempty.
Qed.

(** The state in which the [finally] block starts. *)
Lemma before_finally files :
  let wr := workflow env (initial files) in
  let st2 := match snd wr with
             | Ok _ => fst wr
             | Throw message => fst (catch_block env message (fst wr))
             end in
  let o := match snd wr with Ok o => o | Throw _ => Error end in
  (o <> Error -> scriptErrorMessage st2 = [] /\ infoMessage st2 <> [])
  /\ (o = Error ->
      exists message time, scriptErrorMessage st2 = errorMessage message time).
Proof.
  cbn zeta.
  pose proof (workflow_message_set (initial files)) as Hm.
  assert (He : scriptErrorMessage (fst (workflow env (initial files))) = []).
  { rewrite workflow_eq.
    destruct (renewal_vars_kept (fst (read_persisted (initial files)))) as [_ ->].
    now rewrite read_persisted_eq. }
  destruct (workflow env (initial files)) as [st1 [o|message]]; cbn [fst snd] in *.
  - destruct Hm as [No Hi]. split; [auto | contradiction].
  - split; [congruence|]. intros _. do 2 eexists. reflexivity.
Qed.
End Messages.

(** ** The verdict of a run *)

Section FinalRead.
Variable env : Env.

Lemma getExpirationDate_read st :
  getExpirationDate env st = (tick_event ReadThTd st, Ok (date_read env st)).
Proof.
  unfold getExpirationDate, date_read, bind, try_, call, ret.
  now destruct (rejects env (now st) ReadThTd).
Qed.

Lemma bind_call_ {B} e (k : M B) st :
  (call_ env e;; k)%script st
  = match rejects env (now st) e with
    | Some message => (tick_event e st, Throw message)
    | None => k (tick_event e st)
    end.
Proof. unfold bind, call_, call. now destruct (rejects env (now st) e). Qed.

Ltac accept_call H :=
  rewrite bind_call_; cbn [now tick_event]; rewrite H.

(** When none of its requests is rejected, the confirmation ends with the
    comparison of the date that is read after it. *)
Lemma confirm_renewal_accepted st :
  accepted env (now st) confirm_requests ->
  confirm_renewal env st
  = record_outcome env (formatChineseDate (date_read env (before_final_read st)))
      (tick_event ReadThTd (before_final_read st)).
Proof.
  unfold accepted, confirm_requests.
  intros (H1 & H2 & H3 & H4 & H5 & H6 & H7 & _).
  unfold confirm_renewal.
  accept_call H1. accept_call H2. accept_call H3. accept_call H4.
  accept_call H5. accept_call H6. accept_call H7.
  unfold bind at 1. unfold sleep. unfold bind at 1.
  rewrite getExpirationDate_read. reflexivity.
Qed.

Ltac reject_call :=
  rewrite bind_call_; cbn [now tick_event];
  match goal with
  | |- context [rejects env ?t ?e] =>
      destruct (rejects env t e) eqn:?; [intros H; discriminate H|]
  end.

(** A confirmation that returns has had none of its requests rejected. *)
Lemma confirm_renewal_returns st o :
  snd (confirm_renewal env st) = Ok o -> accepted env (now st) confirm_requests.
Proof.
  unfold confirm_renewal, accepted, confirm_requests.
  do 7 reject_call.
  intros _. repeat split; assumption.
Qed.

Lemma open_renewal_file_kept : preserves file_kept (open_renewal env).
Proof. frame; side. Qed.

Lemma solve_captcha_file_kept : preserves file_kept (solve_captcha env).
Proof. frame; side. Qed.

(** What the workflow has read from expire.txt is still in place when the
    CAPTCHA loop is over. *)
Lemma persisted_after_captcha files :
  let st0 := fst (read_persisted (initial files)) in
  let st1 := fst (open_renewal env st0) in
  let st2 := fst (solve_captcha env st1) in
  lastExpireDate st2 = persisted files
  /\ fs st2 !! expireDateFile = files !! expireDateFile.
Proof.
  cbn zeta.
  destruct (solve_captcha_vars_kept env
              (fst (open_renewal env (fst (read_persisted (initial files))))))
    as [-> _].
  destruct (open_renewal_vars_kept env (fst (read_persisted (initial files))))
    as [-> _].
  rewrite solve_captcha_file_kept, open_renewal_file_kept.
  rewrite read_persisted_eq. cbn [fst lastExpireDate fs initial]. unfold persisted.
  split; [now destruct (files !! expireDateFile) | reflexivity].
Qed.

(** The workflow on the path through the final confirmation. *)
Lemma workflow_confirmed files currentExpireDate :
  let st0 := fst (read_persisted (initial files)) in
  let st1 := fst (open_renewal env st0) in
  let st2 := fst (solve_captcha env st1) in
  let st3 := before_final_read (tick_event ReadBodyText st2) in
  snd (open_renewal env st0) = Ok currentExpireDate ->
  snd (solve_captcha env st1) = Ok tt ->
  rejects env (now st2) ReadBodyText = None ->
  includes (body_text env (now st2)) too_early_marker = false ->
  accepted env (S (now st2)) confirm_requests ->
  workflow env (initial files)
  = record_outcome env (formatChineseDate (date_read env st3)) (tick_event ReadThTd st3)
  /\ lastExpireDate (tick_event ReadThTd st3) = persisted files
  /\ fs (tick_event ReadThTd st3) !! expireDateFile = files !! expireDateFile.
Proof.
  cbn zeta. intros Ho Hs Hb Hm Ha.
  pose proof (persisted_after_captcha files) as K. cbn zeta in K.
  rewrite workflow_eq. unfold bind at 1.
  destruct (open_renewal env (fst (read_persisted (initial files)))) as [st1 r1].
  cbn [fst snd] in *. subst r1. unfold bind at 1.
  destruct (solve_captcha env st1) as [st2 r2]. cbn [fst snd] in *. subst r2.
  unfold after_captcha. unfold bind at 1. unfold call. rewrite Hb, Hm.
  rewrite confirm_renewal_accepted by exact Ha.
  split; [reflexivity|]. exact K.
Qed.

(** A workflow that returns a verdict has gone through the final
    confirmation. *)
Lemma workflow_verdict_path files o :
  let st0 := fst (read_persisted (initial files)) in
  let st1 := fst (open_renewal env st0) in
  let st2 := fst (solve_captcha env st1) in
  snd (workflow env (initial files)) = Ok o -> o <> NotYetEligible ->
  (exists currentExpireDate, snd (open_renewal env st0) = Ok currentExpireDate)
  /\ snd (solve_captcha env st1) = Ok tt
  /\ rejects env (now st2) ReadBodyText = None
  /\ includes (body_text env (now st2)) too_early_marker = false
  /\ accepted env (S (now st2)) confirm_requests.
Proof.
  cbn zeta. rewrite workflow_eq. unfold bind at 1.
  destruct (open_renewal env (fst (read_persisted (initial files)))) as [st1 [cur|m1]];
    cbn [fst snd]; [|intros H; discriminate H].
  unfold bind at 1.
  destruct (solve_captcha env st1) as [st2 [[]|m2]];
    cbn [fst snd]; [|intros H; discriminate H].
  unfold after_captcha. unfold bind at 1. unfold call.
  destruct (rejects env (now st2) ReadBodyText) as [m3|]; [intros H; discriminate H|].
  destruct (includes (body_text env (now st2)) too_early_marker).
  - rewrite not_yet_eligible_eq. cbn [snd]. intros H N. congruence.
  - intros H _. apply confirm_renewal_returns in H.
    split; [eauto|]. split; [reflexivity|]. split; [reflexivity|].
    split; [reflexivity | exact H].
Qed.
End FinalRead.

Section Verdicts.
Variable env : Env.

Lemma cleanup_requests : preserves (extends (fun e => is_cleanup_request e = true)) (cleanup env).
Proof. frame; side. Qed.

(** The run on the path through the final confirmation: the verdict is the
    comparison of the date read after the confirmation with the persisted
    one, and it is never the fatal one. *)
Lemma main_confirmed files currentExpireDate :
  let st0 := fst (read_persisted (initial files)) in
  let st1 := fst (open_renewal env st0) in
  let st2 := fst (solve_captcha env st1) in
  let st3 := before_final_read (tick_event ReadBodyText st2) in
  let fresh := formatChineseDate (date_read env st3) in
  let r := main env (initial files) in
  snd (open_renewal env st0) = Ok currentExpireDate ->
  snd (solve_captcha env st1) = Ok tt ->
  rejects env (now st2) ReadBodyText = None ->
  includes (body_text env (now st2)) too_early_marker = false ->
  accepted env (S (now st2)) confirm_requests ->
  (outcome r = Success /\ classify (persisted files) fresh = CSuccess
   /\ fs (final r) !! expireDateFile = Some fresh
   \/ outcome r = Unchanged /\ classify (persisted files) fresh = CUnchanged
      /\ fs (final r) !! expireDateFile = files !! expireDateFile)
  /\ scriptErrorMessage (final r) = []
  /\ exists evs,
       trace (final r)
       = trace st2 ++ ReadBodyText :: confirm_requests ++ [Sleep 3000; ReadThTd] ++ evs
       /\ Forall (fun e => is_cleanup_request e = true) evs.
Proof.
  cbn zeta. intros Ho Hs Hb Hm Ha.
  destruct (workflow_confirmed env files currentExpireDate Ho Hs Hb Hm Ha)
    as (W & L & F).
  rewrite record_outcome_eq, L in W.
  pose proof (before_finally env files) as [B _]. cbn zeta in B.
  rewrite main_eq. cbn zeta. cbn [outcome final].
  set (st2 := fst (solve_captcha env _)) in *.
  set (st3 := before_final_read (tick_event ReadBodyText st2)) in *.
  set (fresh := formatChineseDate (date_read env st3)) in *.
  assert (T : trace (tick_event ReadThTd st3)
              = trace st2 ++ ReadBodyText :: confirm_requests ++ [Sleep 3000; ReadThTd]).
  { unfold st3, before_final_read, after_requests, confirm_requests.
    cbn [fold_left trace tick_event app]. now rewrite <- !app_assoc. }
  destruct (classify (persisted files) fresh) eqn:C.
  - rewrite W in *. cbn [fst snd] in *.
    match goal with
    | |- context [cleanup env ?s] =>
        destruct (cleanup_vars_kept env s) as [_ Ee];
        pose proof (cleanup_file_kept env s) as Ef;
        destruct (cleanup_requests s) as (evs & Et & Fa)
    end.
    unfold file_kept in Ef. cbn [fs scriptErrorMessage trace] in *.
    split; [left; split; [reflexivity|]; split; [reflexivity|];
            rewrite Ef; apply lookup_insert_eq|].
    split; [rewrite Ee; apply B; discriminate|].
    exists evs. rewrite Et, T. split; [now rewrite <- !app_assoc | exact Fa].
  - rewrite W in *. cbn [fst snd] in *.
    match goal with
    | |- context [cleanup env ?s] =>
        destruct (cleanup_vars_kept env s) as [_ Ee];
        pose proof (cleanup_file_kept env s) as Ef;
        destruct (cleanup_requests s) as (evs & Et & Fa)
    end.
    unfold file_kept in Ef. cbn [fs scriptErrorMessage trace] in *.
    split; [right; split; [reflexivity|]; split; [reflexivity|];
            rewrite Ef; exact F|].
    split; [rewrite Ee; apply B; discriminate|].
    exists evs. rewrite Et, T. split; [now rewrite <- !app_assoc | exact Fa].
  - apply classify_fatal in C. now apply formatChineseDate_nonempty in C.
Qed.
End Verdicts.

(** C1, as main.mjs has it.  In a run that reaches the final confirmation
    (the renewal was opened, the CAPTCHA loop returned, the page does not
    show the "too early" marker and no request of the confirmation is
    rejected), the date compared is the one read from the page after the
    confirmation, formatted; it is compared with the value persisted in
    expire.txt as [formatChineseDate] leaves it, and the date read before
    the renewal plays no part: the run ends in [Success] exactly when the two
    differ and in [Unchanged] exactly when they are equal.  The third branch
    of the test is not reached: a date that could not be read is formatted
    to 未知, which is compared like a date, and the run never ends in
    [Error]. *)
Theorem outcome_classification (env : Env) (files : gmap jsstring jsstring)
    (currentExpireDate : jsstring) :
  let st0 := fst (read_persisted (initial files)) in
  let st1 := fst (open_renewal env st0) in
  let st2 := fst (solve_captcha env st1) in
  let st3 := before_final_read (tick_event ReadBodyText st2) in
  let fresh := formatChineseDate (date_read env st3) in
  let r := main env (initial files) in
  snd (open_renewal env st0) = Ok currentExpireDate ->
  snd (solve_captcha env st1) = Ok tt ->
  rejects env (now st2) ReadBodyText = None ->
  includes (body_text env (now st2)) too_early_marker = false ->
  accepted env (S (now st2)) confirm_requests ->
  (outcome r = Success <-> fresh <> formatChineseDate (persisted files))
  /\ (outcome r = Unchanged <-> fresh = formatChineseDate (persisted files))
  /\ outcome r <> Error
  /\ scriptErrorMessage (final r) = []
  /\ (date_read env st3 = [] -> fresh = utf16 "未知").
Proof.
  cbn zeta. intros Ho Hs Hb Hm Ha.
  destruct (main_confirmed env files currentExpireDate Ho Hs Hb Hm Ha)
    as ([(O & C & _) | (O & C & _)] & E & _); rewrite O.
  - apply classify_success in C as [_ D].
    split; [tauto|]. split; [split; [discriminate | contradiction]|].
    split; [discriminate|]. split; [exact E|]. now intros ->.
  - apply classify_unchanged in C as [_ D].
    split; [split; [discriminate | contradiction]|]. split; [tauto|].
    split; [discriminate|]. split; [exact E|]. now intros ->.
Qed.

Lemma outcome_classification_witness :
  let env := env_no_date in
  let st0 := fst (read_persisted (initial files_0707)) in
  let st1 := fst (open_renewal env st0) in
  let st2 := fst (solve_captcha env st1) in
  let st3 := before_final_read (tick_event ReadBodyText st2) in
  let r := main env (initial files_0707) in
  (snd (open_renewal env st0) = Ok (utf16 "未知")
   /\ snd (solve_captcha env st1) = Ok tt
   /\ rejects env (now st2) ReadBodyText = None
   /\ includes (body_text env (now st2)) too_early_marker = false
   /\ accepted env (S (now st2)) confirm_requests)
  /\ date_read env st3 = []
  /\ formatChineseDate (date_read env st3) <> formatChineseDate (persisted files_0707)
  /\ outcome r = Success
  /\ outcome r <> Error.
Proof.
  cbn zeta.
  assert (Ho : snd (open_renewal env_no_date (fst (read_persisted (initial files_0707))))
               = Ok (utf16 "未知")) by (vm_compute; reflexivity).
  assert (Hs : snd (solve_captcha env_no_date
                      (fst (open_renewal env_no_date
                              (fst (read_persisted (initial files_0707)))))) = Ok tt)
    by (vm_compute; reflexivity).
  assert (Hb : rejects env_no_date
                 (now (fst (solve_captcha env_no_date
                              (fst (open_renewal env_no_date
                                      (fst (read_persisted (initial files_0707))))))))
                 ReadBodyText = None) by reflexivity.
  assert (Hm : includes
                 (body_text env_no_date
                    (now (fst (solve_captcha env_no_date
                                 (fst (open_renewal env_no_date
                                         (fst (read_persisted (initial files_0707)))))))))
                 too_early_marker = false) by (vm_compute; reflexivity).
  assert (Ha : accepted env_no_date
                 (S (now (fst (solve_captcha env_no_date
                                 (fst (open_renewal env_no_date
                                         (fst (read_persisted (initial files_0707)))))))))
                 confirm_requests)
    by (unfold confirm_requests; cbn [accepted]; repeat split).
  destruct (outcome_classification env_no_date files_0707 (utf16 "未知") Ho Hs Hb Hm Ha)
    as (A & _ & N & _).
  assert (D : formatChineseDate
                (date_read env_no_date
                   (before_final_read
                      (tick_event ReadBodyText
                         (fst (solve_captcha env_no_date
                                 (fst (open_renewal env_no_date
                                         (fst (read_persisted (initial files_0707))))))))))
              <> formatChineseDate (persisted files_0707))
    by (vm_compute; discriminate).
  split; [auto 10|]. split; [reflexivity|]. split; [exact D|].
  split; [exact (proj2 A D) | exact N].
Defined.

(** C8, as main.mjs has it.  expire.txt is written only in a run that the
    script labels [Success], and it is never deleted; but the label is also
    given when the date could not be read after the confirmation: the empty
    result is formatted to 未知, which differs from the persisted date, so
    the run ends in [Success] without an error message and expire.txt is
    overwritten with 未知. *)
Theorem unreadable_date_overwrites_expire_file (env : Env)
    (files : gmap jsstring jsstring) (currentExpireDate : jsstring) :
  let st0 := fst (read_persisted (initial files)) in
  let st1 := fst (open_renewal env st0) in
  let st2 := fst (solve_captcha env st1) in
  let st3 := before_final_read (tick_event ReadBodyText st2) in
  let r := main env (initial files) in
  (outcome r <> Success -> fs (final r) !! expireDateFile = files !! expireDateFile)
  /\ (forall path, is_Some (files !! path) -> is_Some (fs (final r) !! path))
  /\ (snd (open_renewal env st0) = Ok currentExpireDate ->
      snd (solve_captcha env st1) = Ok tt ->
      rejects env (now st2) ReadBodyText = None ->
      includes (body_text env (now st2)) too_early_marker = false ->
      accepted env (S (now st2)) confirm_requests ->
      date_read env st3 = [] ->
      formatChineseDate (persisted files) <> utf16 "未知" ->
      outcome r = Success
      /\ scriptErrorMessage (final r) = []
      /\ fs (final r) !! expireDateFile = Some (utf16 "未知")).
Proof.
  cbn zeta.
  destruct (expire_file_kept_unless_success env files) as [K G]. cbn zeta in K, G.
  split; [exact K|]. split; [exact G|].
  intros Ho Hs Hb Hm Ha Hd Hp.
  destruct (main_confirmed env files currentExpireDate Ho Hs Hb Hm Ha)
    as ([(O & C & F) | (O & C & _)] & E & _).
  - rewrite Hd in F. auto.
  - apply classify_unchanged in C as [_ D]. rewrite Hd in D. now destruct Hp.
Qed.

Lemma unreadable_date_overwrites_expire_file_witness :
  let env := env_no_date in
  let st0 := fst (read_persisted (initial files_0707)) in
  let st1 := fst (open_renewal env st0) in
  let st2 := fst (solve_captcha env st1) in
  let st3 := before_final_read (tick_event ReadBodyText st2) in
  let r := main env (initial files_0707) in
  (snd (open_renewal env st0) = Ok (utf16 "未知")
   /\ snd (solve_captcha env st1) = Ok tt
   /\ rejects env (now st2) ReadBodyText = None
   /\ includes (body_text env (now st2)) too_early_marker = false
   /\ accepted env (S (now st2)) confirm_requests
   /\ date_read env st3 = []
   /\ formatChineseDate (persisted files_0707) <> utf16 "未知")
  /\ files_0707 !! expireDateFile = Some (utf16 "2025-07-07")
  /\ outcome r = Success
  /\ fs (final r) !! expireDateFile = Some (utf16 "未知").
Proof.
  cbn zeta.
  assert (Ho : snd (open_renewal env_no_date (fst (read_persisted (initial files_0707))))
               = Ok (utf16 "未知")) by (vm_compute; reflexivity).
  assert (Hs : snd (solve_captcha env_no_date
                      (fst (open_renewal env_no_date
                              (fst (read_persisted (initial files_0707)))))) = Ok tt)
    by (vm_compute; reflexivity).
  assert (Hb : rejects env_no_date
                 (now (fst (solve_captcha env_no_date
                              (fst (open_renewal env_no_date
                                      (fst (read_persisted (initial files_0707))))))))
                 ReadBodyText = None) by reflexivity.
  assert (Hm : includes
                 (body_text env_no_date
                    (now (fst (solve_captcha env_no_date
                                 (fst (open_renewal env_no_date
                                         (fst (read_persisted (initial files_0707)))))))))
                 too_early_marker = false) by (vm_compute; reflexivity).
  assert (Ha : accepted env_no_date
                 (S (now (fst (solve_captcha env_no_date
                                 (fst (open_renewal env_no_date
                                         (fst (read_persisted (initial files_0707)))))))))
                 confirm_requests)
    by (unfold confirm_requests; cbn [accepted]; repeat split).
  assert (Hd : date_read env_no_date
                 (before_final_read
                    (tick_event ReadBodyText
                       (fst (solve_captcha env_no_date
                               (fst (open_renewal env_no_date
                                       (fst (read_persisted (initial files_0707)))))))))
               = []) by reflexivity.
  assert (Hp : formatChineseDate (persisted files_0707) <> utf16 "未知")
    by (vm_compute; discriminate).
  destruct (unreadable_date_overwrites_expire_file env_no_date files_0707 (utf16 "未知"))
    as (_ & _ & B).
  destruct (B Ho Hs Hb Hm Ha Hd Hp) as (O & _ & F).
  split; [auto 10|]. split; [reflexivity|]. split; [exact O | exact F].
Defined.

(** ** The messages of a run *)

(** X11. Every run leaves exactly one of the two messages set.  A run that
    ends in [Success], [Unchanged] or [NotYetEligible] is one whose workflow
    returned that outcome; it has the info message the workflow set, which
    is not empty, and an empty error message.  A run that ends in [Error] is
    one whose workflow threw; its error message is the text that [catch]
    builds from the message thrown and the time string read in [catch].
    The [finally] block changes neither message. *)
Theorem message_of_outcome (env : Env) (files : gmap jsstring jsstring) :
  let r := main env (initial files) in
  let wr := workflow env (initial files) in
  (outcome r <> Error ->
   snd wr = Ok (outcome r)
   /\ scriptErrorMessage (final r) = []
   /\ infoMessage (final r) = infoMessage (fst wr)
   /\ infoMessage (final r) <> [])
  /\ (outcome r = Error ->
      exists message,
        snd wr = Throw message
        /\ scriptErrorMessage (final r)
           = errorMessage message (beijing_time env (now (fst wr)))
        /\ scriptErrorMessage (final r) <> []).
Proof.
  cbn zeta.
  pose proof (workflow_message_set env (initial files)) as Hm.
  pose proof (before_finally env files) as [A _]. cbn zeta in A.
  destruct (workflow env (initial files)) as [st1 [o|message]] eqn:W;
    cbn [fst snd] in *.
  - destruct (main_workflow_returns env _ _ _ W) as [O E].
    destruct Hm as [No Hi]. destruct (A No) as [Ee _].
    rewrite O, E. clear O E. rewrite main_eq, W. cbn zeta. cbn [fst snd final].
    rewrite (cleanup_info_kept env st1).
    split; [intros _; auto | intros K; contradiction].
  - destruct (main_workflow_throws env _ _ _ W) as (O & E & _).
    rewrite O, E. split; [intros K; now destruct K|].
    intros _. exists message. split; [reflexivity|]. split; [reflexivity|].
    apply errorMessage_nonempty.
Qed.

(** ** The chat message of a run *)

Section Posting.
Variable env : Env.

Lemma sendTelegramMessage_silent P message :
  chat_configured env = false ->
  preserves (extends P) (sendTelegramMessage env message).
Proof.
  intros H st. rewrite sendTelegramMessage_eq, H. cbn [fst]. apply frame_refl.
Qed.

Lemma cleanup_silent :
  chat_configured env = false ->
  preserves (extends (fun e => is_telegram_post e = false)) (cleanup env).
Proof.
  intros H. unfold cleanup, close_and_notify.
  repeat first [ apply (sendTelegramMessage_silent _ _ H) | frame_step ]; side.
Qed.
End Posting.

Section Notification.
Variable env : Env.

(** The upload of the recording never rejects and posts nothing. *)
Lemma upload_recording_returns st :
  exists web evs,
    snd (upload_recording env st) = Ok web
    /\ trace (fst (upload_recording env st)) = trace st ++ evs
    /\ Forall (fun e => is_telegram_post e = false) evs
    /\ scriptErrorMessage (fst (upload_recording env st)) = scriptErrorMessage st
    /\ infoMessage (fst (upload_recording env st)) = infoMessage st.
Proof.
  assert (U : exists st4 web evs,
             upload_recording env st = (st4, Ok web)
             /\ trace st4 = trace st ++ evs
             /\ Forall (fun e => is_telegram_post e = false) evs
             /\ scriptErrorMessage st4 = scriptErrorMessage st
             /\ infoMessage st4 = infoMessage st).
  { unfold upload_recording. unfold bind at 1. unfold recording_on_disk.
    destruct (recording_exists env (now st)).
    - unfold bind, getBeijingTimeString.
      destruct (webdav_configured env) eqn:E.
      + match goal with
        | |- context [uploadToWebDAV env ?f ?r ?s] =>
            destruct (uploadToWebDAV_configured env f r s E) as (url & web & -> & _)
        end.
        exists (tick_event (WebdavPut url) (tick (tick st))), web, [WebdavPut url].
        cbn [trace tick_event tick scriptErrorMessage infoMessage].
        repeat split. repeat constructor.
      + rewrite uploadToWebDAV_unconfigured by exact E.
        exists (tick (tick st)), [], []. cbn [trace tick]. rewrite app_nil_r.
        repeat split. constructor.
    - exists (tick st), [], []. unfold ret. cbn [trace tick]. rewrite app_nil_r.
      repeat split. constructor. }
  destruct U as (st4 & web & evs & -> & T & Fa & Ee & Ei).
  exists web, evs. cbn [fst snd]. auto.
Qed.

Lemma close_and_notify_eq st :
  close_and_notify env st
  = (call_ env BrowserClose;;
     webdavMessage <- upload_recording env;;
     err <- get scriptErrorMessage;;
     info <- get infoMessage;;
     if truthy (finalNotification err info webdavMessage)
     then sendTelegramMessage env (finalNotification err info webdavMessage)
     else ret tt)%script st.
Proof.
  unfold close_and_notify, upload_recording. unfold bind at 1. unfold bind at 6.
  destruct (call_ env BrowserClose st) as [s [[]|message]]; [|reflexivity].
  unfold bind, recording_on_disk.
  destruct (recording_exists env (now s)); [|reflexivity].
  unfold getBeijingTimeString.
  now destruct (uploadToWebDAV env _ _ _) as [s' [web|message]].
Qed.

(** A completed [finally] block: its requests up to the upload, then the
    post of the final notification, built from the two messages and the
    status the upload returned, when it is not empty and the chat is
    configured. *)
Lemma cleanup_completed_upload st :
  let st_b :=
    tick_event BrowserClose (tick_event RecorderStop (tick_event (Sleep 5000) st)) in
  let up := upload_recording env st_b in
  snd (cleanup env st) = Ok tt ->
  exists web,
    snd up = Ok web
    /\ trace (fst (cleanup env st))
       = trace (fst up)
         ++ (if truthy (finalNotification (scriptErrorMessage st) (infoMessage st) web)
                && chat_configured env
             then [TelegramPost (finalNotification (scriptErrorMessage st)
                                   (infoMessage st) web)]
             else []).
Proof.
  cbn zeta. destruct (cleanup env st) as [stf rf] eqn:Er. cbn [fst snd].
  intros ->. revert Er.
  unfold cleanup. unfold bind at 1. unfold sleep.
  rewrite bind_call_. cbn [now tick_event].
  destruct (rejects env (S (now st)) RecorderStop) as [m|];
    [intros H; discriminate H|].
  rewrite close_and_notify_eq, bind_call_. cbn [now tick_event].
  destruct (rejects env (S (S (now st))) BrowserClose) as [m|];
    [intros H; discriminate H|].
  match goal with
  | |- context [upload_recording env ?s] =>
      destruct (upload_recording_returns s) as (web & evs & U & _ & _ & Ee & Ei);
      unfold bind at 1;
      destruct (upload_recording env s) as [st4 r4]
  end.
  cbn [fst snd] in *. subst r4. unfold bind, get. cbv beta iota zeta.
  cbn [scriptErrorMessage infoMessage tick_event] in Ee, Ei. rewrite Ee, Ei.
  intros Er. exists web. split; [reflexivity|].
  destruct (truthy (finalNotification (scriptErrorMessage st) (infoMessage st) web)).
  - rewrite sendTelegramMessage_eq in Er. injection Er as <-. cbn [andb].
    destruct (chat_configured env); cbn [trace tick_event];
      [reflexivity | now rewrite app_nil_r].
  - injection Er as <-. cbn [andb]. now rewrite app_nil_r.
Qed.
End Notification.

(** X12. Without a bot token or a chat id no run posts anything.  With
    both, a run whose [finally] block completes posts exactly one message,
    as its last request: the final notification built from the error and
    info messages the run had when the [finally] block began and from the
    status that the upload of the recording returned in this run (the empty
    string when there was no recording). *)
Theorem one_message_per_completed_run (env : Env)
    (files : gmap jsstring jsstring) :
  let r := main env (initial files) in
  let wr := workflow env (initial files) in
  let st2 := match snd wr with
             | Ok _ => fst wr
             | Throw message => fst (catch_block env message (fst wr))
             end in
  let st_b :=
    tick_event BrowserClose (tick_event RecorderStop (tick_event (Sleep 5000) st2)) in
  let up := upload_recording env st_b in
  (chat_configured env = false -> count is_telegram_post (trace (final r)) = 0%nat)
  /\ (chat_configured env = true -> completion r = Ok tt ->
      count is_telegram_post (trace (final r)) = 1%nat
      /\ exists web,
           snd up = Ok web
           /\ trace (final r)
              = trace (fst up)
                ++ [TelegramPost (finalNotification (scriptErrorMessage st2)
                                    (infoMessage st2) web)]
           /\ scriptErrorMessage (final r) = scriptErrorMessage st2
           /\ infoMessage (final r) = infoMessage st2).
Proof.
  cbn zeta. split.
  - intros H. apply Nat.le_0_r.
    apply (count_main env is_telegram_post 0).
    + apply at_most_none.
      intros st. destruct (workflow_before_cleanup env st) as (evs & E & Fa).
      exists evs. split; [exact E|]. eapply Forall_impl; [exact Fa|]. now intros e [_ ?].
    + intros message st.
      destruct (catch_before_cleanup env message st) as (evs & E & Fa).
      exists evs. split; [exact E|]. eapply Forall_impl; [exact Fa|]. now intros e [_ ?].
    + now apply cleanup_silent.
  - intros Hc. rewrite main_eq. cbn zeta. cbn [completion final].
    pose proof (before_finally env files) as [A B]. cbn zeta in A, B.
    assert (X : extends before_cleanup (initial files)
                  match snd (workflow env (initial files)) with
                  | Ok _ => fst (workflow env (initial files))
                  | Throw message =>
                      fst (catch_block env message (fst (workflow env (initial files))))
                  end).
    { pose proof (workflow_before_cleanup env (initial files)) as H.
      destruct (workflow env (initial files)) as [st1 [o|message]]; cbn [fst snd] in *.
      - exact H.
      - eapply frame_trans; [exact H | apply catch_before_cleanup]. }
    set (st2 := match snd (workflow env (initial files)) with
                | Ok _ => fst (workflow env (initial files))
                | Throw message =>
                    fst (catch_block env message (fst (workflow env (initial files))))
                end) in *.
    assert (N : forall web,
               truthy (finalNotification (scriptErrorMessage st2) (infoMessage st2) web)
               = true).
    { intros web. apply truthy_nonempty. intros E.
      apply finalNotification_empty in E as (E1 & E2 & _).
      destruct (match snd (workflow env (initial files)) with
                | Ok o => o
                | Throw _ => Error
                end) eqn:O;
        try (destruct A as [_ A]; [discriminate | contradiction]).
      destruct (B eq_refl) as (message & time & E3). rewrite E3 in E1.
      now apply errorMessage_nonempty in E1. }
    intros Hk. destruct (cleanup_completed_upload env st2 Hk) as (web & U & T).
    rewrite (N web), Hc in T. cbn [andb] in T.
    destruct (before_cleanup_counts _ _ X) as (e1 & E1 & _ & T1).
    destruct (cleanup_vars_kept env st2) as [_ Ee].
    pose proof (cleanup_info_kept env st2) as Ei. unfold info_kept in Ei.
    split.
    + rewrite T.
      match goal with
      | |- context [upload_recording env ?s] =>
          destruct (upload_recording_returns env s) as (web' & evs & _ & Tu & Fa & _)
      end.
      rewrite Tu. cbn [trace tick_event]. rewrite E1. cbn [initial trace app].
      rewrite !count_app, T1, (count_none _ _ Fa). reflexivity.
    + exists web. auto.
Qed.

Lemma one_message_per_completed_run_witness :
  (chat_configured env_webdav = true
   /\ completion (main env_webdav (initial files_0707)) = Ok tt)
  /\ count is_telegram_post (trace (final (main env_webdav (initial files_0707))))
     = 1%nat.
Proof.
  assert (Hc : chat_configured env_webdav = true) by reflexivity.
  assert (Hk : completion (main env_webdav (initial files_0707)) = Ok tt)
    by (vm_compute; reflexivity).
  split; [auto|].
  exact (proj1 (proj2 (one_message_per_completed_run env_webdav files_0707) Hc Hk)).
Defined.

(** The message of that run: the success message followed by the status
    of the upload. *)
Example posted_message_carries_upload_status :
  let r := main env_webdav (initial files_0707) in
  nth_error (rev (trace (final r))) 1
  = Some (WebdavPut (utf16 "https://dav.example.com/remote.php/vps/vps-renewal_2025-08-06-09-00.webm"))
  /\ last (trace (final r))
     = Some (TelegramPost
               (infoMessage (final r) ++ nl ++ nl ++ utf16 "---" ++ nl
                ++ utf16 "✅ 录屏已成功上传到 WebDAV。" ++ nl ++ utf16 "路径: "
                ++ bt ++ utf16 "vps/vps-renewal_2025-08-06-09-00.webm" ++ bt)).
Proof. vm_compute. split; reflexivity. Qed.

(** ** What a run leaves alone *)

#[global] Instance others_kept_frame :
  Frame others_kept (fun _ => True) written_by_run True.
Proof.
  split; unfold others_kept; try (intros; reflexivity).
  - intros a b c H1 H2 path N. now rewrite H2, H1.
  - intros path data st W p N. cbn [fst writeFileSync fs].
    apply lookup_insert_ne. intros ->. now apply N.
Qed.

Ltac written_files :=
  side;
  try (left; reflexivity);
  try (right; left; reflexivity);
  try (right; right; eexists; reflexivity).

Ltac typed_input :=
  try exact I;
  try (vm_compute;
       first [ left; reflexivity
             | right; reflexivity
             | left; split; reflexivity
             | right; left; split; reflexivity
             | right; right; reflexivity ]).

Section LeftAlone.
Variable env : Env.

Lemma workflow_others_kept : preserves others_kept (workflow env).
Proof. frame; written_files. Qed.

Lemma catch_others_kept message : preserves others_kept (catch_block env message).
Proof. frame; written_files. Qed.

Lemma cleanup_others_kept : preserves others_kept (cleanup env).
Proof. frame; written_files. Qed.

Lemma workflow_expected_input : preserves (extends (expected_input env)) (workflow env).
Proof. frame; typed_input. Qed.

Lemma catch_expected_input message :
  preserves (extends (expected_input env)) (catch_block env message).
Proof. frame; typed_input. Qed.

Lemma cleanup_expected_input : preserves (extends (expected_input env)) (cleanup env).
Proof. frame; typed_input. Qed.
End LeftAlone.

(** X13. The files a run writes are expire.txt, no_captcha.html and the
    screenshots captcha_failed_N.png of failed attempts, and the recorder
    writes recording.webm: every other file of the working directory holds
    after the run what it held before, or is still absent. *)
Theorem other_files_untouched (env : Env) (files : gmap jsstring jsstring)
    (path : jsstring) :
  path <> expireDateFile -> path <> utf16 "no_captcha.html" ->
  path <> utf16 "recording.webm" ->
  (forall attempt : nat,
     path <> utf16 "captcha_failed_" ++ String_ (Z.of_nat attempt) ++ utf16 ".png") ->
  fs (final (main env (initial files))) !! path = files !! path.
Proof.
  intros N1 N2 _ N3.
  apply (preserves_main (R := others_kept) env (workflow_others_kept env)
           (catch_others_kept env) (cleanup_others_kept env) (initial files)).
  intros [E | [E | [attempt E]]]; [now apply N1 | now apply N2 | now apply (N3 attempt)].
Qed.

Lemma other_files_untouched_witness :
  (utf16 "README.md" <> expireDateFile
   /\ utf16 "README.md" <> utf16 "no_captcha.html"
   /\ utf16 "README.md" <> utf16 "recording.webm"
   /\ forall attempt : nat,
        utf16 "README.md"
        <> utf16 "captcha_failed_" ++ String_ (Z.of_nat attempt) ++ utf16 ".png")
  /\ fs (final (main env_unrecognized (initial files_0707))) !! utf16 "README.md"
     = files_0707 !! utf16 "README.md".
Proof.
  assert (N1 : utf16 "README.md" <> expireDateFile)
    by (intros E; vm_compute in E; discriminate E).
  assert (N2 : utf16 "README.md" <> utf16 "no_captcha.html")
    by (intros E; vm_compute in E; discriminate E).
  assert (N3 : utf16 "README.md" <> utf16 "recording.webm")
    by (intros E; vm_compute in E; discriminate E).
  assert (N4 : forall attempt : nat,
             utf16 "README.md"
             <> utf16 "captcha_failed_" ++ String_ (Z.of_nat attempt) ++ utf16 ".png")
    by (intros attempt E; vm_compute in E; discriminate E).
  split; [auto|].
  exact (other_files_untouched env_unrecognized files_0707 _ N1 N2 N3 N4).
Defined.

(** X14. In every run, the only pages the script navigates to are the
    login page and the VPS panel, the account e-mail is typed only into
    #memberid and the password only into #user_password, and the only other
    field that is filled is the CAPTCHA input. *)
Theorem only_expected_input (env : Env) (files : gmap jsstring jsstring) :
  let requests := trace (final (main env (initial files))) in
  (forall url, In (Goto url) requests -> url = login_url \/ url = panel_url)
  /\ (forall sel text, In (Fill sel text) requests ->
        (sel = utf16 "#memberid" /\ text = EMAIL env)
        \/ (sel = utf16 "#user_password" /\ text = PASSWORD env)
        \/ sel = sel_captcha_input).
Proof.
  cbn zeta.
  destruct (preserves_main (R := extends (expected_input env)) env
              (workflow_expected_input env) (catch_expected_input env)
              (cleanup_expected_input env) (initial files)) as (evs & E & Fa).
  rewrite E. cbn [initial trace app]. rewrite Forall_forall in Fa.
  split; intros; apply list_elem_of_In in H; exact (Fa _ H).
Qed.

(** ** Comparing dates *)

Import JSDate Calendar.
#[local] Open Scope Z_scope.

Lemma trimStart_blank (s : jsstring) :
  Forall (fun c => is_space c = true) s -> trimStart s = [].
Proof. induction 1 as [|c s Hc _ IH]; cbn [trimStart]; [reflexivity|]. now rewrite Hc. Qed.

Lemma trim_blank (s : jsstring) :
  Forall (fun c => is_space c = true) s -> trim s = [].
Proof. intros H. unfold trim. now rewrite (trimStart_blank s H). Qed.

Lemma unpadded_date_length y m d :
  1000 <= y <= 9999 -> 0 <= m <= 99 -> 0 <= d <= 99 -> m < 10 \/ d < 10 ->
  (length (unpadded_date y m d) < 11)%nat.
Proof.
  intros Hy Hm Hd Hs.
  destruct (year_digits y Hy) as (a & b & c & e & Ey & _).
  unfold unpadded_date. rewrite Ey, !length_app. cbn [length].
  assert (S1 : forall n, 0 <= n < 10 -> length (String_ n) = 1%nat).
  { intros n Hn. apply Nat.eqb_eq.
    apply (range_forallb (fun z => (length (String_ z) =? 1)%nat) 0 10);
      [vm_compute; reflexivity | lia | lia]. }
  destruct (short_number m Hm) as (Lm & _).
  destruct (short_number d Hd) as (Ld & _).
  destruct Hs as [Hs | Hs]; [rewrite (S1 m) by lia | rewrite (S1 d) by lia]; lia.
Qed.

Lemma chinese_date_length y m d :
  1000 <= y <= 9999 -> 0 <= m <= 99 -> 0 <= d <= 99 ->
  length (chinese_date y m d) = 11%nat.
Proof.
  intros Hy Hm Hd.
  destruct (year_digits y Hy) as (a & b & c & e & Ey & _).
  destruct (short_number m Hm) as (_ & _ & _ & Lm & _).
  destruct (short_number d Hd) as (_ & _ & _ & Ld & _).
  unfold chinese_date. rewrite Ey, !length_app, Lm, Ld. reflexivity.
Qed.

(** X15. Zero padding is not a change: a persisted date written without
    padding and the same date read from the page (or the other way round)
    compare as unchanged, where the earlier version of the script, which
    compared the raw strings, took them for a renewal. *)
Theorem padding_is_not_a_change (y m d : Z) :
  1000 <= y <= 9999 -> 0 <= m <= 99 -> 0 <= d <= 99 ->
  classify (unpadded_date y m d) (formatChineseDate (chinese_date y m d)) = CUnchanged
  /\ classify (chinese_date y m d) (formatChineseDate (unpadded_date y m d)) = CUnchanged
  /\ (m < 10 \/ d < 10 ->
      Legacy.classify (unpadded_date y m d) (chinese_date y m d) = CSuccess).
Proof.
  intros Hy Hm Hd.
  pose proof (formatChineseDate_unpadded_eq y m d Hy Hm Hd) as E.
  assert (F : formatChineseDate (chinese_date y m d) = chinese_date y m d)
    by (rewrite <- E; apply formatChineseDate_twice_any).
  assert (N : chinese_date y m d <> []).
  { intros K. pose proof (chinese_date_length y m d Hy Hm Hd) as L.
    rewrite K in L. discriminate L. }
  split; [|split].
  - apply classify_unchanged. rewrite F, E. auto.
  - apply classify_unchanged. rewrite E, F. auto.
  - intros Hs. unfold Legacy.classify.
    assert (D : chinese_date y m d <> unpadded_date y m d).
    { intros K. pose proof (unpadded_date_length y m d Hy Hm Hd Hs) as L.
      rewrite <- K, (chinese_date_length y m d Hy Hm Hd) in L. lia. }
    apply truthy_nonempty in N. apply str_eqb_neq in D. now rewrite N, D.
Qed.

Lemma padding_is_not_a_change_witness :
  (1000 <= 2025 <= 9999 /\ 0 <= 8 <= 99 /\ 0 <= 7 <= 99)
  /\ classify (utf16 "2025年8月7日") (formatChineseDate (utf16 "2025年08月07日"))
     = CUnchanged.
Proof.
  assert (Hy : 1000 <= 2025 <= 9999) by lia.
  assert (Hm : 0 <= 8 <= 99) by lia.
  assert (Hd : 0 <= 7 <= 99) by lia.
  split; [auto|]. exact (proj1 (padding_is_not_a_change 2025 8 7 Hy Hm Hd)).
Defined.

(** X16. The first run records the date: when expire.txt is absent or
    holds only white space and the page shows a readable date, the renewal
    is classified as a success and the formatted date is written to
    expire.txt. *)
Theorem first_run_records_date (env : Env) (files : gmap jsstring jsstring)
    (raw : jsstring) :
  match files !! expireDateFile with
  | Some data => Forall (fun c => is_space c = true) data
  | None => True
  end ->
  re_match re_date_loose raw <> None ->
  let st := fst (read_persisted (initial files)) in
  let r := record_outcome env (formatChineseDate raw) st in
  snd r = Ok Success
  /\ fs (fst r) !! expireDateFile = Some (formatChineseDate raw).
Proof.
  intros Hf Hr. cbn zeta.
  assert (L : lastExpireDate (fst (read_persisted (initial files))) = []).
  { rewrite read_persisted_eq. cbn [fst lastExpireDate initial fs].
    destruct (files !! expireDateFile) as [data|]; [now apply trim_blank | reflexivity]. }
  assert (C : classify [] (formatChineseDate raw) = CSuccess).
  { apply classify_success. split; [apply formatChineseDate_nonempty|].
    destruct (re_match re_date_loose raw) as [[m0 caps]|] eqn:E; [|congruence].
    destruct (formatChineseDate_matched _ _ _ E) as (a&b&c&e&f&g&h&i&->&_).
    vm_compute. discriminate. }
  rewrite record_outcome_eq, L, C. cbn [fst snd fs].
  split; [reflexivity | apply lookup_insert_eq].
Qed.

Lemma first_run_records_date_witness :
  (match (∅ : gmap jsstring jsstring) !! expireDateFile with
   | Some data => Forall (fun c => is_space c = true) data
   | None => True
   end
   /\ re_match re_date_loose (utf16 "2025年7月9日") <> None)
  /\ snd (record_outcome env_renewed (formatChineseDate (utf16 "2025年7月9日"))
            (fst (read_persisted (initial ∅)))) = Ok Success.
Proof.
  assert (Hf : match (∅ : gmap jsstring jsstring) !! expireDateFile with
               | Some data => Forall (fun c => is_space c = true) data
               | None => True
               end) by (rewrite lookup_empty; exact I).
  assert (Hr : re_match re_date_loose (utf16 "2025年7月9日") <> None)
    by (vm_compute; discriminate).
  split; [auto|].
  exact (proj1 (first_run_records_date env_renewed ∅ _ Hf Hr)).
Defined.

(** ** Rounds of the CAPTCHA loop *)

Section Exhaustion.
Variable env : Env.
Hypothesis image_shown : forall t, captcha_img env t <> None.
Hypothesis short_answers : forall t, (length (recognized env t) < 4)%nat.
Hypothesis probe_answered : forall t, rejects env t QueryCaptchaImg = None.
Hypothesis src_answered : forall t, rejects env t ReadImgSrc = None.
Hypothesis screenshot_taken : forall t path, rejects env t (Screenshot path) = None.

Lemma attempt_fails attempt st :
  exists src st',
    captcha_attempt env attempt st = (st', Ok Continue)
    /\ trace st' = trace st ++ failed_round src attempt.
Proof.
  unfold captcha_attempt. unfold bind at 1. unfold call at 1.
  rewrite probe_answered.
  destruct (captcha_img env (now st)) as [src|] eqn:E;
    [|now destruct (image_shown (now st))].
  exists src. unfold bind at 1. unfold call at 1. rewrite src_answered.
  unfold bind at 1. unfold try_, call.
  cbn [tick_event now].
  set (t := S (S (now st))).
  assert (G : forall st0,
             now st0 = S t ->
             exists st',
               failed_attempt env attempt st0 = (st', Ok Continue)
               /\ trace st'
                  = trace st0
                    ++ [Screenshot (utf16 "captcha_failed_" ++ String_ (Z.of_nat attempt)
                                    ++ utf16 ".png")]).
  { intros st0 _. rewrite failed_attempt_eq. cbn zeta.
    rewrite screenshot_taken. eexists. split; reflexivity. }
  destruct (rejects env t (Recognize src)) as [message|];
    cbn [after_recognition].
  - match goal with
    | |- context [failed_attempt env attempt ?s] =>
        destruct (G s eq_refl) as (st' & E1 & E2)
    end.
    rewrite E1. exists st'. split; [reflexivity|]. rewrite E2.
    cbn [trace tick_event failed_round]. now rewrite <- !app_assoc.
  - replace (negb (truthy (recognized env t)) || (length (recognized env t) <? 4)%nat)
      with true
      by (symmetry; apply orb_true_iff; right; apply Nat.ltb_lt, short_answers).
    match goal with
    | |- context [failed_attempt env attempt ?s] =>
        destruct (G s eq_refl) as (st' & E1 & E2)
    end.
    rewrite E1. exists st'. split; [reflexivity|]. rewrite E2.
    cbn [trace tick_event failed_round]. now rewrite <- !app_assoc.
Qed.

Lemma three_failed_rounds st :
  exists s1 s2 s3 st',
    solve_captcha env st = (st', Throw captcha_fatal)
    /\ trace st' = trace st ++ failed_round s1 1 ++ failed_round s2 2 ++ failed_round s3 3.
Proof.
  unfold solve_captcha, maxCaptchaTries. cbn [captcha_loop].
  destruct (attempt_fails 1 st) as (s1 & st1 & E1 & T1).
  destruct (attempt_fails 2 st1) as (s2 & st2 & E2 & T2).
  destruct (attempt_fails 3 st2) as (s3 & st3 & E3 & T3).
  exists s1, s2, s3, st3.
  unfold bind. rewrite E1, E2, E3. cbn [ret].
  split; [reflexivity|]. rewrite T3, T2, T1. now rewrite <- !app_assoc.
Qed.
End Exhaustion.

(** X17. When the page shows a CAPTCHA image at every probe and the
    recognition service never answers four characters or more (or fails),
    the resolver makes exactly three rounds of probe, read, recognition and
    screenshot of the failed attempt, numbered 1 to 3, types and clicks
    nothing, and throws its fatal error. *)
Theorem unrecognized_captcha_exhausts_attempts (env : Env) (st : State) :
  (forall t, captcha_img env t <> None) ->
  (forall t, (length (recognized env t) < 4)%nat) ->
  (forall t, rejects env t QueryCaptchaImg = None) ->
  (forall t, rejects env t ReadImgSrc = None) ->
  (forall t path, rejects env t (Screenshot path) = None) ->
  exists s1 s2 s3 st',
    solve_captcha env st = (st', Throw captcha_fatal)
    /\ trace st' = trace st ++ failed_round s1 1 ++ failed_round s2 2 ++ failed_round s3 3.
Proof. intros. now apply three_failed_rounds. Qed.

Lemma unrecognized_captcha_exhausts_attempts_witness :
  ((forall t, captcha_img env_unrecognized t <> None)
   /\ (forall t, (length (recognized env_unrecognized t) < 4)%nat)
   /\ (forall t, rejects env_unrecognized t QueryCaptchaImg = None)
   /\ (forall t, rejects env_unrecognized t ReadImgSrc = None)
   /\ (forall t path, rejects env_unrecognized t (Screenshot path) = None))
  /\ exists s1 s2 s3 st',
       solve_captcha env_unrecognized (initial ∅) = (st', Throw captcha_fatal)
       /\ trace st'
          = trace (initial ∅) ++ failed_round s1 1 ++ failed_round s2 2 ++ failed_round s3 3.
Proof.
  assert (H1 : forall t, captcha_img env_unrecognized t <> None)
    by (intros t; unfold env_unrecognized, scenario; cbn [captcha_img]; discriminate).
  assert (H2 : forall t, (length (recognized env_unrecognized t) < 4)%nat)
    by (intros t; unfold env_unrecognized, scenario; cbn [recognized length]; lia).
  assert (H3 : forall t, rejects env_unrecognized t QueryCaptchaImg = None)
    by reflexivity.
  assert (H4 : forall t, rejects env_unrecognized t ReadImgSrc = None)
    by reflexivity.
  assert (H5 : forall t path, rejects env_unrecognized t (Screenshot path) = None)
    by reflexivity.
  split; [auto|].
  exact (unrecognized_captcha_exhausts_attempts env_unrecognized (initial ∅)
           H1 H2 H3 H4 H5).
Defined.

(** ** Where the recording goes *)

Lemma strip_trailing_slash_snoc (s : jsstring) : strip_trailing_slash (s ++ [47%N]) = s.
Proof. unfold strip_trailing_slash. rewrite rev_unit. apply rev_involutive. Qed.

Lemma strip_trailing_slash_none (s : jsstring) :
  last s <> Some 47%N -> strip_trailing_slash s = s.
Proof.
  intros H. unfold strip_trailing_slash.
  destruct (rev s) as [|c r] eqn:E; [reflexivity|].
  assert (L : last s = Some c).
  { rewrite <- (rev_involutive s), E. cbn [rev]. apply last_snoc. }
  rewrite L in H.
  destruct c as [|p]; [reflexivity|].
  do 6 (try (destruct p as [p|p|]; try reflexivity)).
  now destruct H.
Qed.

(** X18. A trailing slash on the configured WebDAV URL or save path makes
    no difference: the one PUT request goes to the URL, the save path when
    there is one, and the file name, joined by single slashes. *)
Theorem upload_url_ignores_trailing_slash (env : Env) (base dir : jsstring)
    (localFile remoteFile : jsstring) (st : State) :
  base <> [] -> last base <> Some 47%N -> last dir <> Some 47%N ->
  WEBDAV_URL env = base \/ WEBDAV_URL env = base ++ utf16 "/" ->
  WEBDAV_SAVE_PATH env = dir \/ WEBDAV_SAVE_PATH env = dir ++ utf16 "/" ->
  WEBDAV_USERNAME env <> [] -> WEBDAV_PASSWORD env <> [] ->
  fst (uploadToWebDAV env localFile remoteFile st)
  = tick_event
      (WebdavPut (base ++ utf16 "/"
                  ++ (if truthy dir then dir ++ utf16 "/" ++ remoteFile else remoteFile)))
      st.
Proof.
  intros Nb Lb Ld Hu Hp Nu Np.
  assert (Su : strip_trailing_slash (WEBDAV_URL env) = base).
  { destruct Hu as [-> | ->];
      [now apply strip_trailing_slash_none | apply strip_trailing_slash_snoc]. }
  assert (Sp : strip_trailing_slash (WEBDAV_SAVE_PATH env) = dir).
  { destruct Hp as [-> | ->];
      [now apply strip_trailing_slash_none | apply strip_trailing_slash_snoc]. }
  assert (Tu : truthy (WEBDAV_URL env) = true).
  { apply truthy_nonempty. destruct Hu as [-> | ->]; [exact Nb|].
    intros K. apply app_eq_nil in K as [K _]. now apply Nb. }
  apply truthy_nonempty in Nu, Np.
  unfold uploadToWebDAV. rewrite Tu, Nu, Np, Su, Sp. cbn [negb orb].
  unfold bind, try_, call, ret, throw.
  destruct (rejects env (now st) _) as [message|]; cbn [fst snd]; [reflexivity|].
  destruct (response_ok env (now st)); reflexivity.
Qed.

Lemma upload_url_ignores_trailing_slash_witness :
  (utf16 "https://dav.example.com/remote.php" <> []
   /\ last (utf16 "https://dav.example.com/remote.php") <> Some 47%N
   /\ last (utf16 "vps") <> Some 47%N
   /\ WEBDAV_URL env_webdav = utf16 "https://dav.example.com/remote.php" ++ utf16 "/"
   /\ WEBDAV_SAVE_PATH env_webdav = utf16 "vps" ++ utf16 "/"
   /\ WEBDAV_USERNAME env_webdav <> [] /\ WEBDAV_PASSWORD env_webdav <> [])
  /\ fst (uploadToWebDAV env_webdav (utf16 "recording.webm") (utf16 "a.webm") (initial ∅))
     = tick_event (WebdavPut (utf16 "https://dav.example.com/remote.php/vps/a.webm"))
         (initial ∅).
Proof.
  assert (Nb : utf16 "https://dav.example.com/remote.php" <> [])
    by (vm_compute; discriminate).
  assert (Lb : last (utf16 "https://dav.example.com/remote.php") <> Some 47%N)
    by (vm_compute; discriminate).
  assert (Ld : last (utf16 "vps") <> Some 47%N) by (vm_compute; discriminate).
  assert (Hu : WEBDAV_URL env_webdav
               = utf16 "https://dav.example.com/remote.php" ++ utf16 "/")
    by (vm_compute; reflexivity).
  assert (Hp : WEBDAV_SAVE_PATH env_webdav = utf16 "vps" ++ utf16 "/")
    by (vm_compute; reflexivity).
  assert (Nu : WEBDAV_USERNAME env_webdav <> []) by (vm_compute; discriminate).
  assert (Np : WEBDAV_PASSWORD env_webdav <> []) by (vm_compute; discriminate).
  split; [auto 10|].
  rewrite (upload_url_ignores_trailing_slash env_webdav _ _ (utf16 "recording.webm")
             (utf16 "a.webm") (initial ∅) Nb Lb Ld (or_intror Hu) (or_intror Hp) Nu Np).
  vm_compute. reflexivity.
Defined.

(** ** The time string *)

Section DayFields.
Import Clock.

Ltac zdiv := Z.div_mod_to_equations; lia.

Lemma DayWithinYear_bounds day :
  0 <= DayWithinYear day < DaysInYear (YearFromDay day).
Proof.
  unfold DayWithinYear. pose proof (YearFromDay_spec day) as S.
  rewrite DayFromYear_succ in S. lia.
Qed.

(** Every day number is a calendar date, and [MakeDay] leads back to it. *)
Lemma day_fields day :
  valid_date (YearFromDay day) (MonthFromDay day + 1) (DateFromDay day)
  /\ MakeDay (YearFromDay day) (MonthFromDay day) (DateFromDay day) = day.
Proof.
  pose proof (DayWithinYear_bounds day) as B.
  unfold valid_date, MakeDay, DateFromDay, MonthFromDay, InLeapYear, DaysInYear in *.
  assert (E : day = DayFromYear (YearFromDay day) + DayWithinYear day)
    by (unfold DayWithinYear; lia).
  revert B E. generalize (DayWithinYear day) as dw. intros dw B E.
  destruct (leap (YearFromDay day)) eqn:L;
    repeat match goal with
           | |- context [if ?a <? ?b then _ else _] => destruct (Z.ltb_spec a b)
           end;
    match goal with
    | |- context [days_in_month _ (?m + 1)] =>
        let v := eval vm_compute in (m + 1) in change (m + 1) with v;
        let q := eval vm_compute in (m / 12) in change (m / 12) with q;
        let r := eval vm_compute in (m mod 12) in change (m mod 12) with r
    end;
    cbv beta iota; cbn [days_in_month days_before_month];
    rewrite ?Z.add_0_r, ?L; lia.
Qed.

Lemma year_of_day day :
  DayFromYear 1000 <= day < DayFromYear 10000 -> 1000 <= YearFromDay day <= 9999.
Proof.
  intros H. pose proof (YearFromDay_spec day) as S.
  split.
  - destruct (Z.le_gt_cases 1000 (YearFromDay day)) as [|G]; [assumption|].
    pose proof (DayFromYear_mono (YearFromDay day + 1) 1000). lia.
  - destruct (Z.le_gt_cases (YearFromDay day) 9999) as [|G]; [assumption|].
    pose proof (DayFromYear_mono 10000 (YearFromDay day)). lia.
Qed.

Lemma days_in_month_le y m : days_in_month y m <= 31.
Proof.
  unfold days_in_month.
  destruct m as [|p|p]; try lia.
  do 4 (try (destruct p as [p|p|]; try lia)); destruct (leap y); lia.
Qed.

Lemma is_digits_dashed (s : jsstring) : is_digits s -> dash_separators s = s.
Proof.
  unfold is_digits, dash_separators. induction 1 as [|c s Hc _ IH]; [reflexivity|].
  cbn [map]. rewrite IH, (is_digit_not_space c Hc).
  replace (c =? 58)%N with false; [reflexivity|].
  symmetry. apply N.eqb_neq. unfold is_digit in Hc.
  apply andb_prop in Hc as [_ U]. apply N.leb_le in U. lia.
Qed.

Lemma dash_separators_app a b :
  dash_separators (a ++ b) = dash_separators a ++ dash_separators b.
Proof. apply map_app. Qed.

Lemma time_of_fields t :
  t = ((Day t * 24 + HourFromTime t) * 60 + MinFromTime t) * msPerMinute
      + t mod msPerMinute.
Proof. unfold Day, HourFromTime, MinFromTime, msPerDay, msPerHour, msPerMinute. zdiv. Qed.
End DayFields.

(** X19. For a moment whose shifted local time lies in the years 1000 to
    9999, the time string is a four-digit year, a two-digit month, day, hour
    and minute, written YYYY-MM-DD HH:mm; the five numbers are a valid
    calendar date and a time of day, and they are the fields of the local
    time eight hours ahead of now, which is Beijing time when the host's
    zone is UTC; the name of the uploaded recording carries the same digits
    with dashes for the space and the colon. *)
Theorem time_string_shape (now tza : Z) :
  let t := Clock.shifted_local_time now tza in
  DayFromYear 1000 * Clock.msPerDay <= t < DayFromYear 10000 * Clock.msPerDay ->
  exists Y M D h mi : jsstring,
    Clock.getBeijingTimeString now tza
    = Y ++ utf16 "-" ++ M ++ utf16 "-" ++ D ++ utf16 " " ++ h ++ utf16 ":" ++ mi
    /\ Clock.remoteFileName now tza
       = utf16 "vps-renewal_" ++ Y ++ utf16 "-" ++ M ++ utf16 "-" ++ D ++ utf16 "-"
         ++ h ++ utf16 "-" ++ mi ++ utf16 ".webm"
    /\ (length Y = 4 /\ length M = 2 /\ length D = 2 /\ length h = 2 /\ length mi = 2)%nat
    /\ (is_digits Y /\ is_digits M /\ is_digits D /\ is_digits h /\ is_digits mi)
    /\ valid_date (Number Y) (Number M) (Number D)
    /\ 0 <= Number h <= 23 /\ 0 <= Number mi <= 59
    /\ t = ((MakeDay (Number Y) (Number M - 1) (Number D) * 24 + Number h) * 60
            + Number mi) * Clock.msPerMinute
           + t mod Clock.msPerMinute.
Proof.
  cbn zeta. set (t := Clock.shifted_local_time now tza). intros R.
  assert (Rd : DayFromYear 1000 <= Clock.Day t < DayFromYear 10000)
    by (unfold Clock.Day, Clock.msPerDay in *; Z.div_mod_to_equations; lia).
  pose proof (year_of_day _ Rd) as Ry.
  destruct (day_fields (Clock.Day t)) as [V Mk].
  pose proof V as [Vm Vd]. pose proof (days_in_month_le (YearFromDay (Clock.Day t))
                                          (MonthFromDay (Clock.Day t) + 1)) as Dm.
  assert (Rh : 0 <= Clock.HourFromTime t <= 23)
    by (unfold Clock.HourFromTime; pose proof (Z.mod_pos_bound (t / Clock.msPerHour) 24); lia).
  assert (Rm : 0 <= Clock.MinFromTime t <= 59)
    by (unfold Clock.MinFromTime; pose proof (Z.mod_pos_bound (t / Clock.msPerMinute) 60); lia).
  destruct (year_digits _ Ry) as (a & b & c & e & Ey & Ny & Da & Db & Dc & De).
  destruct (short_number (MonthFromDay (Clock.Day t) + 1)) as (_ & _ & DM & LM & NM); [lia|].
  destruct (short_number (DateFromDay (Clock.Day t))) as (_ & _ & DD & LD & ND); [lia|].
  destruct (short_number (Clock.HourFromTime t)) as (_ & _ & Dh & Lh & Nh); [lia|].
  destruct (short_number (Clock.MinFromTime t)) as (_ & _ & Dmi & Lmi & Nmi); [lia|].
  assert (DY : is_digits [a; b; c; e]) by (unfold is_digits; repeat constructor; assumption).
  exists [a; b; c; e], (Clock.two (MonthFromDay (Clock.Day t) + 1)),
    (Clock.two (DateFromDay (Clock.Day t))), (Clock.two (Clock.HourFromTime t)),
    (Clock.two (Clock.MinFromTime t)).
  assert (S : Clock.getBeijingTimeString now tza
              = [a; b; c; e] ++ utf16 "-" ++ Clock.two (MonthFromDay (Clock.Day t) + 1)
                ++ utf16 "-" ++ Clock.two (DateFromDay (Clock.Day t)) ++ utf16 " "
                ++ Clock.two (Clock.HourFromTime t) ++ utf16 ":"
                ++ Clock.two (Clock.MinFromTime t)).
  { unfold Clock.getBeijingTimeString, getFullYear, getMonth, getDate. fold t.
    now rewrite Ey. }
  unfold Clock.two in *.
  split; [exact S|]. split.
  { unfold Clock.remoteFileName. rewrite S. rewrite !dash_separators_app.
    rewrite (is_digits_dashed _ DY), (is_digits_dashed _ DM), (is_digits_dashed _ DD),
      (is_digits_dashed _ Dh), (is_digits_dashed _ Dmi).
    change (dash_separators (utf16 "-")) with (utf16 "-").
    change (dash_separators (utf16 " ")) with (utf16 "-").
    change (dash_separators (utf16 ":")) with (utf16 "-").
    now rewrite <- !app_assoc. }
  split; [auto|]. split; [auto|].
  rewrite Ny, NM, ND, Nh, Nmi.
  replace (MonthFromDay (Clock.Day t) + 1 - 1) with (MonthFromDay (Clock.Day t)) by lia.
  rewrite Mk. split; [exact V|]. split; [exact Rh|]. split; [exact Rm|].
  apply time_of_fields.
Qed.

Lemma time_string_shape_witness :
  (DayFromYear 1000 * Clock.msPerDay <= Clock.shifted_local_time 1754524800000 0
   < DayFromYear 10000 * Clock.msPerDay)
  /\ exists Y M D h mi : jsstring,
       utf16 "2025-08-07 08:00"
       = Y ++ utf16 "-" ++ M ++ utf16 "-" ++ D ++ utf16 " " ++ h ++ utf16 ":" ++ mi
       /\ (length Y = 4 /\ length M = 2 /\ length D = 2 /\ length h = 2
           /\ length mi = 2)%nat.
Proof.
  assert (R : DayFromYear 1000 * Clock.msPerDay
              <= Clock.shifted_local_time 1754524800000 0
              < DayFromYear 10000 * Clock.msPerDay) by (vm_compute; split; congruence).
  split; [exact R|].
  destruct (time_string_shape 1754524800000 0 R)
    as (Y & M & D & h & mi & E & _ & L & _).
  exists Y, M, D, h, mi. split; [|exact L].
  rewrite <- E. vm_compute. reflexivity.
Defined.

(** At 2025-08-07T00:00:00Z a host whose zone is UTC shows Beijing time; a
    host whose zone is nine hours ahead of UTC shows a time nine hours
    later. *)
Example time_string_utc_host :
  Clock.getBeijingTimeString 1754524800000 0 = utf16 "2025-08-07 08:00"
  /\ Clock.remoteFileName 1754524800000 0 = utf16 "vps-renewal_2025-08-07-08-00.webm".
Proof. vm_compute. split; reflexivity. Qed.

Example time_string_tokyo_host :
  Clock.getBeijingTimeString 1754524800000 (9 * Clock.msPerHour)
  = utf16 "2025-08-07 17:00".
Proof. vm_compute. reflexivity. Qed.

(** ** The earlier version of the script *)

#[global] Hint Unfold Earlier.getExpirationDate Earlier.message_time
  Earlier.open_renewal Earlier.not_yet_eligible Earlier.record_outcome
  Earlier.confirm_renewal Earlier.workflow Earlier.catch_block
  Earlier.close_and_notify Earlier.cleanup : script.

Section EarlierScript.
Variable env : Env.
Variable th_next : nat -> list (jsstring * option jsstring).

#[local] Abbreviation workflow' := (Earlier.workflow env th_next).
#[local] Abbreviation cleanup' := (Earlier.cleanup env).
#[local] Abbreviation catch' := (Earlier.catch_block env).
#[local] Abbreviation main' := (Earlier.main env th_next).

Lemma earlier_main_eq st :
  main' st =
  let wr := workflow' st in
  let st2 := match snd wr with
             | Ok _ => fst wr
             | Throw message => fst (catch' message (fst wr))
             end in
  {| final := fst (cleanup' st2);
     outcome := match snd wr with Ok o => o | Throw _ => Error end;
     completion := snd (cleanup' st2) |}.
Proof.
  unfold Earlier.main. destruct (workflow' st) as [st1 [o|message]]; cbn [fst snd].
  - now destruct (cleanup' st1).
  - now destruct (cleanup' (fst (catch' message st1))).
Qed.

Lemma earlier_preserves_main (R : State -> State -> Prop) P W V
    (F : Frame R P W V) :
  preserves R workflow' ->
  (forall message, preserves R (catch' message)) ->
  preserves R cleanup' ->
  forall st, R st (final (main' st)).
Proof.
  intros Hw Hc Hf st. rewrite earlier_main_eq. cbn zeta. cbn [final].
  specialize (Hw st).
  destruct (workflow' st) as [st1 [o|message]]; cbn [fst snd] in *.
  - eapply frame_trans; [exact Hw | apply Hf].
  - eapply frame_trans; [exact Hw|]. eapply frame_trans; [apply Hc | apply Hf].
Qed.

(** No request of the earlier script is one of the CAPTCHA loop. *)
Lemma earlier_workflow_outside_captcha : preserves (extends outside_captcha) workflow'.
Proof. frame; side. Qed.

Lemma earlier_catch_outside_captcha message :
  preserves (extends outside_captcha) (catch' message).
Proof. frame; side. Qed.

Lemma earlier_cleanup_outside_captcha : preserves (extends outside_captcha) cleanup'.
Proof. frame; side. Qed.

Lemma earlier_catch_file_kept message : preserves file_kept (catch' message).
Proof. frame; side. Qed.

Lemma earlier_cleanup_file_kept : preserves file_kept cleanup'.
Proof. frame; side. Qed.

Lemma earlier_catch_clicks_not message :
  preserves (extends (fun e => is_continue_click e = false)) (catch' message).
Proof. frame; side. Qed.

Lemma earlier_cleanup_clicks_not :
  preserves (extends (fun e => is_continue_click e = false)) cleanup'.
Proof. frame; side. Qed.

Lemma earlier_getExpirationDate_eq st :
  Earlier.getExpirationDate env th_next st
  = (tick_event ReadThTd st,
     Ok match rejects env (now st) ReadThTd with
        | Some _ => []
        | None => Earlier.find_expiration (th_next (now st))
        end).
Proof.
  unfold Earlier.getExpirationDate, bind, try_, call, ret.
  now destruct (rejects env (now st) ReadThTd).
Qed.

Lemma earlier_record_outcome_written newExpireDate :
  post (Earlier.record_outcome env newExpireDate) written_only_on_success.
Proof.
  intros st. unfold written_only_on_success. intros N.
  unfold Earlier.record_outcome, Earlier.message_time, bind, get, ret, throw,
    getBeijingTimeString, set_infoMessage, writeFileSync in *.
  cbn [fst snd] in *.
  destruct (Legacy.classify (lastExpireDate st) newExpireDate);
    cbn [fst snd] in *; [congruence | reflexivity | reflexivity].
Qed.

Lemma earlier_workflow_written : post workflow' written_only_on_success.
Proof.
  pose proof written_only_on_success_after as Ha.
  pose proof written_only_on_success_throw as Ht.
  unfold Earlier.workflow.
  repeat post_step Ha Ht.
  match goal with |- post (if ?b then _ else _) _ => destruct b end.
  - intros st _. revert st.
    match goal with
    | |- forall st, file_kept st (fst (?m st)) => change (preserves file_kept m)
    end.
    frame; side.
  - unfold Earlier.confirm_renewal. repeat post_step Ha Ht.
    apply earlier_record_outcome_written.
Qed.

Lemma unconfirmed_after st st' st'' r :
  extends (fun e => is_continue_click e = false) st st' ->
  unconfirmed st' st'' r -> unconfirmed st st'' r.
Proof. intros E H N. eapply frame_trans; [exact E | exact (H N)]. Qed.

Lemma unconfirmed_throw st st' e :
  extends (fun e => is_continue_click e = false) st st' -> unconfirmed st st' (Throw e).
Proof. intros _ N. discriminate N. Qed.

Lemma earlier_record_outcome_verdict newExpireDate st :
  snd (Earlier.record_outcome env newExpireDate st) <> Ok NotYetEligible.
Proof.
  unfold Earlier.record_outcome, Earlier.message_time, bind, get, ret, throw,
    getBeijingTimeString, set_infoMessage, writeFileSync.
  cbn [fst snd].
  destruct (Legacy.classify (lastExpireDate st) newExpireDate);
    cbn [fst snd]; discriminate.
Qed.

Lemma earlier_confirm_verdict st :
  snd (Earlier.confirm_renewal env th_next st) <> Ok NotYetEligible.
Proof.
  unfold Earlier.confirm_renewal. unfold bind at 1.
  destruct (call_ env (Click sel_continue) st) as [s1 [[]|e1]]; [|discriminate].
  unfold bind at 1.
  destruct (call_ env WaitForNavigation s1) as [s2 [[]|e2]]; [|discriminate].
  unfold bind at 1. rewrite earlier_getExpirationDate_eq.
  apply earlier_record_outcome_verdict.
Qed.

Lemma earlier_workflow_unconfirmed : post workflow' unconfirmed.
Proof.
  pose proof unconfirmed_after as Ha. pose proof unconfirmed_throw as Ht.
  unfold Earlier.workflow.
  repeat post_step Ha Ht.
  match goal with |- post (if ?b then _ else _) _ => destruct b end.
  - intros st _. revert st.
    match goal with
    | |- forall st, extends ?P st (fst (?m st)) => change (preserves (extends P) m)
    end.
    frame; side.
  - intros st N. now destruct (earlier_confirm_verdict st).
Qed.
End EarlierScript.

Section EarlierVerdicts.
Variable env : Env.
Variable th_next : nat -> list (jsstring * option jsstring).

Lemma earlier_classified_after st st' st'' r :
  vars_kept st st' -> earlier_classified st' st'' r -> earlier_classified st st'' r.
Proof.
  unfold earlier_classified, vars_kept. intros [E _].
  destruct r as [[| | |]|]; rewrite ?E; auto.
Qed.

Lemma earlier_classified_throw st st' e :
  vars_kept st st' -> earlier_classified st st' (Throw e).
Proof. intros _. exact I. Qed.

Lemma earlier_record_outcome_classified newExpireDate :
  post (Earlier.record_outcome env newExpireDate) earlier_classified.
Proof.
  intros st.
  unfold earlier_classified, Earlier.record_outcome, Earlier.message_time, bind, get,
    ret, throw, getBeijingTimeString, set_infoMessage, writeFileSync.
  cbn [fst snd].
  destruct (Legacy.classify (lastExpireDate st) newExpireDate) eqn:E;
    cbn [fst snd fs lastExpireDate tick].
  - exists newExpireDate. split; [exact E | apply lookup_insert_eq].
  - exists newExpireDate. exact E.
  - exact I.
Qed.

Lemma earlier_not_yet_returns st :
  snd (Earlier.not_yet_eligible env th_next st) = Ok NotYetEligible.
Proof.
  unfold Earlier.not_yet_eligible, bind. rewrite earlier_getExpirationDate_eq.
  reflexivity.
Qed.

Lemma earlier_renewal_classified :
  post (Earlier.open_renewal env;;
        notYetTimeMessage <-
          call env ReadBodyText (fun t => includes (body_text env t) too_early_marker);;
        if notYetTimeMessage : bool then Earlier.not_yet_eligible env th_next
        else Earlier.confirm_renewal env th_next)%script earlier_classified.
Proof.
  pose proof earlier_classified_after as Ha. pose proof earlier_classified_throw as Ht.
  repeat post_step Ha Ht.
  match goal with |- post (if ?b then _ else _) _ => destruct b end.
  - intros st. unfold earlier_classified. now rewrite earlier_not_yet_returns.
  - unfold Earlier.confirm_renewal. repeat post_step Ha Ht.
    apply earlier_record_outcome_classified.
Qed.

Lemma earlier_workflow_eq st :
  Earlier.workflow env th_next st =
  (Earlier.open_renewal env;;
   notYetTimeMessage <-
     call env ReadBodyText (fun t => includes (body_text env t) too_early_marker);;
   if notYetTimeMessage : bool then Earlier.not_yet_eligible env th_next
   else Earlier.confirm_renewal env th_next)%script (fst (read_persisted st)).
Proof. unfold Earlier.workflow. unfold bind at 1. now rewrite read_persisted_eq. Qed.

Lemma earlier_workflow_classified files :
  earlier_classified (fst (read_persisted (initial files)))
    (fst (Earlier.workflow env th_next (initial files)))
    (snd (Earlier.workflow env th_next (initial files))).
Proof. rewrite earlier_workflow_eq. apply earlier_renewal_classified. Qed.
End EarlierVerdicts.

Lemma legacy_classify_success last fresh :
  Legacy.classify last fresh = CSuccess <-> fresh <> [] /\ fresh <> last.
Proof.
  unfold Legacy.classify. rewrite <- truthy_nonempty, <- str_eqb_neq.
  destruct (truthy fresh), (str_eqb fresh last); cbn; intuition congruence.
Qed.

Lemma legacy_classify_unchanged last fresh :
  Legacy.classify last fresh = CUnchanged <-> fresh <> [] /\ fresh = last.
Proof.
  unfold Legacy.classify. rewrite <- truthy_nonempty, <- str_eqb_eq.
  destruct (truthy fresh), (str_eqb fresh last); cbn; intuition congruence.
Qed.

(** X20. The earlier script has no CAPTCHA handling and checks the "too
    early" marker before any confirmation: no run probes for a CAPTCHA
    image, asks for a recognition or fills a code in, and a run that ends as
    not yet eligible has not clicked the final confirmation and has left
    expire.txt as it was. *)
Theorem earlier_script_checks_marker_first (env : Env)
    (th_next : nat -> list (jsstring * option jsstring))
    (files : gmap jsstring jsstring) :
  let r := Earlier.main env th_next (initial files) in
  (count is_captcha_probe (trace (final r)) = 0
   /\ count is_recognize (trace (final r)) = 0
   /\ count is_captcha_fill (trace (final r)) = 0)%nat
  /\ (outcome r = NotYetEligible ->
      count is_continue_click (trace (final r)) = 0%nat
      /\ fs (final r) !! expireDateFile = files !! expireDateFile).
Proof.
  cbn zeta. split.
  - destruct (earlier_preserves_main env th_next _ _ _ _ _
                (earlier_workflow_outside_captcha env th_next)
                (earlier_catch_outside_captcha env)
                (earlier_cleanup_outside_captcha env) (initial files))
      as (evs & E & Fa).
    rewrite E. cbn [initial trace app].
    repeat split; apply count_none; eapply Forall_impl; try exact Fa;
      intros e (? & ? & ?); assumption.
  - rewrite earlier_main_eq. cbn zeta. cbn [outcome final].
    pose proof (earlier_workflow_unconfirmed env th_next (initial files)) as U.
    pose proof (earlier_workflow_written env th_next (initial files)) as Wr.
    unfold unconfirmed, written_only_on_success in *.
    destruct (Earlier.workflow env th_next (initial files)) as [st1 [o|message]];
      cbn [fst snd] in *; [|discriminate].
    intros ->. split.
    + destruct (U eq_refl) as (e1 & E1 & F1).
      destruct (earlier_cleanup_clicks_not env st1) as (e2 & E2 & F2).
      rewrite E2, E1. cbn [initial trace app].
      now rewrite count_app, (count_none _ _ F1), (count_none _ _ F2).
    + rewrite (earlier_cleanup_file_kept env st1). apply Wr. discriminate.
Qed.

Lemma earlier_script_checks_marker_first_witness :
  outcome (Earlier.main env_too_early th_next_0907 (initial ∅)) = NotYetEligible
  /\ count is_continue_click
       (trace (final (Earlier.main env_too_early th_next_0907 (initial ∅)))) = 0%nat.
Proof.
  assert (H : outcome (Earlier.main env_too_early th_next_0907 (initial ∅))
              = NotYetEligible) by (vm_compute; reflexivity).
  split; [exact H|].
  exact (proj1 (proj2 (earlier_script_checks_marker_first env_too_early th_next_0907 ∅) H)).
Defined.

(** X21. In the earlier script the outcome is the comparison of the raw
    strings: expire.txt is left as it was unless the run ends in Success;
    Success writes a non-empty date that differs from the trimmed previous
    content of the file (the empty string when there was none); Unchanged
    only occurs when the file held a non-empty date. *)
Theorem earlier_outcome_is_raw_comparison (env : Env)
    (th_next : nat -> list (jsstring * option jsstring))
    (files : gmap jsstring jsstring) :
  let r := Earlier.main env th_next (initial files) in
  let last := match files !! expireDateFile with
              | Some data => trim data
              | None => []
              end in
  (outcome r <> Success -> fs (final r) !! expireDateFile = files !! expireDateFile)
  /\ (outcome r = Success ->
      exists fresh, fresh <> [] /\ fresh <> last
                    /\ fs (final r) !! expireDateFile = Some fresh)
  /\ (outcome r = Unchanged -> last <> []).
Proof.
  cbn zeta. rewrite earlier_main_eq. cbn zeta. cbn [outcome final].
  pose proof (earlier_workflow_written env th_next (initial files)) as Wr.
  pose proof (earlier_workflow_classified env th_next files) as C.
  unfold written_only_on_success, earlier_classified in *.
  rewrite read_persisted_eq in C. cbn [fst lastExpireDate initial fs] in C.
  destruct (Earlier.workflow env th_next (initial files)) as [st1 [o|message]];
    cbn [fst snd] in *.
  - rewrite (earlier_cleanup_file_kept env st1). split; [|split].
    + intros N. apply Wr. congruence.
    + intros ->. destruct C as (fresh & Cf & Ff).
      apply legacy_classify_success in Cf as [N D]. eauto.
    + intros ->. destruct C as (fresh & Cf).
      apply legacy_classify_unchanged in Cf as [N <-]. exact N.
  - rewrite (earlier_cleanup_file_kept env), (earlier_catch_file_kept env).
    split; [|split]; [intros _; apply Wr; discriminate | discriminate | discriminate].
Qed.

Section EarlierDates.
Variable env : Env.
Variable th_next : nat -> list (jsstring * option jsstring).

Lemma earlier_record_missing st :
  Earlier.record_outcome env [] st = (st, Throw date_missing_fatal).
Proof. reflexivity. Qed.

Lemma earlier_read_and_record st :
  Earlier.find_expiration (th_next (now st)) = [] ->
  (newExpireDate <- Earlier.getExpirationDate env th_next;;
   Earlier.record_outcome env newExpireDate)%script st
  = (tick_event ReadThTd st, Throw date_missing_fatal).
Proof.
  intros H. unfold bind. rewrite earlier_getExpirationDate_eq, H.
  now destruct (rejects env (now st) ReadThTd).
Qed.

Lemma earlier_workflow_no_verdict :
  (forall t, Earlier.find_expiration (th_next t) = []) ->
  post (Earlier.workflow env th_next) not_a_verdict.
Proof.
  intros H.
  assert (Ha : forall st st' st'' r,
             anything st st' -> not_a_verdict st' st'' r -> not_a_verdict st st'' r)
    by (intros; assumption).
  assert (Ht : forall st st' e, anything st st' -> not_a_verdict st st' (Throw e))
    by (intros; split; discriminate).
  unfold Earlier.workflow.
  repeat post_step Ha Ht.
  match goal with |- post (if ?b then _ else _) _ => destruct b end.
  - intros st. unfold not_a_verdict. rewrite earlier_not_yet_returns.
    split; discriminate.
  - unfold Earlier.confirm_renewal. do 2 post_step Ha Ht.
    intros st. unfold not_a_verdict. rewrite earlier_read_and_record by apply H.
    split; discriminate.
Qed.
End EarlierDates.

(** X22. In the earlier script a page without a readable expiration date
    is a fatal error of the comparison: reading the date and comparing it
    throws the "date not found" error and writes nothing, so no run on such
    a page ends in Success or Unchanged, and expire.txt is left as it
    was. *)
Theorem earlier_unreadable_date_is_fatal (env : Env)
    (th_next : nat -> list (jsstring * option jsstring))
    (files : gmap jsstring jsstring) :
  (forall t, Earlier.find_expiration (th_next t) = []) ->
  let r := Earlier.main env th_next (initial files) in
  (forall st,
     (newExpireDate <- Earlier.getExpirationDate env th_next;;
      Earlier.record_outcome env newExpireDate)%script st
     = (tick_event ReadThTd st, Throw date_missing_fatal))
  /\ outcome r <> Success /\ outcome r <> Unchanged
  /\ fs (final r) !! expireDateFile = files !! expireDateFile.
Proof.
  intros H. cbn zeta.
  split; [intros st; now apply earlier_read_and_record|].
  assert (V : outcome (Earlier.main env th_next (initial files)) <> Success
              /\ outcome (Earlier.main env th_next (initial files)) <> Unchanged).
  { rewrite earlier_main_eq. cbn zeta. cbn [outcome].
    pose proof (earlier_workflow_no_verdict env th_next H (initial files)) as [N1 N2].
    destruct (snd (Earlier.workflow env th_next (initial files))) as [o|message];
      split; congruence. }
  destruct V as [V1 V2]. split; [exact V1|]. split; [exact V2|].
  now apply earlier_outcome_is_raw_comparison.
Qed.

Lemma earlier_unreadable_date_is_fatal_witness :
  (forall t, Earlier.find_expiration (th_next_none t) = [])
  /\ outcome (Earlier.main env_renewed th_next_none (initial ∅)) <> Success.
Proof.
  assert (H : forall t, Earlier.find_expiration (th_next_none t) = [])
    by reflexivity.
  split; [exact H|].
  exact (proj1 (proj2 (earlier_unreadable_date_is_fatal env_renewed th_next_none ∅ H))).
Defined.

(** The same page in a run: the comparison is reached and the run ends with
    the "date not found" error. *)
Example earlier_run_unreadable_date :
  let r := Earlier.main env_renewed th_next_none (initial ∅) in
  outcome r = Error
  /\ scriptErrorMessage (final r)
     = errorMessage date_missing_fatal
         (Earlier.space_for_underscore (beijing_time env_renewed 15)).
Proof. vm_compute. split; reflexivity. Qed.

Lemma match_at_two_shape s m0 caps :
  match_at Earlier.re_date_two s = Some (m0, caps) ->
  exists a b c d e f g h,
    m0 = [a; b; c; d; c_nian; e; f; c_yue; g; h; c_ri]
    /\ is_digit a = true /\ is_digit b = true /\ is_digit c = true
    /\ is_digit d = true /\ is_digit e = true /\ is_digit f = true
    /\ is_digit g = true /\ is_digit h = true.
Proof.
  unfold match_at, Earlier.re_date_two. intros H.
  invert_match H.
  do 8 eexists. split; [reflexivity|]. auto 10.
Qed.

Lemma re_match_two_shape s m0 caps :
  re_match Earlier.re_date_two s = Some (m0, caps) ->
  exists a b c d e f g h,
    m0 = [a; b; c; d; c_nian; e; f; c_yue; g; h; c_ri]
    /\ is_digit a = true /\ is_digit b = true /\ is_digit c = true
    /\ is_digit d = true /\ is_digit e = true /\ is_digit f = true
    /\ is_digit g = true /\ is_digit h = true.
Proof.
  induction s as [|c s IH]; cbn [re_match];
    destruct (match_at Earlier.re_date_two _) as [[m1 caps1]|] eqn:E; intros H.
  - injection H as <- <-. eapply match_at_two_shape; eassumption.
  - discriminate H.
  - injection H as <- <-. eapply match_at_two_shape; eassumption.
  - auto.
Qed.

Lemma trim_date a b c d e f g h :
  is_digit a = true ->
  trim [a; b; c; d; c_nian; e; f; c_yue; g; h; c_ri]
  = [a; b; c; d; c_nian; e; f; c_yue; g; h; c_ri].
Proof.
  intros Da. unfold trim. cbn [trimStart]. rewrite (is_digit_not_space a Da).
  cbn [rev app trimStart].
  change (is_space c_ri) with false. cbn [rev app]. reflexivity.
Qed.

(** X23. A date that the earlier script extracts with its pattern (four
    digits, 年, two digits, 月, two digits, 日) is eleven code units long and
    is a fixed point of [formatChineseDate]: an expire.txt written by the
    earlier script is read by main.mjs as it stands, and the comparison of
    main.mjs with such a persisted date is the comparison of the raw
    strings. *)
Theorem earlier_dates_are_canonical (th td m0 : jsstring) (caps : list jsstring)
    (rest : list (jsstring * option jsstring)) :
  trim th = utf16 "利用期限" ->
  re_match Earlier.re_date_two td = Some (m0, caps) ->
  Earlier.find_expiration ((th, Some td) :: rest) = m0
  /\ length m0 = 11%nat
  /\ formatChineseDate m0 = m0
  /\ forall fresh, classify m0 fresh = Legacy.classify m0 fresh.
Proof.
  intros Hth Hm.
  destruct (re_match_two_shape _ _ _ Hm)
    as (a & b & c & d & e & f & g & h & -> & Da & Db & Dc & Dd & De & Df & Dg & Dh).
  assert (F : formatChineseDate [a; b; c; d; c_nian; e; f; c_yue; g; h; c_ri]
              = [a; b; c; d; c_nian; e; f; c_yue; g; h; c_ri])
    by now apply formatChineseDate_fixed.
  split; [|split; [reflexivity | split; [exact F|]]].
  - cbn [Earlier.find_expiration]. rewrite Hth, Hm.
    replace (str_eqb (utf16 "利用期限") (utf16 "利用期限")) with true
      by (symmetry; now apply str_eqb_eq).
    now apply trim_date.
  - intros fresh. unfold classify, Legacy.classify. now rewrite F.
Qed.

Lemma earlier_dates_are_canonical_witness :
  (trim (utf16 " 利用期限 ") = utf16 "利用期限"
   /\ re_match Earlier.re_date_two (utf16 "2025年09月07日 (あと3日)")
      = Some (utf16 "2025年09月07日", []))
  /\ Earlier.find_expiration
       [(utf16 " 利用期限 ", Some (utf16 "2025年09月07日 (あと3日)"))]
     = utf16 "2025年09月07日".
Proof.
  assert (Hth : trim (utf16 " 利用期限 ") = utf16 "利用期限") by (vm_compute; reflexivity).
  assert (Hm : re_match Earlier.re_date_two (utf16 "2025年09月07日 (あと3日)")
               = Some (utf16 "2025年09月07日", [])) by (vm_compute; reflexivity).
  split; [auto|].
  exact (proj1 (earlier_dates_are_canonical _ _ _ _ [] Hth Hm)).
Defined.

(** ** Dates within other text *)

Lemma match_at_loose_nondigit c s :
  is_digit c = false -> match_at re_date_loose (c :: s) = None.
Proof. intros H. unfold match_at, re_date_loose. exec_simpl. now rewrite H. Qed.

Lemma re_match_loose_skip pre s :
  Forall (fun c => is_digit c = false) pre ->
  re_match re_date_loose (pre ++ s) = re_match re_date_loose s.
Proof.
  induction 1 as [|c pre Hc _ IH]; [reflexivity|].
  cbn [app re_match]. now rewrite (match_at_loose_nondigit c _ Hc).
Qed.

(** X24. The text around a date is dropped: when the first digit of the
    input begins a date written with or without padding, whatever precedes
    and follows it, [formatChineseDate] returns that date alone, zero
    padded. *)
Theorem formatChineseDate_drops_context (pre post : jsstring) (y m d : Z) :
  Forall (fun c => is_digit c = false) pre ->
  1000 <= y <= 9999 -> 0 <= m <= 99 -> 0 <= d <= 99 ->
  formatChineseDate (pre ++ unpadded_date y m d ++ post) = chinese_date y m d
  /\ formatChineseDate (pre ++ chinese_date y m d ++ post) = chinese_date y m d.
Proof.
  intros Hpre Hy Hm Hd.
  destruct (year_digits y Hy) as (a & b & c & e & Ey & _ & Da & Db & Dc & De).
  destruct (short_number m Hm) as (Lm & Dm & DPm & LPm & _).
  destruct (short_number d Hd) as (Ld & Dd & DPd & LPd & _).
  assert (Dy : is_digits (String_ y))
    by (rewrite Ey; unfold is_digits; repeat constructor; assumption).
  assert (Ly : length (String_ y) = 4%nat) by now rewrite Ey.
  assert (G : forall mo dd,
             (length mo = 1 \/ length mo = 2)%nat -> is_digits mo ->
             (length dd = 1 \/ length dd = 2)%nat -> is_digits dd ->
             formatChineseDate
               (pre ++ (String_ y ++ [c_nian] ++ mo ++ [c_yue] ++ dd ++ [c_ri]) ++ post)
             = String_ y ++ [c_nian] ++ padStart 2 c_zero mo ++ [c_yue]
               ++ padStart 2 c_zero dd ++ [c_ri]).
  { intros mo dd Lmo Dmo Ldd Ddd.
    pose proof (match_at_loose_date _ _ _ post Ly Dy Lmo Dmo Ldd Ddd) as M.
    unfold formatChineseDate. rewrite (re_match_loose_skip pre _ Hpre).
    rewrite <- !app_assoc.
    assert (R : re_match re_date_loose
                  (String_ y ++ [c_nian] ++ mo ++ [c_yue] ++ dd ++ [c_ri] ++ post)
                = Some (String_ y ++ [c_nian] ++ mo ++ [c_yue] ++ dd ++ [c_ri],
                        [String_ y; mo; dd])).
    { rewrite Ey in *. cbn [app re_match] in *. now rewrite M. }
    rewrite R. reflexivity. }
  unfold unpadded_date, chinese_date.
  rewrite (padStart_full 4 c_zero (String_ y)) by lia.
  split.
  - now apply G.
  - rewrite (G (padStart 2 c_zero (String_ m)) (padStart 2 c_zero (String_ d)));
      auto.
    now rewrite (padStart_full 2 c_zero (padStart 2 c_zero (String_ m))),
      (padStart_full 2 c_zero (padStart 2 c_zero (String_ d))) by lia.
Qed.

Lemma formatChineseDate_drops_context_witness :
  (Forall (fun c => is_digit c = false) (utf16 "更新手続きは")
   /\ 1000 <= 2025 <= 9999 /\ 0 <= 9 <= 99 /\ 0 <= 6 <= 99)
  /\ formatChineseDate
       (utf16 "更新手続きは" ++ unpadded_date 2025 9 6 ++ utf16 "以降にお試しください")
     = chinese_date 2025 9 6.
Proof.
  assert (Hp : Forall (fun c => is_digit c = false) (utf16 "更新手続きは"))
    by (vm_compute; repeat constructor).
  assert (Hy : 1000 <= 2025 <= 9999) by lia.
  assert (Hm : 0 <= 9 <= 99) by lia.
  assert (Hd : 0 <= 6 <= 99) by lia.
  split; [auto|].
  exact (proj1 (formatChineseDate_drops_context (utf16 "更新手続きは")
                  (utf16 "以降にお試しください") 2025 9 6 Hp Hy Hm Hd)).
Defined.

(** ** What a verdict rests on *)

(** X25. A run that ends in [Success] or [Unchanged] has gone through the
    final confirmation: the CAPTCHA loop returned, the page it left did not
    show the "too early" marker, and none of the requests of the
    confirmation was rejected.  Its requests from the marker check on are
    the reading of the page text, the click on the final confirmation and
    the return to the contract page, the reading of the date, and then only
    requests of the [finally] block; the verdict is the comparison of the
    date returned by that reading, formatted, with the persisted one. *)
Theorem verdict_follows_confirmation (env : Env) (files : gmap jsstring jsstring) :
  let st0 := fst (read_persisted (initial files)) in
  let st1 := fst (open_renewal env st0) in
  let st2 := fst (solve_captcha env st1) in
  let st3 := before_final_read (tick_event ReadBodyText st2) in
  let fresh := formatChineseDate (date_read env st3) in
  let r := main env (initial files) in
  outcome r = Success \/ outcome r = Unchanged ->
  (snd (solve_captcha env st1) = Ok tt
   /\ rejects env (now st2) ReadBodyText = None
   /\ includes (body_text env (now st2)) too_early_marker = false
   /\ accepted env (S (now st2)) confirm_requests)
  /\ (outcome r = Success -> classify (persisted files) fresh = CSuccess)
  /\ (outcome r = Unchanged -> classify (persisted files) fresh = CUnchanged)
  /\ exists evs,
       trace (final r)
       = trace st2 ++ ReadBodyText :: confirm_requests ++ [Sleep 3000; ReadThTd] ++ evs
       /\ Forall (fun e => is_cleanup_request e = true) evs.
Proof.
  cbn zeta. intros V.
  assert (W : exists o, snd (workflow env (initial files)) = Ok o /\ o <> NotYetEligible).
  { rewrite main_eq in V. cbn zeta in V. cbn [outcome] in V.
    destruct (snd (workflow env (initial files))) as [o|message].
    - exists o. split; [reflexivity|]. destruct V as [-> | ->]; discriminate.
    - destruct V as [V|V]; discriminate V. }
  destruct W as (o & W & No).
  destruct (workflow_verdict_path env files o W No) as ((cur & Ho) & Hs & Hb & Hm & Ha).
  destruct (main_confirmed env files cur Ho Hs Hb Hm Ha) as (D & _ & T).
  split; [auto|].
  destruct D as [(O & C & _) | (O & C & _)]; rewrite O;
    (split; [intros K; try discriminate K; exact C|]);
    (split; [intros K; try discriminate K; exact C|]); exact T.
Qed.

Lemma verdict_follows_confirmation_witness :
  (outcome (main env_renewed (initial files_0707)) = Success
   \/ outcome (main env_renewed (initial files_0707)) = Unchanged)
  /\ classify (persisted files_0707)
       (formatChineseDate
          (date_read env_renewed
             (before_final_read
                (tick_event ReadBodyText
                   (fst (solve_captcha env_renewed
                           (fst (open_renewal env_renewed
                                   (fst (read_persisted (initial files_0707)))))))))))
     = CSuccess.
Proof.
  assert (O : outcome (main env_renewed (initial files_0707)) = Success)
    by (vm_compute; reflexivity).
  split; [left; exact O|].
  exact (proj1 (proj2 (verdict_follows_confirmation env_renewed files_0707
                         (or_introl O))) O).
Defined.
